(** * Reservas de libras: capacity allocation, status machine and archival

    Shallow embedding of the reservation backend
    (controllers/reservaController.ts, controllers/periodoController.ts,
    controllers/dashboardController.ts, middlewares/authorization.ts,
    middlewares/errorHandler.ts, routes/periodoRoutes.ts,
    utils/validators.ts).

    Conventions of the embedding.
    - A weight (libras of a reservation, a Prisma Decimal with two
      fractional digits) is an integer number of hundredths of a pound;
      [librasTotales] of a period is a whole number of pounds, as in the
      source, and is scaled by 100 where the source subtracts a sum of
      weights from it.  The arithmetic is exact: the rounding noise of
      JavaScript doubles is outside the model.
    - A date is a calendar day number; [Date.getTime] equality is equality
      of day numbers.
    - The database is an explicit record of tables; a controller is a
      computation in a state-and-error monad whose state survives an
      error, because the source never opens a transaction: what was
      written before a throw stays written. *)

From Stdlib Require Import List ZArith QArith Qround String Ascii Bool Lia Arith.
From Stdlib Require Import DecimalString DecimalNat Permutation Sorted Lqa.
Import ListNotations.
Open Scope string_scope.
Open Scope Z_scope.

(** ** Constants (config/constants.ts) *)

Inductive StatusReserva : Type :=
| PENDIENTE | CONFIRMADA | ENVIADA | ENTREGADA | CANCELADA.

Inductive Role : Type := ADMIN_PRINCIPAL | USUARIO.

Definition StatusReserva_eqb (a b : StatusReserva) : bool :=
  match a, b with
  | PENDIENTE, PENDIENTE | CONFIRMADA, CONFIRMADA | ENVIADA, ENVIADA
  | ENTREGADA, ENTREGADA | CANCELADA, CANCELADA => true
  | _, _ => false
  end.

Definition Role_eqb (a b : Role) : bool :=
  match a, b with
  | ADMIN_PRINCIPAL, ADMIN_PRINCIPAL | USUARIO, USUARIO => true
  | _, _ => false
  end.

Definition STATUS_name (s : StatusReserva) : string :=
  match s with
  | PENDIENTE => "PENDIENTE" | CONFIRMADA => "CONFIRMADA"
  | ENVIADA => "ENVIADA" | ENTREGADA => "ENTREGADA"
  | CANCELADA => "CANCELADA"
  end.

(** ** Data model *)

Definition Fecha := Z.
Definition Libras := Z.

Record User : Type := mkUser {
  u_id : nat;
  u_name : string;
  u_email : string
}.

(** The authenticated actor of a request ([req.user]). *)
Record AuthUser : Type := mkAuthUser {
  au_id : nat;
  au_role : Role
}.

Record PeriodoLibras : Type := mkPeriodo {
  p_id : nat;
  librasTotales : Z;
  p_fechaEnvio : Fecha;
  isActive : bool
}.

Record Reserva : Type := mkReserva {
  r_id : nat;
  libras : Libras;
  fecha : Fecha;
  estado : string;
  observaciones : option string;
  status : StatusReserva;
  userId : nat;
  periodoId : nat;
  fechaConfirmacion : option Fecha;
  r_fechaEnvio : option Fecha;
  fechaEntrega : option Fecha
}.

Record HistoricoPeriodo : Type := mkHistoricoPeriodo {
  hp_librasTotales : Z;
  hp_librasReservadas : Libras;
  hp_librasDisponibles : Libras;
  hp_fechaEnvio : Fecha;
  totalReservas : nat;
  totalUsuarios : nat
}.

Record HistoricoReserva : Type := mkHistoricoReserva {
  hr_userId : nat;
  userName : string;
  userEmail : string;
  hr_libras : Libras;
  hr_fecha : Fecha;
  hr_estado : string;
  hr_observaciones : option string;
  hr_status : StatusReserva;
  periodoFechaEnvio : Fecha;
  reservaOriginalId : nat
}.

(** The tables reached through the Prisma client.  [nextReservaId] is the
    autoincrement counter of the reservation table. *)
Record DB : Type := mkDB {
  users : list User;
  periodos : list PeriodoLibras;
  reservas : list Reserva;
  historicoPeriodos : list HistoricoPeriodo;
  historicoReservas : list HistoricoReserva;
  nextReservaId : nat
}.

(** ** Errors and the controller monad (middlewares/errorHandler.ts) *)

Inductive AppError : Type :=
| BadRequest (message : string)
| NotFound (message : string)
| Forbidden (message : string)
| Internal.

Inductive Result (A : Type) : Type :=
| Ok (a : A)
| Err (e : AppError).
Arguments Ok {A} a.
Arguments Err {A} e.

Definition M (A : Type) : Type := DB -> Result A * DB.

Definition ret {A : Type} (a : A) : M A := fun db => (Ok a, db).

Definition throw {A : Type} (e : AppError) : M A := fun db => (Err e, db).

Definition bind {A B : Type} (m : M A) (k : A -> M B) : M B :=
  fun db =>
    match m db with
    | (Ok a, db') => k a db'
    | (Err e, db') => (Err e, db')
    end.

Definition getDB : M DB := fun db => (Ok db, db).

Declare Scope ctrl_scope.
Delimit Scope ctrl_scope with ctrl.
Notation "x <- m ;; k" := (bind m (fun x => k))
  (at level 61, m at next level, right associativity) : ctrl_scope.
Notation "m ;;; k" := (bind m (fun _ => k))
  (at level 61, right associativity) : ctrl_scope.
Open Scope ctrl_scope.

(** ** Error and default constants *)

Definition RESERVA_NOT_FOUND : string := "Reserva no encontrada".
Definition PERIODO_NOT_FOUND : string := "Periodo no encontrado".
Definition NO_PUEDE_EDITAR_RESERVA : string :=
  "No tienes permiso para editar esta reserva".
Definition NO_PUEDE_ELIMINAR_RESERVA : string :=
  "No tienes permiso para eliminar esta reserva".
Definition CANNOT_CHANGE_STATUS : string :=
  "No tienes permiso para cambiar este estado".

(** Modelled from the spec: the Prisma schema is not among the sources; a
    reservation row is created with status PENDING and none of the three
    transition dates set. *)
Definition STATUS_DEFAULT : StatusReserva := PENDIENTE.

(** ** middlewares/authorization.ts: canChangeReservaStatus *)

Record Decision : Type := mkDecision {
  allowed : bool;
  reason : option string
}.

(** [validTransitions[currentStatus]], [None] where the object has no key. *)
Definition validTransitions (currentStatus : StatusReserva)
  : option (list StatusReserva) :=
  match currentStatus with
  | PENDIENTE => Some [CONFIRMADA; CANCELADA]
  | CONFIRMADA => Some [ENVIADA; CANCELADA]
  | ENVIADA => Some [ENTREGADA; CANCELADA]
  | _ => None
  end.

Definition includes (l : list StatusReserva) (s : StatusReserva) : bool :=
  existsb (StatusReserva_eqb s) l.

Definition canChangeReservaStatus
  (userRole : Role) (currentStatus newStatus : StatusReserva) : Decision :=
  if StatusReserva_eqb currentStatus ENTREGADA
     || StatusReserva_eqb currentStatus CANCELADA
  then mkDecision false
         (Some "No se puede modificar una reserva entregada o cancelada")
  else if StatusReserva_eqb currentStatus newStatus
  then mkDecision false (Some "La reserva ya tiene este estado")
  else if Role_eqb userRole ADMIN_PRINCIPAL
  then
    if match validTransitions currentStatus with
       | Some l => includes l newStatus
       | None => false
       end
    then mkDecision true None
    else mkDecision false
           (Some ("No se puede cambiar de " ++ STATUS_name currentStatus
                  ++ " a " ++ STATUS_name newStatus))
  else if Role_eqb userRole USUARIO
  then
    if StatusReserva_eqb currentStatus CONFIRMADA
       && StatusReserva_eqb newStatus ENVIADA
    then mkDecision true None
    else mkDecision false
           (Some "Solo puedes cambiar reservas confirmadas a enviadas")
  else mkDecision false (Some "No tienes permisos para cambiar estados").

(** ** utils/validators.ts *)

(** [Math.round(parsed * 100) / 100], the result counted in hundredths.
    [Math.round] rounds a half towards plus infinity. *)
Definition parseDecimal (value : Q) : Libras :=
  Qfloor (value * (100 # 1) + (1 # 2))%Q.

(** A [YYYY-MM-DD] string or a [Date] becomes local noon of that day: on
    day numbers, the identity. *)
Definition parseDateWithoutTimezone (dateString : Fecha) : Fecha := dateString.

Definition string_of_nat (n : nat) : string :=
  NilZero.string_of_uint (Nat.to_uint n).

Definition digits (z : Z) : string :=
  NilZero.string_of_uint (N.to_uint (Z.abs_N z)).

Definition dos_digitos (z : Z) : string :=
  (if z <? 10 then "0" else "") ++ digits z.

(** [Number.prototype.toFixed(2)] of a weight held in hundredths. *)
Definition toFixed2 (v : Libras) : string :=
  (if v <? 0 then "-" else "")
  ++ digits (Z.abs v / 100) ++ "." ++ dos_digitos (Z.abs v mod 100).

(** Template-literal rendering of a weight: no trailing zeros. *)
Definition numberToString (v : Libras) : string :=
  let f := Z.abs v mod 100 in
  (if v <? 0 then "-" else "")
  ++ digits (Z.abs v / 100)
  ++ (if f =? 0 then ""
      else "." ++ (if f mod 10 =? 0 then digits (f / 10) else dos_digitos f)).

(** ** Table access (the Prisma calls of the controllers) *)

Definition set_reservas (db : DB) (rs : list Reserva) : DB :=
  mkDB (users db) (periodos db) rs
       (historicoPeriodos db) (historicoReservas db) (nextReservaId db).

Definition set_periodos (db : DB) (ps : list PeriodoLibras) : DB :=
  mkDB (users db) ps (reservas db)
       (historicoPeriodos db) (historicoReservas db) (nextReservaId db).

Definition set_historicoPeriodos (db : DB) (hs : list HistoricoPeriodo) : DB :=
  mkDB (users db) (periodos db) (reservas db)
       hs (historicoReservas db) (nextReservaId db).

Definition set_historicoReservas (db : DB) (hs : list HistoricoReserva) : DB :=
  mkDB (users db) (periodos db) (reservas db)
       (historicoPeriodos db) hs (nextReservaId db).

(** [status: { notIn: ['CANCELADA'] }] and [r.status !== 'CANCELADA']. *)
Definition noCancelada (r : Reserva) : bool :=
  negb (StatusReserva_eqb (status r) CANCELADA).

(** The [reservas] relation of a period. *)
Definition reservasDePeriodo (db : DB) (pid : nat) : list Reserva :=
  filter (fun r => (periodoId r =? pid)%nat) (reservas db).

(** [reservas.reduce((sum, reserva) => sum + parseFloat(reserva.libras), 0)] *)
Definition sumLibras (rs : list Reserva) : Libras :=
  fold_left (fun sum reserva => sum + libras reserva) rs 0.

Definition findUniquePeriodo (db : DB) (pid : nat) : option PeriodoLibras :=
  find (fun p => (p_id p =? pid)%nat) (periodos db).

Definition findUniqueReserva (db : DB) (rid : nat) : option Reserva :=
  find (fun r => (r_id r =? rid)%nat) (reservas db).

Definition findUniqueUser (db : DB) (uid : nat) : option User :=
  find (fun u => (u_id u =? uid)%nat) (users db).

(** A period together with the reservations its query includes. *)
Record PeriodoConReservas : Type := mkPeriodoConReservas {
  periodo : PeriodoLibras;
  pr_reservas : list Reserva
}.

(** [include: { reservas: { where: { status: { notIn: ['CANCELADA'] } } } }] *)
Definition includeReservasNoCanceladas (db : DB) (p : PeriodoLibras)
  : PeriodoConReservas :=
  mkPeriodoConReservas p (filter noCancelada (reservasDePeriodo db (p_id p))).

(** [orderBy: { fechaEnvio: 'asc' }]: a stable insertion sort; rows with
    the same send date keep their table order. *)
Fixpoint insertarPorFechaEnvio (p : PeriodoLibras) (l : list PeriodoLibras)
  : list PeriodoLibras :=
  match l with
  | [] => [p]
  | q :: l' =>
      if p_fechaEnvio p <=? p_fechaEnvio q then p :: q :: l'
      else q :: insertarPorFechaEnvio p l'
  end.

Definition orderByFechaEnvioAsc (l : list PeriodoLibras) : list PeriodoLibras :=
  fold_right insertarPorFechaEnvio [] l.

(** [prisma.reserva.create]: the row gets the next identifier and the
    schema defaults. *)
Definition prisma_reserva_create
  (libras_ : Libras) (fecha_ : Fecha) (estado_ : string)
  (observaciones_ : option string) (userId_ periodoId_ : nat) : M Reserva :=
  fun db =>
    let r := mkReserva (nextReservaId db) libras_ fecha_ estado_ observaciones_
                       STATUS_DEFAULT userId_ periodoId_ None None None in
    (Ok r,
     mkDB (users db) (periodos db) (reservas db ++ [r])%list
          (historicoPeriodos db) (historicoReservas db)
          (S (nextReservaId db))).

(** [prisma.reserva.update({ where: { id }, data })]: [data] is the
    function applying the assigned fields; Prisma rejects when no row has
    the identifier. *)
Definition prisma_reserva_update (rid : nat) (data : Reserva -> Reserva)
  : M Reserva :=
  fun db =>
    match findUniqueReserva db rid with
    | None => (Err Internal, db)
    | Some r =>
        (Ok (data r),
         set_reservas db
           (map (fun x => if (r_id x =? rid)%nat then data x else x)
                (reservas db)))
    end.

(** [prisma.reserva.delete({ where: { id } })] *)
Definition prisma_reserva_delete (rid : nat) : M unit :=
  fun db =>
    match findUniqueReserva db rid with
    | None => (Err Internal, db)
    | Some _ =>
        (Ok tt,
         set_reservas db
           (filter (fun x => negb (r_id x =? rid)%nat) (reservas db)))
    end.

(** [prisma.periodoLibras.update({ where: { id }, data })] *)
Definition prisma_periodo_update (pid : nat)
  (data : PeriodoLibras -> PeriodoLibras) : M PeriodoLibras :=
  fun db =>
    match findUniquePeriodo db pid with
    | None => (Err Internal, db)
    | Some p =>
        (Ok (data p),
         set_periodos db
           (map (fun x => if (p_id x =? pid)%nat then data x else x)
                (periodos db)))
    end.

(** ** controllers/reservaController.ts *)

(** [calcularLibrasDisponibles(periodoId, excludeReservaId)].  The filter
    [id: excludeReservaId ? { not: excludeReservaId } : undefined] is
    dropped when the identifier is falsy (zero). *)
Definition calcularLibrasDisponibles (periodoId_ excludeReservaId : nat)
  : M Libras :=
  db <- getDB ;;
  match findUniquePeriodo db periodoId_ with
  | None => throw (NotFound PERIODO_NOT_FOUND)
  | Some p =>
      let incluidas :=
        filter
          (fun r =>
             (if (excludeReservaId =? 0)%nat then true
              else negb (r_id r =? excludeReservaId)%nat)
             && noCancelada r)
          (reservasDePeriodo db (p_id p)) in
      let librasReservadas := sumLibras incluidas in
      ret (100 * librasTotales p - librasReservadas)
  end.

Record CreateReservaDTO : Type := mkCreateReservaDTO {
  dto_libras : Q;
  dto_fecha : Fecha;
  dto_estado : string;
  dto_observaciones : option string;
  dto_periodoId : option nat
}.

Record PlanItem : Type := mkPlanItem {
  pl_periodo : PeriodoConReservas;
  pl_libras : Libras;
  pl_fecha : Fecha
}.

(** The planning loop of [createReserva] ([for (const periodo of
    periodosActivos)]): the state of the loop is [librasRestantes] and
    [planDeReservas]; [0.01] is one hundredth. *)
Fixpoint planificar (fechaReserva : Fecha)
  (periodosActivos : list PeriodoConReservas)
  (librasRestantes : Libras) (planDeReservas : list PlanItem)
  : Libras * list PlanItem :=
  match periodosActivos with
  | [] => (librasRestantes, planDeReservas)
  | periodo_ :: resto =>
      if librasRestantes <=? 0 then (librasRestantes, planDeReservas)
      else
        let librasReservadas := sumLibras (pr_reservas periodo_) in
        let librasDisponibles :=
          100 * librasTotales (periodo periodo_) - librasReservadas in
        if 0 <? librasDisponibles then
          let librasParaEstePeriodo := Z.min librasRestantes librasDisponibles in
          if 1 <=? librasParaEstePeriodo then
            let fechaEnvioPeriodo :=
              parseDateWithoutTimezone (p_fechaEnvio (periodo periodo_)) in
            let fechaReservaParaPeriodo :=
              if (List.length planDeReservas =? 0)%nat
                 && (fechaReserva =? fechaEnvioPeriodo)
              then fechaReserva else fechaEnvioPeriodo in
            planificar fechaReserva resto
              (librasRestantes - librasParaEstePeriodo)
              (planDeReservas
                 ++ [mkPlanItem periodo_ librasParaEstePeriodo
                                fechaReservaParaPeriodo])%list
          else planificar fechaReserva resto librasRestantes planDeReservas
        else planificar fechaReserva resto librasRestantes planDeReservas
  end.

(** [observaciones || null] and [observaciones || '']. *)
Definition orNull (o : option string) : option string :=
  match o with
  | Some EmptyString => None
  | other => other
  end.

Definition orEmpty (o : option string) : string :=
  match o with
  | Some s => s
  | None => ""
  end.

(** The commit loop ([for (const [index, plan] of planDeReservas.entries())]). *)
Fixpoint crearReservas (user : AuthUser) (estado_ : string)
  (observaciones_ : option string) (index : nat) (plan : list PlanItem)
  : M (list Reserva) :=
  match plan with
  | [] => ret []
  | item :: resto =>
      reserva <-
        prisma_reserva_create (pl_libras item) (pl_fecha item) estado_
          (if (index =? 0)%nat then orNull observaciones_
           else Some ("Reserva dividida - Parte " ++ string_of_nat (index + 1)
                      ++ ". " ++ orEmpty observaciones_))
          (au_id user) (p_id (periodo (pl_periodo item))) ;;
      creadas <- crearReservas user estado_ observaciones_ (S index) resto ;;
      ret (reserva :: creadas)
  end.

Definition mensajeInsuficientes (librasDisponiblesTotales librasRestantes : Libras)
  : string :=
  "No hay suficientes libras disponibles. Se pueden reservar máximo "
  ++ toFixed2 librasDisponiblesTotales ++ " lbs "
  ++ "distribuidas entre los periodos activos. Faltan "
  ++ toFixed2 librasRestantes ++ " lbs por asignar.".

(** The candidate periods of a request: the chosen active period when a
    truthy [periodoId] is given, otherwise the active periods whose send
    date is on or after the requested date, earliest first. *)
Definition buscarPeriodosActivos (periodoId_ : option nat) (fechaReserva : Fecha)
  : M (list PeriodoConReservas) :=
  db <- getDB ;;
  match periodoId_ with
  | Some (S n) =>
      match find (fun p => (p_id p =? S n)%nat && isActive p) (periodos db) with
      | None =>
          throw (BadRequest "El periodo seleccionado no existe o no está activo")
      | Some periodoEspecifico =>
          ret [includeReservasNoCanceladas db periodoEspecifico]
      end
  | _ =>
      ret (map (includeReservasNoCanceladas db)
             (orderByFechaEnvioAsc
                (filter (fun p => isActive p && (fechaReserva <=? p_fechaEnvio p))
                        (periodos db))))
  end.

(** The [data] of the response: one row, or the array of sibling rows. *)
Inductive ReservaData : Type :=
| UnaReserva (r : Reserva)
| VariasReservas (rs : list Reserva).

Definition responseData (reservasCreadas : list Reserva) : ReservaData :=
  match reservasCreadas with
  | [r] => UnaReserva r
  | rs => VariasReservas rs
  end.

(** [createReserva] (POST /api/reservas).  The text of the success message
    is not modelled. *)
Definition createReserva (user : option AuthUser) (body : CreateReservaDTO)
  : M ReservaData :=
  match user with
  | None => throw (BadRequest "Usuario no autenticado")
  | Some u =>
      let librasDecimal := parseDecimal (dto_libras body) in
      let fechaReserva := parseDateWithoutTimezone (dto_fecha body) in
      periodosActivos <- buscarPeriodosActivos (dto_periodoId body) fechaReserva ;;
      if (List.length periodosActivos =? 0)%nat then
        throw (BadRequest
          "No hay periodos activos disponibles para esta fecha o fechas futuras")
      else
        let '(librasRestantes, planDeReservas) :=
          planificar fechaReserva periodosActivos librasDecimal [] in
        if 0 <? librasRestantes then
          let librasDisponiblesTotales := librasDecimal - librasRestantes in
          throw (BadRequest
                   (mensajeInsuficientes librasDisponiblesTotales librasRestantes))
        else
          reservasCreadas <-
            crearReservas u (dto_estado body) (dto_observaciones body) 0
              planDeReservas ;;
          ret (responseData reservasCreadas)
  end.

(** The [updateData] object handed to [prisma.reserva.update]: a field is
    [Some] when the controller assigned it. *)
Record ReservaUpdateData : Type := mkReservaUpdateData {
  ud_libras : option Libras;
  ud_estado : option string;
  ud_observaciones : option string;
  ud_status : option StatusReserva;
  ud_fechaConfirmacion : option Fecha;
  ud_fechaEnvio : option Fecha;
  ud_fechaEntrega : option Fecha
}.

Definition orElse {A : Type} (o : option A) (d : A) : A :=
  match o with
  | Some a => a
  | None => d
  end.

Definition orKeep {A : Type} (o : option A) (old : option A) : option A :=
  match o with
  | Some a => Some a
  | None => old
  end.

Definition applyUpdateData (d : ReservaUpdateData) (r : Reserva) : Reserva :=
  mkReserva (r_id r)
    (orElse (ud_libras d) (libras r))
    (fecha r)
    (orElse (ud_estado d) (estado r))
    (orKeep (ud_observaciones d) (observaciones r))
    (orElse (ud_status d) (status r))
    (userId r) (periodoId r)
    (orKeep (ud_fechaConfirmacion d) (fechaConfirmacion r))
    (orKeep (ud_fechaEnvio d) (r_fechaEnvio r))
    (orKeep (ud_fechaEntrega d) (fechaEntrega r)).

Record UpdateReservaDTO : Type := mkUpdateReservaDTO {
  upd_libras : option Q;
  upd_estado : option string;
  upd_observaciones : option string;
  upd_status : option StatusReserva
}.

(** [if (estado)]: an absent or empty string is falsy. *)
Definition truthyString (o : option string) : option string :=
  match o with
  | Some EmptyString => None
  | other => other
  end.

(** [updateReserva] (PATCH /api/reservas/:reservaId). *)
Definition updateReserva (user : option AuthUser) (reservaId : nat)
  (body : UpdateReservaDTO) : M Reserva :=
  match user with
  | None => throw (BadRequest "Usuario no autenticado")
  | Some u =>
      db <- getDB ;;
      match findUniqueReserva db reservaId with
      | None => throw (NotFound RESERVA_NOT_FOUND)
      | Some reserva =>
          if Role_eqb (au_role u) USUARIO
             && negb (userId reserva =? au_id u)%nat
          then throw (Forbidden NO_PUEDE_EDITAR_RESERVA)
          else
            nuevasLibras <-
              match upd_libras body with
              | None => ret None
              | Some l =>
                  let librasDecimal := parseDecimal l in
                  librasDisponibles <-
                    calcularLibrasDisponibles (periodoId reserva) (r_id reserva) ;;
                  if librasDisponibles <? librasDecimal then
                    throw (BadRequest
                      ("No hay suficientes libras disponibles en este periodo. "
                       ++ "Solicitadas: " ++ numberToString librasDecimal
                       ++ " lbs, " ++ "Disponibles: "
                       ++ toFixed2 librasDisponibles ++ " lbs"))
                  else ret (Some librasDecimal)
              end ;;
            let updateData :=
              mkReservaUpdateData nuevasLibras
                (truthyString (upd_estado body))
                (upd_observaciones body)
                (upd_status body)
                None None None in
            prisma_reserva_update reservaId (applyUpdateData updateData)
      end
  end.

(** [canChange.reason || ERROR_MESSAGES.CANNOT_CHANGE_STATUS] *)
Definition reasonOr (o : option string) (d : string) : string :=
  match o with
  | Some (String c s) => String c s
  | _ => d
  end.

(** The [updateData] of [updateReservaStatus]: the status and the date
    field of the destination state, stamped with today's date. *)
Definition statusUpdateData (status_ : StatusReserva) (fechaActual : Fecha)
  : ReservaUpdateData :=
  match status_ with
  | CONFIRMADA =>
      mkReservaUpdateData None None None (Some status_)
                          (Some fechaActual) None None
  | ENVIADA =>
      mkReservaUpdateData None None None (Some status_)
                          None (Some fechaActual) None
  | ENTREGADA =>
      mkReservaUpdateData None None None (Some status_)
                          None None (Some fechaActual)
  | _ => mkReservaUpdateData None None None (Some status_) None None None
  end.

(** [updateReservaStatus] (PATCH /api/reservas/:reservaId/status).  The
    actor is [req.user!]; [hoy] is the day read from the clock by
    [getTodayDateString]. *)
Definition updateReservaStatus (hoy : Fecha) (user : AuthUser)
  (reservaId : nat) (status_ : StatusReserva) : M Reserva :=
  db <- getDB ;;
  match findUniqueReserva db reservaId with
  | None => throw (NotFound RESERVA_NOT_FOUND)
  | Some reserva =>
      let canChange :=
        canChangeReservaStatus (au_role user) (status reserva) status_ in
      if negb (allowed canChange) then
        throw (BadRequest (reasonOr (reason canChange) CANNOT_CHANGE_STATUS))
      else
        let fechaActual := parseDateWithoutTimezone hoy in
        prisma_reserva_update reservaId
          (applyUpdateData (statusUpdateData status_ fechaActual))
  end.

(** [deleteReserva] (DELETE /api/reservas/:reservaId). *)
Definition deleteReserva (user : option AuthUser) (reservaId : nat) : M unit :=
  match user with
  | None => throw (BadRequest "Usuario no autenticado")
  | Some u =>
      db <- getDB ;;
      match findUniqueReserva db reservaId with
      | None => throw (NotFound RESERVA_NOT_FOUND)
      | Some reserva =>
          if Role_eqb (au_role u) USUARIO
             && negb (userId reserva =? au_id u)%nat
          then throw (Forbidden NO_PUEDE_ELIMINAR_RESERVA)
          else prisma_reserva_delete reservaId
      end
  end.

(** ** controllers/periodoController.ts *)

Record UpdatePeriodoDTO : Type := mkUpdatePeriodoDTO {
  updp_librasTotales : option Z;
  updp_fechaEnvio : option Fecha
}.

(** [if (librasTotales)]: absent or zero is falsy. *)
Definition truthyZ (o : option Z) : option Z :=
  match o with
  | Some 0 => None
  | other => other
  end.

(** [updatePeriodo] (PATCH /api/periodos/:periodoId). *)
Definition updatePeriodo (periodoId_ : nat) (body : UpdatePeriodoDTO)
  : M PeriodoLibras :=
  db <- getDB ;;
  match findUniquePeriodo db periodoId_ with
  | None => throw (NotFound PERIODO_NOT_FOUND)
  | Some periodo_ =>
      (match updp_librasTotales body with
       | Some librasTotales_ =>
           if librasTotales_ <? librasTotales periodo_ then
             let reservas_ :=
               filter noCancelada (reservasDePeriodo db (p_id periodo_)) in
             let librasReservadas := sumLibras reservas_ in
             if 100 * librasTotales_ <? librasReservadas then
               throw (BadRequest
                 ("No se puede reducir el total a "
                  ++ numberToString (100 * librasTotales_) ++ " lbs. Ya hay "
                  ++ numberToString librasReservadas ++ " lbs reservadas."))
             else ret tt
           else ret tt
       | None => ret tt
       end) ;;;
      prisma_periodo_update periodoId_
        (fun p =>
           mkPeriodo (p_id p)
             (orElse (truthyZ (updp_librasTotales body)) (librasTotales p))
             (orElse (option_map parseDateWithoutTimezone (updp_fechaEnvio body))
                     (p_fechaEnvio p))
             (isActive p))
  end.

(** The four kinds of write of [closePeriodo], in program order.  A
    [Fallos] says which of them the store rejects; the controller has no
    handler and no transaction around them. *)
Inductive Escritura : Type :=
| EscHistoricoPeriodo
| EscHistoricoReserva (index : nat)
| EscDeleteMany
| EscDesactivar.

Definition Fallos : Type := Escritura -> bool.

Definition sinFallos : Fallos := fun _ => false.

Definition prisma_historicoPeriodo_create (fallos : Fallos)
  (h : HistoricoPeriodo) : M HistoricoPeriodo :=
  fun db =>
    if fallos EscHistoricoPeriodo then (Err Internal, db)
    else (Ok h, set_historicoPeriodos db (historicoPeriodos db ++ [h])%list).

(** The rows of a [Promise.all] of creates that reach the table, and
    whether some create was rejected: every create is started, a
    rejection does not stop the others. *)
Fixpoint promiseAllCreates (fallos : Fallos) (index : nat)
  (hs : list HistoricoReserva) : list HistoricoReserva * bool :=
  match hs with
  | [] => ([], false)
  | h :: resto =>
      let '(escritas, rechazo) := promiseAllCreates fallos (S index) resto in
      if fallos (EscHistoricoReserva index) then (escritas, true)
      else (h :: escritas, rechazo)
  end.

Definition prisma_historicoReserva_createAll (fallos : Fallos)
  (hs : list HistoricoReserva) : M unit :=
  fun db =>
    let '(escritas, rechazo) := promiseAllCreates fallos 0 hs in
    let db' := set_historicoReservas db (historicoReservas db ++ escritas)%list in
    if rechazo then (Err Internal, db') else (Ok tt, db').

(** [prisma.reserva.deleteMany({ where: { periodoId } })] *)
Definition prisma_reserva_deleteMany (fallos : Fallos) (periodoId_ : nat)
  : M unit :=
  fun db =>
    if fallos EscDeleteMany then (Err Internal, db)
    else (Ok tt,
          set_reservas db
            (filter (fun r => negb (periodoId r =? periodoId_)%nat)
                    (reservas db))).

(** The historical copy of a reservation; [None] when the included
    [reserva.user] is missing, where reading its name throws. *)
Definition historicoDeReserva (db : DB) (periodo_ : PeriodoLibras)
  (reserva : Reserva) : option HistoricoReserva :=
  match findUniqueUser db (userId reserva) with
  | None => None
  | Some user =>
      Some (mkHistoricoReserva (userId reserva) (u_name user) (u_email user)
              (libras reserva) (fecha reserva) (estado reserva)
              (observaciones reserva) (status reserva)
              (p_fechaEnvio periodo_) (r_id reserva))
  end.

Fixpoint mapOption {A B : Type} (f : A -> option B) (l : list A)
  : option (list B) :=
  match l with
  | [] => Some []
  | a :: l' =>
      match f a, mapOption f l' with
      | Some b, Some bs => Some (b :: bs)
      | _, _ => None
      end
  end.

(** [new Set(xs).size] *)
Definition setSize (xs : list nat) : nat :=
  List.length (nodup Nat.eq_dec xs).

(** [closePeriodo] (POST /api/periodos/:periodoId/close). *)
Definition closePeriodo (fallos : Fallos) (periodoId_ : nat)
  : M HistoricoPeriodo :=
  db <- getDB ;;
  match findUniquePeriodo db periodoId_ with
  | None => throw (NotFound PERIODO_NOT_FOUND)
  | Some periodo_ =>
      let reservas_ := reservasDePeriodo db (p_id periodo_) in
      let reservasActivas := filter noCancelada reservas_ in
      let librasReservadas := sumLibras reservasActivas in
      let librasDisponibles := 100 * librasTotales periodo_ - librasReservadas in
      let usuariosUnicos := setSize (map userId reservasActivas) in
      historicoPeriodo <-
        prisma_historicoPeriodo_create fallos
          (mkHistoricoPeriodo (librasTotales periodo_) librasReservadas
             librasDisponibles (p_fechaEnvio periodo_)
             (List.length reservasActivas) usuariosUnicos) ;;
      match mapOption (historicoDeReserva db periodo_) reservas_ with
      | None => throw Internal
      | Some historicos =>
          prisma_historicoReserva_createAll fallos historicos ;;;
          prisma_reserva_deleteMany fallos periodoId_ ;;;
          (if fallos EscDesactivar then throw Internal
           else prisma_periodo_update periodoId_
                  (fun p => mkPeriodo (p_id p) (librasTotales p)
                                      (p_fechaEnvio p) false)) ;;;
          ret historicoPeriodo
      end
  end.

(** ** Capacity ledger and properties stated by the specification *)

(** Committed weight of a period: the sum over its reservations whose
    status is not CANCELADA. *)
Definition librasReservadasDe (db : DB) (pid : nat) : Libras :=
  sumLibras (filter noCancelada (reservasDePeriodo db pid)).

Definition capacidadRestante (db : DB) (p : PeriodoLibras) : Libras :=
  100 * librasTotales p - librasReservadasDe db (p_id p).

(** The capacity invariant, as a decidable check over the period table. *)
Definition invarianteCapacidad (db : DB) : bool :=
  forallb (fun p => librasReservadasDe db (p_id p) <=? 100 * librasTotales p)
          (periodos db).

(** Remaining capacity of a candidate, from the reservations its query
    loaded. *)
Definition disponiblesDe (pc : PeriodoConReservas) : Libras :=
  100 * librasTotales (periodo pc) - sumLibras (pr_reservas pc).


Definition esFinal (s : StatusReserva) : bool :=
  match s with
  | ENTREGADA | CANCELADA => true
  | _ => false
  end.

(** The adjacency list of the specification:
    PENDING -> {CONFIRMED, CANCELLED}, CONFIRMED -> {SHIPPED, CANCELLED},
    SHIPPED -> {DELIVERED, CANCELLED}. *)
Definition adyacente (actual nuevo : StatusReserva) : bool :=
  match actual, nuevo with
  | PENDIENTE, CONFIRMADA | PENDIENTE, CANCELADA
  | CONFIRMADA, ENVIADA | CONFIRMADA, CANCELADA
  | ENVIADA, ENTREGADA | ENVIADA, CANCELADA => true
  | _, _ => false
  end.

(** The decision table in the words of the specification. *)
Definition decisionSegunTabla (rol : Role) (actual nuevo : StatusReserva)
  : bool :=
  if esFinal actual then false
  else if StatusReserva_eqb actual nuevo then false
  else match rol with
       | ADMIN_PRINCIPAL => adyacente actual nuevo
       | USUARIO =>
           match actual, nuevo with
           | CONFIRMADA, ENVIADA => true
           | _, _ => false
           end
       end.

(** The reservation after an accepted transition, in the words of the
    specification: the status, and the one date field of the destination
    state set to today's date. *)
Definition trasTransicion (r : Reserva) (nuevo : StatusReserva) (hoy : Fecha)
  : Reserva :=
  mkReserva (r_id r) (libras r) (fecha r) (estado r) (observaciones r)
    nuevo (userId r) (periodoId r)
    (match nuevo with CONFIRMADA => Some hoy | _ => fechaConfirmacion r end)
    (match nuevo with ENVIADA => Some hoy | _ => r_fechaEnvio r end)
    (match nuevo with ENTREGADA => Some hoy | _ => fechaEntrega r end).

(** A reservation carries no date of a state it has not reached yet. *)
Definition sellosCoherentes (r : Reserva) : Prop :=
  match status r with
  | PENDIENTE =>
      fechaConfirmacion r = None /\ r_fechaEnvio r = None
      /\ fechaEntrega r = None
  | CONFIRMADA => r_fechaEnvio r = None /\ fechaEntrega r = None
  | ENVIADA => fechaEntrega r = None
  | _ => True
  end.

(** A dated field that is set keeps its value. *)
Definition conservaSellos (r r' : Reserva) : Prop :=
  (forall d, fechaConfirmacion r = Some d -> fechaConfirmacion r' = Some d)
  /\ (forall d, r_fechaEnvio r = Some d -> r_fechaEnvio r' = Some d)
  /\ (forall d, fechaEntrega r = Some d -> fechaEntrega r' = Some d).

(** A status-change request and the run of a sequence of them. *)
Record PeticionStatus : Type := mkPeticionStatus {
  ps_hoy : Fecha;
  ps_user : AuthUser;
  ps_reservaId : nat;
  ps_status : StatusReserva
}.

Definition ejecutarPeticiones (ps : list PeticionStatus) (db : DB) : DB :=
  fold_left
    (fun db p =>
       snd (updateReservaStatus (ps_hoy p) (ps_user p) (ps_reservaId p)
                                (ps_status p) db))
    ps db.

(** The historical copy of a reservation [r] of a period sent on [fe]. *)
Definition esCopiaDe (fe : Fecha) (r : Reserva) (h : HistoricoReserva) : Prop :=
  reservaOriginalId h = r_id r /\ hr_userId h = userId r
  /\ hr_libras h = libras r /\ hr_fecha h = fecha r
  /\ hr_estado h = estado r /\ hr_observaciones h = observaciones r
  /\ hr_status h = status r /\ periodoFechaEnvio h = fe.

(** The rows the commit loop inserts for a plan, the first of them at
    position [index] of the plan and with identifier [nextId]. *)
Fixpoint filasCreadas (user : AuthUser) (estado_ : string)
  (observaciones_ : option string) (index nextId : nat) (plan : list PlanItem)
  : list Reserva :=
  match plan with
  | [] => []
  | item :: resto =>
      mkReserva nextId (pl_libras item) (pl_fecha item) estado_
        (if (index =? 0)%nat then orNull observaciones_
         else Some ("Reserva dividida - Parte " ++ string_of_nat (index + 1)
                    ++ ". " ++ orEmpty observaciones_))
        STATUS_DEFAULT (au_id user) (p_id (periodo (pl_periodo item)))
        None None None
      :: filasCreadas user estado_ observaciones_ (S index) (S nextId) resto
  end.

Definition sumPlan (plan : list PlanItem) : Libras :=
  fold_right (fun item acc => pl_libras item + acc) 0 plan.

(** A plan entry takes a positive weight, no more than its period has
    left, and is dated to the send date of its period. *)
Definition entradaValida (item : PlanItem) : Prop :=
  0 < pl_libras item
  /\ pl_libras item <= disponiblesDe (pl_periodo item)
  /\ pl_fecha item = p_fechaEnvio (periodo (pl_periodo item)).

(** The aggregate row [closePeriodo] computes for a period. *)
Definition historicoDePeriodo (db : DB) (p : PeriodoLibras) : HistoricoPeriodo :=
  let activas := filter noCancelada (reservasDePeriodo db (p_id p)) in
  mkHistoricoPeriodo (librasTotales p) (sumLibras activas)
    (100 * librasTotales p - sumLibras activas) (p_fechaEnvio p)
    (List.length activas) (List.length (nodup Nat.eq_dec (map userId activas))).

Definition desactivar (p : PeriodoLibras) : PeriodoLibras :=
  mkPeriodo (p_id p) (librasTotales p) (p_fechaEnvio p) false.

(** The store rejecting only the deletion of the live reservations. *)
Definition fallaDeleteMany : Fallos :=
  fun w => match w with
           | EscDeleteMany => true
           | _ => false
           end.

(** The capacity invariant as a proposition. *)
Definition capacidadRespetada (db : DB) : Prop :=
  forall p, In p (periodos db) ->
            librasReservadasDe db (p_id p) <= 100 * librasTotales p.

(** Weight a plan books in the period [pid]. *)
Fixpoint sumPlanDe (pid : nat) (plan : list PlanItem) : Libras :=
  match plan with
  | [] => 0
  | item :: resto =>
      (if (p_id (periodo (pl_periodo item)) =? pid)%nat
       then pl_libras item else 0)
      + sumPlanDe pid resto
  end.

(** What the candidates with identifier [pid] can still take. *)
Fixpoint capacidadDe (pid : nat) (candidatos : list PeriodoConReservas)
  : Libras :=
  match candidatos with
  | [] => 0
  | pc :: resto =>
      (if (p_id (periodo pc) =? pid)%nat
       then Z.max 0 (disponiblesDe pc) else 0)
      + capacidadDe pid resto
  end.

(** ** Further code of the cited files and of what they call *)

(** *** Numbers and strings of JavaScript (as used by the code below) *)

(** [StrWhiteSpaceChar], the ASCII part: tab, line feed, vertical tab, form
    feed, carriage return, space. *)
Definition isWhiteSpace (c : ascii) : bool :=
  match nat_of_ascii c with
  | 9%nat | 10%nat | 11%nat | 12%nat | 13%nat | 32%nat => true
  | _ => false
  end.

Fixpoint trimStart (s : string) : string :=
  match s with
  | EmptyString => EmptyString
  | String c s' => if isWhiteSpace c then trimStart s' else s
  end.

Definition digitValue (c : ascii) : option Z :=
  let n := Z.of_nat (nat_of_ascii c) in
  if (48 <=? n) && (n <=? 57) then Some (n - 48) else None.

(** The longest prefix of decimal digits, read left to right; [acc] is
    [None] until a digit has been read. *)
Fixpoint parseDigits (s : string) (acc : option Z) : option Z :=
  match s with
  | EmptyString => acc
  | String c s' =>
      match digitValue c with
      | Some d => parseDigits s' (Some (10 * orElse acc 0 + d))
      | None => acc
      end
  end.

(** [parseInt(s, 10)]; [None] is [NaN].  Values are exact integers. *)
Definition parseInt10 (s : string) : option Z :=
  match trimStart s with
  | String "-"%char r => option_map Z.opp (parseDigits r None)
  | String "+"%char r => parseDigits r None
  | t => parseDigits t None
  end.

(** [String(n)] of an integer number. *)
Definition stringOfNumber (z : Z) : string :=
  (if z <? 0 then "-" else "") ++ string_of_nat (Z.abs_nat z).

(** A query or body value as JavaScript sees it: absent, a number (after a
    [toInt] sanitizer) or a string. *)
Inductive JsParam : Type :=
| JsUndefined
| JsNumber (z : Z)
| JsString (s : string).

(** [parseInt(String(x || d), 10)]: an absent value, the number 0 and the
    empty string are falsy. *)
Definition parseIntOr (x : JsParam) (d : Z) : option Z :=
  match x with
  | JsUndefined | JsNumber 0 | JsString EmptyString =>
      parseInt10 (stringOfNumber d)
  | JsNumber z => parseInt10 (stringOfNumber z)
  | JsString s => parseInt10 s
  end.

(** [Math.max] and [Math.min] with a constant: [NaN] stays [NaN]. *)
Definition mathMax (a : Z) (b : option Z) : option Z := option_map (Z.max a) b.
Definition mathMin (a : Z) (b : option Z) : option Z := option_map (Z.min a) b.

(** *** utils/validators.ts: pagination *)

Record Pagination : Type := mkPagination {
  pg_page : option Z;
  pg_limit : option Z;
  pg_skip : option Z
}.

Definition normalizePagination (page limit : JsParam) : Pagination :=
  let normalizedPage := mathMax 1 (parseIntOr page 1) in
  let normalizedLimit := mathMin 100 (mathMax 1 (parseIntOr limit 20)) in
  let skip :=
    match normalizedPage, normalizedLimit with
    | Some p, Some l => Some ((p - 1) * l)
    | _, _ => None
    end in
  mkPagination normalizedPage normalizedLimit skip.

(** [Math.ceil(total / limit)] for a positive [limit] (a zero [limit]
    gives an infinity or [NaN] in the source, which is outside [Z]). *)
Definition calculateTotalPages (total limit : Z) : Z :=
  Qceiling (inject_Z total / inject_Z limit)%Q.

(** *** middlewares/errorHandler.ts *)

(** An [AppError] object: its status code and its message. *)
Record HttpError : Type := mkHttpError {
  statusCode : Z;
  he_message : string
}.

Definition createUnauthorizedError (message : string) : HttpError :=
  mkHttpError 401 message.
Definition createForbiddenError (message : string) : HttpError :=
  mkHttpError 403 message.
Definition createNotFoundError (resource : string) : HttpError :=
  mkHttpError 404 (resource ++ " no encontrado").
Definition createBadRequestError (message : string) : HttpError :=
  mkHttpError 400 message.

Definition UNAUTHORIZED : string := "No autorizado".
Definition INSUFFICIENT_PERMISSIONS : string := "Permisos insuficientes".
Definition INTERNAL_SERVER_ERROR : string := "Error interno del servidor".

(** What a controller throws, as the object the error handler receives:
    the argument of [NotFound] is the one given to [createNotFoundError];
    [Internal] is an error that is not an [AppError], with its own
    message. *)
Inductive Thrown : Type :=
| ThrownApp (e : HttpError)
| ThrownOther (message : string).

Definition thrownOf (otherMessage : string) (e : AppError) : Thrown :=
  match e with
  | BadRequest m => ThrownApp (createBadRequestError m)
  | NotFound r => ThrownApp (createNotFoundError r)
  | Forbidden m => ThrownApp (createForbiddenError m)
  | Internal => ThrownOther otherMessage
  end.

(** [errorHandler]: the status and the message of the response;
    [development] is [process.env.NODE_ENV === 'development']. *)
Definition errorHandler (development : bool) (err : Thrown) : Z * string :=
  match err with
  | ThrownApp e => (statusCode e, he_message e)
  | ThrownOther m =>
      (500, if development then m else INTERNAL_SERVER_ERROR)
  end.

(** *** middlewares/authorization.ts *)

(** A middleware either calls [next()] ([None]) or [next(error)]. *)
Definition requireAdmin (user : option AuthUser) : option HttpError :=
  match user with
  | None => Some (createUnauthorizedError UNAUTHORIZED)
  | Some u =>
      if negb (Role_eqb (au_role u) ADMIN_PRINCIPAL)
      then Some (createForbiddenError INSUFFICIENT_PERMISSIONS)
      else None
  end.

Definition requireRole (allowedRoles : list Role) (user : option AuthUser)
  : option HttpError :=
  match user with
  | None => Some (createUnauthorizedError UNAUTHORIZED)
  | Some u =>
      if negb (existsb (Role_eqb (au_role u)) allowedRoles)
      then Some (createForbiddenError INSUFFICIENT_PERMISSIONS)
      else None
  end.


Definition canEditReserva (user : option AuthUser) (reservaUserId : nat)
  : bool :=
  match user with
  | None => false
  | Some u =>
      if Role_eqb (au_role u) ADMIN_PRINCIPAL then true
      else (au_id u =? reservaUserId)%nat
  end.

Definition canDeleteReserva (user : option AuthUser) (reservaUserId : nat)
  : bool :=
  match user with
  | None => false
  | Some u =>
      if Role_eqb (au_role u) ADMIN_PRINCIPAL then true
      else (au_id u =? reservaUserId)%nat
  end.

(** *** controllers/reservaController.ts: the read operations *)

(** A reservation with the relations its query includes (the avatar of the
    user is not modelled). *)
Record ReservaIncluida : Type := mkReservaIncluida {
  ri_reserva : Reserva;
  ri_user : option User;
  ri_periodo : option PeriodoLibras
}.

Definition incluirRelaciones (db : DB) (r : Reserva) : ReservaIncluida :=
  mkReservaIncluida r (findUniqueUser db (userId r))
                    (findUniquePeriodo db (periodoId r)).

(** The [where] object of [listReservas].  A numeric field is absent
    ([None]), [NaN] ([Some None], which the store rejects) or a value. *)
Record ReservaWhere : Type := mkReservaWhere {
  w_userId : option (option Z);
  w_status : option StatusReserva;
  w_estado : option string;
  w_periodoId : option (option Z)
}.

Record ListReservasQuery : Type := mkListReservasQuery {
  q_page : JsParam;
  q_limit : JsParam;
  q_userId : JsParam;
  q_status : option StatusReserva;
  q_estado : option string;
  q_periodoId : JsParam
}.

(** [if (x) where.f = parseInt(x, 10)] *)
Definition parseIntIfTruthy (x : JsParam) : option (option Z) :=
  match x with
  | JsUndefined | JsNumber 0 | JsString EmptyString => None
  | JsNumber z => Some (parseInt10 (stringOfNumber z))
  | JsString s => Some (parseInt10 s)
  end.

Definition listReservasWhere (u : AuthUser) (q : ListReservasQuery)
  : ReservaWhere :=
  mkReservaWhere
    (if Role_eqb (au_role u) USUARIO then Some (Some (Z.of_nat (au_id u)))
     else parseIntIfTruthy (q_userId q))
    (q_status q)
    (truthyString (q_estado q))
    (parseIntIfTruthy (q_periodoId q)).

Definition whereValido (w : ReservaWhere) : bool :=
  match w_userId w, w_periodoId w with
  | Some None, _ | _, Some None => false
  | _, _ => true
  end.

Definition matchZ (f : option (option Z)) (n : nat) : bool :=
  match f with
  | Some (Some z) => Z.of_nat n =? z
  | _ => true
  end.

Definition matchesWhere (w : ReservaWhere) (r : Reserva) : bool :=
  matchZ (w_userId w) (userId r)
  && match w_status w with
     | Some s => StatusReserva_eqb (status r) s
     | None => true
     end
  && match w_estado w with
     | Some e => String.eqb (estado r) e
     | None => true
     end
  && matchZ (w_periodoId w) (periodoId r).

Record PaginationMeta : Type := mkPaginationMeta {
  pm_page : Z;
  pm_limit : Z;
  pm_total : Z;
  pm_totalPages : Z
}.

Record ListReservasResponse : Type := mkListReservasResponse {
  lr_data : list ReservaIncluida;
  lr_pagination : PaginationMeta
}.

(** [listReservas] (GET /api/reservas).  The creation time of a row is
    not part of the model: [createdAtDesc] is the order
    [orderBy: { createdAt: 'desc' }] gives to the matching rows. *)
Definition listReservas (createdAtDesc : list Reserva -> list Reserva)
  (user : option AuthUser) (q : ListReservasQuery) : M ListReservasResponse :=
  match user with
  | None => throw (BadRequest "Usuario no autenticado")
  | Some u =>
      let pagination := normalizePagination (q_page q) (q_limit q) in
      let where_ := listReservasWhere u q in
      db <- getDB ;;
      if negb (whereValido where_) then throw Internal
      else
        let coinciden := filter (matchesWhere where_) (reservas db) in
        let total := Z.of_nat (List.length coinciden) in
        match pg_page pagination, pg_limit pagination, pg_skip pagination with
        | Some page, Some limit, Some skip =>
            let filas :=
              firstn (Z.to_nat limit)
                     (skipn (Z.to_nat skip) (createdAtDesc coinciden)) in
            ret (mkListReservasResponse
                   (map (incluirRelaciones db) filas)
                   (mkPaginationMeta page limit total
                      (calculateTotalPages total limit)))
        | _, _, _ => throw Internal
        end
  end.

(** [getReservaById] (GET /api/reservas/:reservaId). *)
Definition getReservaById (user : option AuthUser) (reservaId : nat)
  : M ReservaIncluida :=
  match user with
  | None => throw (BadRequest "Usuario no autenticado")
  | Some u =>
      db <- getDB ;;
      match findUniqueReserva db reservaId with
      | None => throw (NotFound RESERVA_NOT_FOUND)
      | Some reserva =>
          if Role_eqb (au_role u) USUARIO
             && negb (userId reserva =? au_id u)%nat
          then throw (Forbidden INSUFFICIENT_PERMISSIONS)
          else ret (incluirRelaciones db reserva)
      end
  end.

(** *** controllers/periodoController.ts: the other operations *)

Record CreatePeriodoDTO : Type := mkCreatePeriodoDTO {
  cp_librasTotales : Z;
  cp_fechaEnvio : Fecha
}.

(** [prisma.periodoLibras.create]; [nuevoId] is the identifier the store
    assigns to the row. *)
Definition prisma_periodo_create (nuevoId : nat) (librasTotales_ : Z)
  (fechaEnvio_ : Fecha) : M PeriodoLibras :=
  fun db =>
    let p := mkPeriodo nuevoId librasTotales_ fechaEnvio_ true in
    (Ok p, set_periodos db (periodos db ++ [p])%list).

(** [createPeriodo] (POST /api/periodos); [hoy] is the day of the clock:
    local noon of a day is before today's midnight exactly when the day is
    before today. *)
Definition createPeriodo (hoy : Fecha) (nuevoId : nat) (body : CreatePeriodoDTO)
  : M PeriodoLibras :=
  let fechaEnvioDate := parseDateWithoutTimezone (cp_fechaEnvio body) in
  if fechaEnvioDate <? hoy then
    throw (BadRequest "La fecha de envío debe ser hoy o en el futuro")
  else
    prisma_periodo_create nuevoId (cp_librasTotales body)
      (parseDateWithoutTimezone (cp_fechaEnvio body)).



(** [getPeriodoById] (GET /api/periodos/:periodoId): the period and the
    count of its reservations. *)
Definition getPeriodoById (periodoId_ : nat) : M (PeriodoLibras * nat) :=
  db <- getDB ;;
  match findUniquePeriodo db periodoId_ with
  | None => throw (NotFound PERIODO_NOT_FOUND)
  | Some periodo_ =>
      ret (periodo_, List.length (reservasDePeriodo db (p_id periodo_)))
  end.

(** [getPeriodosDisponibles] (GET /api/periodos/available): the active
    periods, earliest send date first, each with all its reservations
    (the query selects their id, weight and status; the rows are kept
    whole here). *)
Definition getPeriodosDisponibles : M (list PeriodoConReservas) :=
  db <- getDB ;;
  ret (map (fun p => mkPeriodoConReservas p (reservasDePeriodo db (p_id p)))
           (orderByFechaEnvioAsc (filter isActive (periodos db)))).

(** *** routes/periodoRoutes.ts: the administrator gate in front of the
    period operations *)

Inductive RouteResult (A : Type) : Type :=
| Rejected (e : HttpError)
| Handled (r : Result A).
Arguments Rejected {A} e.
Arguments Handled {A} r.

(** [router.METHOD(path, requireAdmin, ..., asyncHandler(controller))]:
    the controller runs only when [requireAdmin] calls [next()].  The
    validation middleware between the two is taken to have passed. *)
Definition conRequireAdmin {A : Type} (user : option AuthUser)
  (controller : M A) : DB -> RouteResult A * DB :=
  fun db =>
    match requireAdmin user with
    | Some e => (Rejected e, db)
    | None => let '(r, db') := controller db in (Handled r, db')
    end.

(** *** controllers/dashboardController.ts: getDashboardStats *)

(** An entry of [usuariosMap]; [totalLibras] is kept as the number, in
    hundredths ([toFixed(2)] renders it exactly). *)
Record UserReservaSummary : Type := mkUserReservaSummary {
  us_userId : nat;
  us_userName : string;
  us_userEmail : string;
  us_totalLibras : Libras;
  us_totalReservas : nat
}.

(** A [Map] by user identifier, as the list of its values in insertion
    order.  [usuarioSumar] is [const usuario = map.get(userId);
    usuario.totalLibras += libras; usuario.totalReservas++]. *)
Fixpoint usuarioSumar (m : list UserReservaSummary) (uid : nat) (l : Libras)
  : list UserReservaSummary :=
  match m with
  | [] => []
  | e :: m' =>
      if (us_userId e =? uid)%nat then
        mkUserReservaSummary (us_userId e) (us_userName e) (us_userEmail e)
                             (us_totalLibras e + l) (S (us_totalReservas e))
        :: m'
      else e :: usuarioSumar m' uid l
  end.

(** The body of the [forEach] over the reservations; [user] is the
    included [reserva.user]. *)
Definition registrarReserva (m : list UserReservaSummary) (reserva : Reserva)
  (user : User) : list UserReservaSummary :=
  let m1 :=
    if negb (existsb (fun e => (us_userId e =? userId reserva)%nat) m)
    then (m ++ [mkUserReservaSummary (userId reserva) (u_name user)
                                     (u_email user) 0 0])%list
    else m in
  usuarioSumar m1 (userId reserva) (libras reserva).

(** The [forEach]; [None] when a reservation has no user, where reading
    [reserva.user.name] throws. *)
Fixpoint registrarReservas (db : DB) (m : list UserReservaSummary)
  (rs : list Reserva) : option (list UserReservaSummary) :=
  match rs with
  | [] => Some m
  | reserva :: resto =>
      match findUniqueUser db (userId reserva) with
      | None => None
      | Some user => registrarReservas db (registrarReserva m reserva user) resto
      end
  end.

(** [.sort((a, b) => parseFloat(b.totalLibras) - parseFloat(a.totalLibras))]:
    descending and stable. *)
Fixpoint insertarPorTotalDesc (e : UserReservaSummary)
  (l : list UserReservaSummary) : list UserReservaSummary :=
  match l with
  | [] => [e]
  | x :: l' =>
      if us_totalLibras x <=? us_totalLibras e then e :: x :: l'
      else x :: insertarPorTotalDesc e l'
  end.

Definition sortPorTotalDesc (l : list UserReservaSummary)
  : list UserReservaSummary :=
  fold_right insertarPorTotalDesc [] l.

(** [const statusItem = reservasPorStatus.find(s => s.status === status);
    if (statusItem) statusItem.count++] *)
Fixpoint contarStatus (l : list (StatusReserva * nat)) (s : StatusReserva)
  : list (StatusReserva * nat) :=
  match l with
  | [] => []
  | (s', c) :: l' =>
      if StatusReserva_eqb s' s then (s', S c) :: l'
      else (s', c) :: contarStatus l' s
  end.

Definition reservasPorStatusInicial : list (StatusReserva * nat) :=
  [(PENDIENTE, 0%nat); (CONFIRMADA, 0%nat); (ENVIADA, 0%nat);
   (ENTREGADA, 0%nat); (CANCELADA, 0%nat)].

(** The statistics of one period (the occupation percentage and the
    rendering of the weights as text are not modelled). *)
Record PeriodoStats : Type := mkPeriodoStats {
  st_periodo : PeriodoLibras;
  st_librasReservadas : Libras;
  st_librasDisponibles : Libras;
  st_librasEnCentral : Libras;
  st_librasEnTransito : Libras;
  st_librasPendientes : Libras;
  st_totalReservas : nat;
  st_totalUsuariosConReservas : nat;
  st_reservasPorStatus : list (StatusReserva * nat);
  st_usuariosConReservas : list UserReservaSummary
}.

(** The function mapped over [periodosActivos]. *)
Definition periodoConStats (db : DB) (pc : PeriodoConReservas)
  : option PeriodoStats :=
  let librasReservadas := sumLibras (pr_reservas pc) in
  let librasEnCentral :=
    sumLibras (filter (fun r => StatusReserva_eqb (status r) ENTREGADA)
                      (pr_reservas pc)) in
  let librasEnTransito :=
    sumLibras (filter (fun r => StatusReserva_eqb (status r) CONFIRMADA
                                || StatusReserva_eqb (status r) ENVIADA)
                      (pr_reservas pc)) in
  let librasPendientes :=
    sumLibras (filter (fun r => StatusReserva_eqb (status r) PENDIENTE)
                      (pr_reservas pc)) in
  let librasDisponibles := 100 * librasTotales (periodo pc) - librasReservadas in
  let reservasPorStatus :=
    fold_left (fun l r => contarStatus l (status r)) (pr_reservas pc)
              reservasPorStatusInicial in
  match registrarReservas db [] (pr_reservas pc) with
  | None => None
  | Some usuariosMap =>
      Some (mkPeriodoStats (periodo pc) librasReservadas librasDisponibles
              librasEnCentral librasEnTransito librasPendientes
              (List.length (pr_reservas pc)) (List.length usuariosMap)
              (filter (fun sc => (0 <? snd sc)%nat) reservasPorStatus)
              (sortPorTotalDesc usuariosMap))
  end.

Record DashboardStats : Type := mkDashboardStats {
  ds_periodos : list PeriodoStats;
  ds_totalLibrasReservadas : Libras;
  ds_totalLibrasDisponibles : Libras;
  ds_totalReservas : nat;
  ds_totalUsuariosConReservas : nat;
  ds_usuariosConReservas : list UserReservaSummary
}.

(** [getDashboardStats] (GET /api/dashboard/stats). *)
Definition getDashboardStats : M DashboardStats :=
  db <- getDB ;;
  let periodosActivos :=
    map (includeReservasNoCanceladas db)
        (orderByFechaEnvioAsc (filter isActive (periodos db))) in
  if (List.length periodosActivos =? 0)%nat then
    ret (mkDashboardStats [] 0 0 0 0 [])
  else
    match mapOption (periodoConStats db) periodosActivos with
    | None => throw Internal
    | Some periodosConStats =>
        let totalLibrasReservadas :=
          fold_left (fun sum p => sum + st_librasReservadas p)
                    periodosConStats 0 in
        let totalLibrasDisponibles :=
          fold_left (fun sum p => sum + st_librasDisponibles p)
                    periodosConStats 0 in
        let totalReservas :=
          fold_left (fun sum p => (sum + st_totalReservas p)%nat)
                    periodosConStats 0%nat in
        match registrarReservas db [] (flat_map pr_reservas periodosActivos)
        with
        | None => throw Internal
        | Some usuariosGlobalesMap =>
            ret (mkDashboardStats periodosConStats totalLibrasReservadas
                   totalLibrasDisponibles totalReservas
                   (List.length usuariosGlobalesMap)
                   (sortPorTotalDesc usuariosGlobalesMap))
        end
    end.

(** The weight and the number of reservations a list of summaries
    accounts for. *)
Definition sumTotalLibras (l : list UserReservaSummary) : Libras :=
  fold_right (fun u acc => us_totalLibras u + acc) 0 l.

Definition sumTotalReservas (l : list UserReservaSummary) : nat :=
  list_sum (map us_totalReservas l).

(** *** Progress of a reservation and sequences of requests *)

(** The position of a status on the way PENDIENTE, CONFIRMADA, ENVIADA,
    ENTREGADA, with CANCELADA after all of them. *)
Definition rango (s : StatusReserva) : nat :=
  match s with
  | PENDIENTE => 0
  | CONFIRMADA => 1
  | ENVIADA => 2
  | ENTREGADA => 3
  | CANCELADA => 4
  end.

(** A request that may write to the store: the reservation routes call
    their controller directly, the period routes behind [requireAdmin]. *)
Inductive Peticion : Type :=
| PCreateReserva (user : option AuthUser) (body : CreateReservaDTO)
| PUpdateReserva (user : option AuthUser) (reservaId : nat)
                 (body : UpdateReservaDTO)
| PUpdateReservaStatus (hoy : Fecha) (user : AuthUser) (reservaId : nat)
                       (status_ : StatusReserva)
| PDeleteReserva (user : option AuthUser) (reservaId : nat)
| PCreatePeriodo (user : option AuthUser) (hoy : Fecha) (nuevoId : nat)
                 (body : CreatePeriodoDTO)
| PUpdatePeriodo (user : option AuthUser) (periodoId_ : nat)
                 (body : UpdatePeriodoDTO)
| PClosePeriodo (user : option AuthUser) (fallos : Fallos) (periodoId_ : nat).

(** The store after a request, whether it succeeded or not. *)
Definition ejecutar (db : DB) (p : Peticion) : DB :=
  match p with
  | PCreateReserva user body => snd (createReserva user body db)
  | PUpdateReserva user rid body => snd (updateReserva user rid body db)
  | PUpdateReservaStatus hoy user rid s =>
      snd (updateReservaStatus hoy user rid s db)
  | PDeleteReserva user rid => snd (deleteReserva user rid db)
  | PCreatePeriodo user hoy nuevoId body =>
      snd (conRequireAdmin user (createPeriodo hoy nuevoId body) db)
  | PUpdatePeriodo user pid body =>
      snd (conRequireAdmin user (updatePeriodo pid body) db)
  | PClosePeriodo user fallos pid =>
      snd (conRequireAdmin user (closePeriodo fallos pid) db)
  end.

(** The requests considered, in the state they meet.  The validators of
    the routes give weights and totals that are positive and the store
    gives a new period an identifier no period has; that an edit of a
    reservation which changes its status also gives its weight is a
    restriction: an edit of the status alone can revive a cancelled
    reservation without any capacity check. *)
Definition admisible (db : DB) (p : Peticion) : Prop :=
  match p with
  | PUpdateReserva _ _ body =>
      match upd_libras body with
      | Some l => 0 <= parseDecimal l
      | None => upd_status body = None
      end
  | PCreatePeriodo _ _ nuevoId body =>
      ~ In nuevoId (map p_id (periodos db)) /\ 0 <= cp_librasTotales body
  | _ => True
  end.

(** A sequence of requests, each admissible in the state it meets. *)
Fixpoint admisibles (db : DB) (ps : list Peticion) : Prop :=
  match ps with
  | [] => True
  | p :: resto => admisible db p /\ admisibles (ejecutar db p) resto
  end.

(** Well-formedness the store keeps by its keys and its counter:
    identifiers are unique, the reservation counter is above every
    identifier in use, every reservation refers to a stored period, and
    weights are not negative. *)
Definition bienFormada (db : DB) : Prop :=
  NoDup (map r_id (reservas db))
  /\ NoDup (map p_id (periodos db))
  /\ (0 < nextReservaId db)%nat
  /\ Forall (fun r => 0 <= libras r
                      /\ (0 < r_id r < nextReservaId db)%nat
                      /\ In (periodoId r) (map p_id (periodos db)))
            (reservas db).

(** * Proofs *)

(** ** Rendering and rounding on sample values *)

Example parseDecimal_rounds_half_up : parseDecimal (12345 # 1000) = 1235.
Proof. reflexivity. Qed.

Example parseDecimal_sixty : parseDecimal (60 # 1) = 6000.
Proof. reflexivity. Qed.

Example toFixed2_thirty : toFixed2 3000 = "30.00".
Proof. reflexivity. Qed.

Example toFixed2_cents : toFixed2 5 = "0.05".
Proof. reflexivity. Qed.

Example numberToString_trims : numberToString 1250 = "12.5".
Proof. reflexivity. Qed.

(** ** The status machine *)

(** C4. For every role, current status and requested status the decision
    of [canChangeReservaStatus] is the one of the table: a terminal
    current status rejects, an unchanged status rejects, an administrator
    is accepted exactly on the adjacency list, a standard user exactly on
    CONFIRMADA -> ENVIADA. *)
Theorem C4_decision_equals_table :
  forall (rol : Role) (actual nuevo : StatusReserva),
    allowed (canChangeReservaStatus rol actual nuevo)
    = decisionSegunTabla rol actual nuevo.
Proof.
  intros rol actual nuevo.
  destruct rol, actual, nuevo; reflexivity.
Qed.

Lemma applyUpdateData_status :
  forall (r : Reserva) (s : StatusReserva) (hoy : Fecha),
    applyUpdateData (statusUpdateData s (parseDateWithoutTimezone hoy)) r
    = trasTransicion r s hoy.
Proof.
  intros r s hoy. destruct s; reflexivity.
Qed.

Lemma trasTransicion_id :
  forall r s hoy, r_id (trasTransicion r s hoy) = r_id r.
Proof. reflexivity. Qed.

(** Rows are found by identifier; rewriting the rows of one identifier
    with an identifier-preserving function commutes with the lookup. *)
Lemma find_map_update :
  forall (f : Reserva -> Reserva) (rid rid' : nat) (l : list Reserva),
    (forall x, r_id (f x) = r_id x) ->
    find (fun r => (r_id r =? rid')%nat)
         (map (fun x => if (r_id x =? rid)%nat then f x else x) l)
    = option_map (fun x => if (r_id x =? rid)%nat then f x else x)
                 (find (fun r => (r_id r =? rid')%nat) l).
Proof.
  intros f rid rid' l Hid.
  induction l as [|a l IH]; simpl; [reflexivity|].
  assert (Ha : r_id (if (r_id a =? rid)%nat then f a else a) = r_id a).
  { destruct (r_id a =? rid)%nat; [apply Hid | reflexivity]. }
  rewrite Ha.
  destruct (r_id a =? rid')%nat; [reflexivity | exact IH].
Qed.

Lemma find_some_id :
  forall (rid : nat) (l : list Reserva) (r : Reserva),
    find (fun x => (r_id x =? rid)%nat) l = Some r -> r_id r = rid.
Proof.
  intros rid l r H. apply find_some in H. destruct H as [_ H].
  now apply Nat.eqb_eq in H.
Qed.

(** What an accepted [updateReservaStatus] did. *)
Lemma updateReservaStatus_ok :
  forall hoy user rid s db r' db',
    updateReservaStatus hoy user rid s db = (Ok r', db') ->
    exists r,
      findUniqueReserva db rid = Some r
      /\ allowed (canChangeReservaStatus (au_role user) (status r) s) = true
      /\ r' = trasTransicion r s hoy
      /\ db' = set_reservas db
                 (map (fun x => if (r_id x =? rid)%nat
                                then trasTransicion x s hoy else x)
                      (reservas db)).
Proof.
  intros hoy user rid s db r' db' H.
  unfold updateReservaStatus, bind, getDB, throw in H.
  destruct (findUniqueReserva db rid) as [r|] eqn:Hf; [|discriminate].
  destruct (allowed (canChangeReservaStatus (au_role user) (status r) s))
    eqn:Hal; simpl in H; [|discriminate].
  unfold prisma_reserva_update in H. rewrite Hf in H.
  injection H as Hr Hdb. exists r. repeat split; try reflexivity.
  - exact Hal.
  - now rewrite <- Hr, applyUpdateData_status.
  - rewrite <- Hdb. f_equal. apply map_ext. intros x.
    now rewrite applyUpdateData_status.
Qed.

(** A rejected or failed [updateReservaStatus] writes nothing. *)
Lemma updateReservaStatus_err :
  forall hoy user rid s db e db',
    updateReservaStatus hoy user rid s db = (Err e, db') -> db' = db.
Proof.
  intros hoy user rid s db e db' H.
  unfold updateReservaStatus, bind, getDB, throw in H.
  destruct (findUniqueReserva db rid) as [r|] eqn:Hf.
  - destruct (negb (allowed (canChangeReservaStatus (au_role user) (status r) s))).
    + now inversion H.
    + unfold prisma_reserva_update in H. rewrite Hf in H. discriminate.
  - now inversion H.
Qed.

(** An accepted transition keeps the stamps coherent and overwrites none. *)
Lemma transicion_write_once :
  forall rol r s hoy,
    allowed (canChangeReservaStatus rol (status r) s) = true ->
    sellosCoherentes r ->
    sellosCoherentes (trasTransicion r s hoy)
    /\ conservaSellos r (trasTransicion r s hoy).
Proof.
  intros rol r s hoy Hal Hco.
  unfold sellosCoherentes, conservaSellos in *.
  destruct r as [i l f e o st u p fc fe fd]; simpl in *.
  destruct rol, st, s; simpl in *; try discriminate;
    repeat match goal with
           | H : _ /\ _ |- _ => destruct H
           end; subst; repeat split; auto; intros; congruence.
Qed.

Lemma conservaSellos_refl : forall r, conservaSellos r r.
Proof. intros r. repeat split; auto. Qed.

Lemma conservaSellos_trans :
  forall a b c, conservaSellos a b -> conservaSellos b c -> conservaSellos a c.
Proof.
  intros a b c (H1 & H2 & H3) (K1 & K2 & K3). repeat split; auto.
Qed.

(** One request, seen from one reservation: its row stays in place, with
    coherent stamps, and no stamped date changes. *)
Lemma peticion_conserva :
  forall hoy user rid0 s db rid r,
    findUniqueReserva db rid = Some r ->
    sellosCoherentes r ->
    exists r',
      findUniqueReserva (snd (updateReservaStatus hoy user rid0 s db)) rid
      = Some r'
      /\ sellosCoherentes r' /\ conservaSellos r r'.
Proof.
  intros hoy user rid0 s db rid r Hf Hco.
  destruct (updateReservaStatus hoy user rid0 s db) as [[r1|e] db1] eqn:Hrun.
  - apply updateReservaStatus_ok in Hrun.
    destruct Hrun as (r0 & Hf0 & Hal & _ & Hdb). simpl. subst db1.
    unfold findUniqueReserva in *. simpl.
    rewrite find_map_update by (intros; apply trasTransicion_id).
    rewrite Hf. simpl.
    destruct (r_id r =? rid0)%nat eqn:Hid.
    + apply Nat.eqb_eq in Hid.
      pose proof (find_some_id _ _ _ Hf) as Hrid.
      rewrite <- Hid, Hrid, Hf in Hf0. injection Hf0 as <-.
      exists (trasTransicion r s hoy). split; [reflexivity|].
      now apply transicion_write_once with (rol := au_role user).
    + exists r. split; [reflexivity|]. split; [exact Hco|].
      apply conservaSellos_refl.
  - apply updateReservaStatus_err in Hrun. simpl. subst db1.
    exists r. split; [exact Hf|]. split; [exact Hco|].
    apply conservaSellos_refl.
Qed.

(** Any sequence of status-change requests, accepted or not, on any
    reservations: a reservation with coherent stamps never loses one. *)
Lemma peticiones_conservan :
  forall ps db rid r,
    findUniqueReserva db rid = Some r ->
    sellosCoherentes r ->
    exists r',
      findUniqueReserva (ejecutarPeticiones ps db) rid = Some r'
      /\ sellosCoherentes r' /\ conservaSellos r r'.
Proof.
  induction ps as [|p ps IH]; intros db rid r Hf Hco.
  - exists r. split; [exact Hf|]. split; [exact Hco|].
    apply conservaSellos_refl.
  - simpl.
    destruct (peticion_conserva (ps_hoy p) (ps_user p) (ps_reservaId p)
                (ps_status p) db rid r Hf Hco) as (r1 & Hf1 & Hco1 & Hk1).
    destruct (IH _ rid r1 Hf1 Hco1) as (r2 & Hf2 & Hco2 & Hk2).
    exists r2. split; [exact Hf2|]. split; [exact Hco2|].
    now apply conservaSellos_trans with r1.
Qed.

(** The status endpoint alone.  An accepted status transition rewrites
    the row of the reservation to the same row with the new status and,
    for CONFIRMADA, ENVIADA and ENTREGADA, the one matching date field set
    to today's date (CANCELADA sets none); every other field, every other
    row and every other table is unchanged.  For a reservation whose
    stamps are coherent with its status, the transition overwrites no
    stamped date, and neither does any later sequence of status-change
    requests. *)
Lemma updateReservaStatus_stamp_frame_write_once :
  forall hoy user rid s db r' db',
    updateReservaStatus hoy user rid s db = (Ok r', db') ->
    exists r,
      findUniqueReserva db rid = Some r
      /\ r' = trasTransicion r s hoy
      /\ findUniqueReserva db' rid = Some r'
      /\ reservas db'
         = map (fun x => if (r_id x =? rid)%nat
                         then trasTransicion x s hoy else x) (reservas db)
      /\ users db' = users db /\ periodos db' = periodos db
      /\ historicoPeriodos db' = historicoPeriodos db
      /\ historicoReservas db' = historicoReservas db
      /\ nextReservaId db' = nextReservaId db
      /\ (sellosCoherentes r ->
          conservaSellos r r'
          /\ forall ps, exists r'',
               findUniqueReserva (ejecutarPeticiones ps db') rid = Some r''
               /\ conservaSellos r' r'').
Proof.
  intros hoy user rid s db r' db' Hrun.
  apply updateReservaStatus_ok in Hrun.
  destruct Hrun as (r & Hf & Hal & Hr & Hdb).
  assert (Hf' : findUniqueReserva db' rid = Some r').
  { subst db'. unfold findUniqueReserva in *. simpl.
    rewrite find_map_update by (intros; apply trasTransicion_id).
    rewrite Hf. simpl.
    assert (Hid : r_id r = rid) by (now apply find_some_id in Hf).
    rewrite Hid, Nat.eqb_refl. now subst r'. }
  exists r. split; [exact Hf|]. split; [exact Hr|]. split; [exact Hf'|].
  subst db'. simpl. repeat (split; [reflexivity|]).
  intros Hco.
  destruct (transicion_write_once (au_role user) r s hoy Hal Hco) as [Hco' Hk].
  subst r'. split; [exact Hk|].
  intros ps.
  destruct (peticiones_conservan ps _ rid _ Hf' Hco') as (r2 & Hf2 & _ & Hk2).
  exists r2. now split.
Qed.

(** Confirming a fresh reservation on day 5, then a request to ship it on
    day 9: the confirmation date is still day 5 afterwards. *)
Lemma confirm_then_ship_keeps_confirmation :
  let r0 := mkReserva 1 2500 10 "CDMX" None PENDIENTE 7 1 None None None in
  let db0 := mkDB [] [mkPeriodo 1 100 10 true] [r0] [] [] 2 in
  let admin := mkAuthUser 1 ADMIN_PRINCIPAL in
  let r1 := trasTransicion r0 CONFIRMADA 5 in
  let db1 := set_reservas db0 [r1] in
  let enviar := mkPeticionStatus 9 (mkAuthUser 7 USUARIO) 1 ENVIADA in
  updateReservaStatus 5 admin 1 CONFIRMADA db0 = (Ok r1, db1)
  /\ sellosCoherentes r0
  /\ fechaConfirmacion r1 = Some 5
  /\ exists r2,
       findUniqueReserva (ejecutarPeticiones [enviar] db1) 1 = Some r2
       /\ status r2 = ENVIADA
       /\ fechaConfirmacion r2 = Some 5.
Proof.
  intros r0 db0 admin r1 db1 enviar.
  assert (Hrun : updateReservaStatus 5 admin 1 CONFIRMADA db0 = (Ok r1, db1))
    by reflexivity.
  assert (Hco : sellosCoherentes r0) by (vm_compute; auto).
  destruct (updateReservaStatus_stamp_frame_write_once 5 admin 1 CONFIRMADA db0
              r1 db1 Hrun)
    as (r & Hf & Hr & _ & _ & _ & _ & _ & _ & _ & Hwo).
  assert (Hr0 : r = r0) by (vm_compute in Hf; injection Hf as <-; reflexivity).
  subst r.
  destruct (Hwo Hco) as [_ Hps].
  destruct (Hps [enviar]) as (r2 & Hf2 & Hk2 & _).
  split; [exact Hrun|]. split; [exact Hco|]. split; [reflexivity|].
  exists r2. split; [exact Hf2|]. split.
  - vm_compute in Hf2. injection Hf2 as <-. reflexivity.
  - apply Hk2. reflexivity.
Defined.

(** ** The allocation planner *)

Lemma sumLibras_acc :
  forall (l : list Reserva) (acc : Libras),
    fold_left (fun sum reserva => sum + libras reserva) l acc
    = acc + sumLibras l.
Proof.
  unfold sumLibras.
  induction l as [|a l IH]; intros acc; simpl.
  - lia.
  - rewrite IH, (IH (libras a)). lia.
Qed.

Lemma sumLibras_cons :
  forall (a : Reserva) (l : list Reserva),
    sumLibras (a :: l) = libras a + sumLibras l.
Proof.
  intros a l. unfold sumLibras at 1. simpl. now rewrite sumLibras_acc.
Qed.

Lemma sumLibras_app :
  forall l1 l2 : list Reserva,
    sumLibras (l1 ++ l2) = sumLibras l1 + sumLibras l2.
Proof.
  induction l1 as [|a l1 IH]; intros l2; simpl.
  - reflexivity.
  - rewrite !sumLibras_cons, IH. lia.
Qed.


(** One iteration of the planning loop. *)
Lemma planificar_cons :
  forall f pc ps w plan,
    planificar f (pc :: ps) w plan
    = if w <=? 0 then (w, plan)
      else if 0 <? disponiblesDe pc then
        if 1 <=? Z.min w (disponiblesDe pc) then
          planificar f ps (w - Z.min w (disponiblesDe pc))
            (plan ++ [mkPlanItem pc (Z.min w (disponiblesDe pc))
                        (if (List.length plan =? 0)%nat
                            && (f =? p_fechaEnvio (periodo pc))
                         then f else p_fechaEnvio (periodo pc))])
        else planificar f ps w plan
      else planificar f ps w plan.
Proof. reflexivity. Qed.

(** The three ways through it. *)
Lemma planificar_break :
  forall f ps w plan, w <= 0 -> planificar f ps w plan = (w, plan).
Proof.
  intros f ps w plan Hw. destruct ps as [|pc ps]; [reflexivity|].
  rewrite planificar_cons.
  destruct (Z.leb_spec w 0); [reflexivity | lia].
Qed.

Lemma planificar_skip :
  forall f pc ps w plan,
    0 < w -> disponiblesDe pc <= 0 ->
    planificar f (pc :: ps) w plan = planificar f ps w plan.
Proof.
  intros f pc ps w plan Hw Hd. rewrite planificar_cons.
  destruct (Z.leb_spec w 0); [lia|].
  destruct (Z.ltb_spec 0 (disponiblesDe pc)); [lia | reflexivity].
Qed.

Lemma planificar_take :
  forall f pc ps w plan,
    0 < w -> 0 < disponiblesDe pc ->
    planificar f (pc :: ps) w plan
    = planificar f ps (w - Z.min w (disponiblesDe pc))
        (plan ++ [mkPlanItem pc (Z.min w (disponiblesDe pc))
                    (if (List.length plan =? 0)%nat
                        && (f =? p_fechaEnvio (periodo pc))
                     then f else p_fechaEnvio (periodo pc))]).
Proof.
  intros f pc ps w plan Hw Hd. rewrite planificar_cons.
  destruct (Z.leb_spec w 0); [lia|].
  destruct (Z.ltb_spec 0 (disponiblesDe pc)); [|lia].
  destruct (Z.leb_spec 1 (Z.min w (disponiblesDe pc))); [reflexivity | lia].
Qed.


(** The plan grows by valid entries whose weights add up to what was
    assigned; each entry belongs to a candidate. *)
Lemma planificar_plan :
  forall f ps w plan,
    exists extra,
      snd (planificar f ps w plan) = (plan ++ extra)%list
      /\ sumPlan extra = w - fst (planificar f ps w plan)
      /\ Forall entradaValida extra
      /\ Forall (fun item => In (pl_periodo item) ps) extra.
Proof.
  intros f ps. induction ps as [|pc ps IH]; intros w plan.
  - exists []. simpl. rewrite app_nil_r. repeat split; auto; lia.
  - destruct (Z_le_gt_dec w 0) as [Hle|Hgt].
    + rewrite planificar_break by lia. exists []. simpl.
      rewrite app_nil_r. repeat split; auto; lia.
    + destruct (Z_lt_le_dec 0 (disponiblesDe pc)) as [Hd|Hd].
      * rewrite planificar_take by lia.
        set (item := mkPlanItem pc (Z.min w (disponiblesDe pc))
                       (if (List.length plan =? 0)%nat
                           && (f =? p_fechaEnvio (periodo pc))
                        then f else p_fechaEnvio (periodo pc))).
        destruct (IH (w - Z.min w (disponiblesDe pc)) (plan ++ [item])%list)
          as (extra & He & Hs & Hv & Hin).
        exists (item :: extra). rewrite He, <- app_assoc.
        split; [reflexivity|]. split; [simpl; rewrite Hs; lia|]. split.
        -- constructor; [|exact Hv]. unfold entradaValida. simpl.
           split; [lia|]. split; [lia|].
           destruct (List.length plan =? 0)%nat; simpl; [|reflexivity].
           destruct (Z.eqb_spec f (p_fechaEnvio (periodo pc))); congruence.
        -- constructor; [now left|].
           eapply Forall_impl; [|exact Hin]. intros a Ha. now right.
      * rewrite planificar_skip by lia.
        destruct (IH w plan) as (extra & He & Hs & Hv & Hin).
        exists extra. repeat split; auto.
        eapply Forall_impl; [|exact Hin]. intros a Ha. now right.
Qed.

(** ** createReserva *)

(** The commit loop inserts exactly the rows of the plan, in order. *)
Lemma crearReservas_run :
  forall u e o plan index db,
    crearReservas u e o index plan db
    = (Ok (filasCreadas u e o index (nextReservaId db) plan),
       mkDB (users db) (periodos db)
            (reservas db ++ filasCreadas u e o index (nextReservaId db) plan)
            (historicoPeriodos db) (historicoReservas db)
            (nextReservaId db + List.length plan)).
Proof.
  intros u e o plan. induction plan as [|item plan IH]; intros index db.
  - destruct db. simpl. unfold ret. now rewrite app_nil_r, Nat.add_0_r.
  - cbn [crearReservas]. unfold bind, prisma_reserva_create.
    cbv beta iota zeta. rewrite IH. unfold ret. cbn [nextReservaId reservas
      users periodos historicoPeriodos historicoReservas filasCreadas
      List.length].
    rewrite <- app_assoc. simpl app. do 2 f_equal. lia.
Qed.

(** Looking up the candidates reads the tables only. *)
Lemma buscarPeriodosActivos_snd :
  forall pid f db, snd (buscarPeriodosActivos pid f db) = db.
Proof.
  intros pid f db. unfold buscarPeriodosActivos, bind, getDB, ret, throw.
  destruct pid as [[|n]|]; try reflexivity.
  destruct (find _ _); reflexivity.
Qed.

(** [createReserva] once the candidates are known. *)
Lemma createReserva_run :
  forall u body db candidatos,
    fst (buscarPeriodosActivos (dto_periodoId body) (dto_fecha body) db)
    = Ok candidatos ->
    createReserva (Some u) body db
    = match candidatos with
      | [] =>
          (Err (BadRequest
             "No hay periodos activos disponibles para esta fecha o fechas futuras"),
           db)
      | _ :: _ =>
          let W := parseDecimal (dto_libras body) in
          let res := planificar (dto_fecha body) candidatos W [] in
          if 0 <? fst res then
            (Err (BadRequest (mensajeInsuficientes (W - fst res) (fst res))), db)
          else
            let filas :=
              filasCreadas u (dto_estado body) (dto_observaciones body) 0
                           (nextReservaId db) (snd res) in
            (Ok (responseData filas),
             mkDB (users db) (periodos db) (reservas db ++ filas)
                  (historicoPeriodos db) (historicoReservas db)
                  (nextReservaId db + List.length (snd res)))
      end.
Proof.
  intros u body db candidatos Hb.
  pose proof (buscarPeriodosActivos_snd (dto_periodoId body) (dto_fecha body) db)
    as Hs.
  unfold createReserva, parseDateWithoutTimezone. unfold bind at 1.
  destruct (buscarPeriodosActivos (dto_periodoId body) (dto_fecha body) db)
    as [res0 db0]. simpl in Hb, Hs. subst res0 db0.
  destruct candidatos as [|pc cs]; [reflexivity|].
  change (List.length (pc :: cs) =? 0)%nat with false.
  cbv beta iota zeta.
  destruct (planificar (dto_fecha body) (pc :: cs)
              (parseDecimal (dto_libras body)) []) as [w' plan].
  cbn [fst snd].
  destruct (0 <? w'); [reflexivity|].
  unfold bind. rewrite crearReservas_run. reflexivity.
Qed.




Lemma filter_andb :
  forall (A : Type) (f g : A -> bool) (l : list A),
    filter (fun x => f x && g x) l = filter g (filter f l).
Proof.
  intros A f g l. induction l as [|a l IH]; simpl; [reflexivity|].
  destruct (f a); simpl; [|exact IH].
  destruct (g a); [now rewrite IH | exact IH].
Qed.

Lemma disponiblesDe_include :
  forall db p,
    disponiblesDe (includeReservasNoCanceladas db p) = capacidadRestante db p.
Proof. reflexivity. Qed.

(** The candidates of a dated request when exactly two periods are
    active, the earlier one sent on the requested day. *)
Lemma candidatos_dos_periodos :
  forall db p1 p2,
    (filter isActive (periodos db) = [p1; p2]
     \/ filter isActive (periodos db) = [p2; p1]) ->
    p_fechaEnvio p1 < p_fechaEnvio p2 ->
    fst (buscarPeriodosActivos None (p_fechaEnvio p1) db)
    = Ok [includeReservasNoCanceladas db p1;
          includeReservasNoCanceladas db p2].
Proof.
  intros db p1 p2 Hact Hlt.
  unfold buscarPeriodosActivos, bind, getDB, ret. cbn [fst].
  rewrite (filter_andb _ isActive
             (fun p => p_fechaEnvio p1 <=? p_fechaEnvio p)).
  destruct Hact as [-> | ->]; cbn [filter];
    destruct (Z.leb_spec (p_fechaEnvio p1) (p_fechaEnvio p1)); try lia;
    destruct (Z.leb_spec (p_fechaEnvio p1) (p_fechaEnvio p2)); try lia;
    cbn [orderByFechaEnvioAsc fold_right insertarPorFechaEnvio].
  - destruct (Z.leb_spec (p_fechaEnvio p1) (p_fechaEnvio p2)); [|lia].
    reflexivity.
  - destruct (Z.leb_spec (p_fechaEnvio p2) (p_fechaEnvio p1)); [lia|].
    reflexivity.
Qed.

(** C7. Exactly two active periods, [p1] sent on [d1] with 30 pounds left
    and [p2] sent on a later [d2] with 50 pounds left: a request for 60
    pounds dated [d1] creates exactly two rows, 30 pounds in [p1] dated
    [d1] and 30 pounds in [p2] dated [d2], in that order. *)
Theorem C7_split_sixty_over_thirty_and_fifty :
  forall db u p1 p2 d1 d2 est obs,
    (filter isActive (periodos db) = [p1; p2]
     \/ filter isActive (periodos db) = [p2; p1]) ->
    p_fechaEnvio p1 = d1 -> p_fechaEnvio p2 = d2 -> d1 < d2 ->
    capacidadRestante db p1 = 3000 ->
    capacidadRestante db p2 = 5000 ->
    let n := nextReservaId db in
    let r1 := mkReserva n 3000 d1 est (orNull obs) PENDIENTE (au_id u)
                        (p_id p1) None None None in
    let r2 := mkReserva (S n) 3000 d2 est
                (Some ("Reserva dividida - Parte 2. " ++ orEmpty obs))
                PENDIENTE (au_id u) (p_id p2) None None None in
    createReserva (Some u) (mkCreateReservaDTO (60 # 1) d1 est obs None) db
    = (Ok (VariasReservas [r1; r2]),
       mkDB (users db) (periodos db) (reservas db ++ [r1; r2])
            (historicoPeriodos db) (historicoReservas db) (n + 2)).
Proof.
  intros db u p1 p2 d1 d2 est obs Hact Hd1 Hd2 Hlt Hc1 Hc2 n r1 r2.
  assert (Hcand :
            fst (buscarPeriodosActivos None d1 db)
            = Ok [includeReservasNoCanceladas db p1;
                  includeReservasNoCanceladas db p2]).
  { rewrite <- Hd1. apply candidatos_dos_periodos; [exact Hact | lia]. }
  rewrite (createReserva_run u (mkCreateReservaDTO (60 # 1) d1 est obs None)
             db _ Hcand).
  cbv zeta. cbn [dto_libras dto_fecha dto_estado dto_observaciones].
  change (parseDecimal (60 # 1)) with 6000.
  rewrite planificar_take
    by (rewrite ?disponiblesDe_include, ?Hc1; lia).
  rewrite disponiblesDe_include, Hc1.
  change (Z.min 6000 3000) with 3000. change (6000 - 3000) with 3000.
  rewrite planificar_take
    by (rewrite ?disponiblesDe_include, ?Hc2; lia).
  rewrite disponiblesDe_include, Hc2.
  change (Z.min 3000 5000) with 3000. change (3000 - 3000) with 0.
  cbn [planificar fst snd Z.ltb Z.compare app List.length Nat.eqb andb
       includeReservasNoCanceladas periodo].
  rewrite Hd1, Hd2, Z.eqb_refl.
  cbn [filasCreadas pl_libras pl_fecha pl_periodo periodo responseData
       List.length Nat.eqb].
  reflexivity.
Qed.

(** C7 at concrete periods: capacities 100 and 50 pounds, 70 pounds
    already confirmed in the first. *)
Lemma C7_witness_split :
  let p1 := mkPeriodo 1 100 10 true in
  let p2 := mkPeriodo 2 50 20 true in
  let r := mkReserva 1 7000 10 "CDMX" None CONFIRMADA 7 1 None None None in
  let db := mkDB [] [p2; mkPeriodo 3 500 5 false; p1] [r] [] [] 2 in
  let u := mkAuthUser 8 USUARIO in
  let r1 := mkReserva 2 3000 10 "Puebla" None PENDIENTE 8 1 None None None in
  let r2 := mkReserva 3 3000 20 "Puebla" (Some "Reserva dividida - Parte 2. ")
                      PENDIENTE 8 2 None None None in
  createReserva (Some u) (mkCreateReservaDTO (60 # 1) 10 "Puebla" None None) db
  = (Ok (VariasReservas [r1; r2]),
     mkDB [] (periodos db) [r; r1; r2] [] [] 4).
Proof.
  intros p1 p2 r db u r1 r2.
  apply (C7_split_sixty_over_thirty_and_fifty db u p1 p2 10 20 "Puebla" None).
  - right. reflexivity.
  - reflexivity.
  - reflexivity.
  - lia.
  - reflexivity.
  - reflexivity.
Defined.

Lemma In_insertarPorFechaEnvio :
  forall p q l, In q (insertarPorFechaEnvio p l) -> q = p \/ In q l.
Proof.
  intros p q l. induction l as [|a l IH]; simpl.
  - intros [H|[]]; auto.
  - destruct (p_fechaEnvio p <=? p_fechaEnvio a); simpl.
    + intros [H|[H|H]]; auto.
    + intros [H|H]; auto. destruct (IH H); auto.
Qed.

Lemma In_orderByFechaEnvioAsc :
  forall q l, In q (orderByFechaEnvioAsc l) -> In q l.
Proof.
  intros q l. induction l as [|a l IH]; simpl; [auto|].
  intros H. apply In_insertarPorFechaEnvio in H.
  destruct H as [H|H]; [left; congruence | right; auto].
Qed.

(** Every candidate is an active period of the table, loaded with its
    reservations that are not cancelled. *)
Lemma buscarPeriodosActivos_candidatos :
  forall pid f db candidatos,
    fst (buscarPeriodosActivos pid f db) = Ok candidatos ->
    Forall (fun pc =>
              In (periodo pc) (periodos db)
              /\ isActive (periodo pc) = true
              /\ pc = includeReservasNoCanceladas db (periodo pc))
           candidatos.
Proof.
  intros pid f db candidatos H.
  assert (Hmany :
    forall cs,
      cs = map (includeReservasNoCanceladas db)
             (orderByFechaEnvioAsc
                (filter (fun p => isActive p && (f <=? p_fechaEnvio p))
                        (periodos db))) ->
      Forall (fun pc =>
                In (periodo pc) (periodos db)
                /\ isActive (periodo pc) = true
                /\ pc = includeReservasNoCanceladas db (periodo pc)) cs).
  { intros cs ->. apply Forall_forall. intros pc Hin.
    apply in_map_iff in Hin. destruct Hin as (p & <- & Hp).
    apply In_orderByFechaEnvioAsc, filter_In in Hp.
    destruct Hp as [Hp Hact]. apply andb_prop in Hact.
    simpl. repeat split; tauto. }
  unfold buscarPeriodosActivos, bind, getDB, ret, throw in H.
  destruct pid as [[|n]|]; cbn [fst] in H.
  - injection H as <-. now apply Hmany.
  - destruct (find (fun p => (p_id p =? S n)%nat && isActive p) (periodos db))
      as [p|] eqn:Hf; cbn [fst] in H; [|discriminate].
    injection H as <-. apply find_some in Hf. destruct Hf as [Hp Hact].
    apply andb_prop in Hact. constructor; [|constructor].
    simpl. repeat split; tauto.
  - injection H as <-. now apply Hmany.
Qed.

(** Each inserted row carries the weight, date and period of one plan
    entry. *)
Lemma filasCreadas_entradas :
  forall u e o plan index n,
    Forall2 (fun r item =>
               libras r = pl_libras item /\ fecha r = pl_fecha item
               /\ periodoId r = p_id (periodo (pl_periodo item))
               /\ status r = PENDIENTE /\ userId r = au_id u)
            (filasCreadas u e o index n plan) plan.
Proof.
  intros u e o plan. induction plan as [|item plan IH]; intros index n; simpl.
  - constructor.
  - constructor; [repeat split | apply IH].
Qed.

(** A successful [createReserva] had candidates. *)
Lemma createReserva_ok_candidatos :
  forall u body db data db',
    createReserva (Some u) body db = (Ok data, db') ->
    exists candidatos,
      fst (buscarPeriodosActivos (dto_periodoId body) (dto_fecha body) db)
      = Ok candidatos.
Proof.
  intros u body db data db' H.
  unfold createReserva, parseDateWithoutTimezone in H. unfold bind at 1 in H.
  destruct (buscarPeriodosActivos (dto_periodoId body) (dto_fecha body) db)
    as [[cs|e] db0]; [|discriminate].
  now exists cs.
Qed.

(** What a successful [createReserva] did. *)
Lemma createReserva_ok :
  forall u body db data db',
    createReserva (Some u) body db = (Ok data, db') ->
    exists candidatos plan restantes,
      fst (buscarPeriodosActivos (dto_periodoId body) (dto_fecha body) db)
      = Ok candidatos
      /\ planificar (dto_fecha body) candidatos
                    (parseDecimal (dto_libras body)) [] = (restantes, plan)
      /\ restantes <= 0
      /\ data = responseData
                  (filasCreadas u (dto_estado body) (dto_observaciones body) 0
                                (nextReservaId db) plan)
      /\ db' = mkDB (users db) (periodos db)
                    (reservas db
                     ++ filasCreadas u (dto_estado body)
                          (dto_observaciones body) 0 (nextReservaId db) plan)
                    (historicoPeriodos db) (historicoReservas db)
                    (nextReservaId db + List.length plan).
Proof.
  intros u body db data db' H.
  destruct (createReserva_ok_candidatos _ _ _ _ _ H) as [cs Hcs].
  rewrite (createReserva_run u body db cs Hcs) in H.
  destruct cs as [|pc cs]; [discriminate|].
  cbv zeta in H.
  destruct (planificar (dto_fecha body) (pc :: cs)
              (parseDecimal (dto_libras body)) []) as [w' plan] eqn:Hp.
  cbn [fst snd] in H.
  destruct (Z.ltb_spec 0 w'); [discriminate|].
  injection H as <- <-.
  exists (pc :: cs), plan, w'. repeat split; auto.
Qed.

Lemma Forall2_Forall_left :
  forall (A B : Type) (R : A -> B -> Prop) (Q : B -> Prop) (P : A -> Prop)
         (la : list A) (lb : list B),
    (forall a b, R a b -> Q b -> P a) ->
    Forall2 R la lb -> Forall Q lb -> Forall P la.
Proof.
  intros A B R Q P la lb Himp H2. induction H2 as [|a b la lb Hab H2 IH].
  - constructor.
  - intros HQ. inversion HQ; subst. constructor; eauto.
Qed.

(** C9 (amended). Every row a request creates, the first one included, is
    dated to the send date of the active period it is booked in; a row
    therefore keeps the requested date exactly when that date is the send
    date of its own period. *)
Theorem C9_chunks_dated_to_send_date :
  forall u body db data db',
    createReserva (Some u) body db = (Ok data, db') ->
    exists filas,
      reservas db' = (reservas db ++ filas)%list
      /\ data = responseData filas
      /\ Forall (fun r =>
                   exists p,
                     In p (periodos db) /\ isActive p = true
                     /\ periodoId r = p_id p
                     /\ fecha r = p_fechaEnvio p
                     /\ (fecha r = dto_fecha body
                         <-> p_fechaEnvio p = dto_fecha body))
                filas.
Proof.
  intros u body db data db' H.
  apply createReserva_ok in H.
  destruct H as (cs & plan & w' & Hcs & Hp & _ & -> & ->).
  eexists. split; [reflexivity|]. split; [reflexivity|].
  destruct (planificar_plan (dto_fecha body) cs
              (parseDecimal (dto_libras body)) [])
    as (extra & He & _ & Hv & Hin).
  rewrite Hp in He. cbn [snd app] in He. subst extra.
  pose proof (buscarPeriodosActivos_candidatos _ _ _ _ Hcs) as Hcand.
  rewrite Forall_forall in Hcand.
  assert (Hplan : Forall (fun item => entradaValida item
                                      /\ In (pl_periodo item) cs) plan).
  { apply Forall_forall. intros item Hi. rewrite Forall_forall in Hv, Hin.
    split; auto. }
  eapply Forall2_Forall_left;
    [| apply filasCreadas_entradas | exact Hplan].
  intros r item (_ & Hf & Hpid & _) ((_ & _ & Hfe) & Hi).
  destruct (Hcand _ Hi) as (Hp1 & Hp2 & _).
  exists (periodo (pl_periodo item)).
  repeat split; auto; congruence.
Qed.

(** C9 at two active periods: every row is dated to its period. *)
Lemma C9_witness_two_rows :
  let p1 := mkPeriodo 1 100 10 true in
  let p2 := mkPeriodo 2 50 20 true in
  let r := mkReserva 1 7000 10 "CDMX" None CONFIRMADA 7 1 None None None in
  let db := mkDB [] [p1; p2] [r] [] [] 2 in
  let body := mkCreateReservaDTO (60 # 1) 10 "Puebla" None None in
  exists filas,
    List.length filas = 2%nat
    /\ Forall (fun r =>
                 exists p,
                   In p (periodos db) /\ isActive p = true
                   /\ periodoId r = p_id p /\ fecha r = p_fechaEnvio p
                   /\ (fecha r = dto_fecha body
                       <-> p_fechaEnvio p = dto_fecha body))
              filas.
Proof.
  intros p1 p2 r db body.
  pose (r1 := mkReserva 2 3000 10 "Puebla" None PENDIENTE 8 1 None None None).
  pose (r2 := mkReserva 3 3000 20 "Puebla"
                (Some "Reserva dividida - Parte 2. ")
                PENDIENTE 8 2 None None None).
  destruct (C9_chunks_dated_to_send_date (mkAuthUser 8 USUARIO) body db
              (VariasReservas [r1; r2])
              (mkDB [] [p1; p2] [r; r1; r2] [] [] 4))
    as (filas & Hr & _ & Hall).
  - vm_compute. reflexivity.
  - exists filas. split; [|exact Hall].
    apply (f_equal (@List.length Reserva)) in Hr.
    rewrite length_app in Hr. simpl in Hr. lia.
Defined.

(** The claim as first stated fails when the first candidate is full: the
    requested day is the send date of the first candidate, yet the first
    of the two rows goes to the second candidate and takes its date. *)
Lemma C9_counterexample_first_candidate_full :
  let p1 := mkPeriodo 1 1 10 true in
  let p2 := mkPeriodo 2 30 20 true in
  let p3 := mkPeriodo 3 50 30 true in
  let r := mkReserva 1 100 10 "CDMX" None PENDIENTE 7 1 None None None in
  let db := mkDB [] [p1; p2; p3] [r] [] [] 2 in
  let body := mkCreateReservaDTO (60 # 1) 10 "Puebla" None None in
  exists pc resto primera segunda db',
    fst (buscarPeriodosActivos (dto_periodoId body) (dto_fecha body) db)
    = Ok (pc :: resto)
    /\ p_fechaEnvio (periodo pc) = dto_fecha body
    /\ createReserva (Some (mkAuthUser 8 USUARIO)) body db
       = (Ok (VariasReservas [primera; segunda]), db')
    /\ (periodoId primera, libras primera, fecha primera) = (2%nat, 3000, 20)
    /\ (periodoId segunda, libras segunda, fecha segunda) = (3%nat, 3000, 30)
    /\ fecha primera <> dto_fecha body.
Proof.
  intros p1 p2 p3 r db body.
  eexists _, _, _, _, _.
  split; [vm_compute; reflexivity|].
  split; [reflexivity|].
  split; [vm_compute; reflexivity|].
  split; [reflexivity|]. split; [reflexivity|].
  vm_compute. discriminate.
Qed.

(** ** deleteReserva *)

Lemma find_filter_removed :
  forall (rid : nat) (l : list Reserva),
    find (fun x => (r_id x =? rid)%nat)
         (filter (fun x => negb (r_id x =? rid)%nat) l) = None.
Proof.
  intros rid l. induction l as [|a l IH]; simpl; [reflexivity|].
  destruct (r_id a =? rid)%nat eqn:Ha; simpl; [exact IH|].
  now rewrite Ha.
Qed.

Lemma find_filter_other :
  forall (rid rid0 : nat) (l : list Reserva),
    rid0 <> rid ->
    find (fun x => (r_id x =? rid0)%nat)
         (filter (fun x => negb (r_id x =? rid)%nat) l)
    = find (fun x => (r_id x =? rid0)%nat) l.
Proof.
  intros rid rid0 l Hne. induction l as [|a l IH]; simpl; [reflexivity|].
  destruct (r_id a =? rid)%nat eqn:Ha; simpl.
  - apply Nat.eqb_eq in Ha.
    destruct (Nat.eqb_spec (r_id a) rid0); [congruence | exact IH].
  - destruct (r_id a =? rid0)%nat; [reflexivity | exact IH].
Qed.

Lemma filter_absent_id :
  forall (rid : nat) (l : list Reserva),
    ~ In rid (map r_id l) ->
    filter (fun x => negb (r_id x =? rid)%nat) l = l.
Proof.
  intros rid l. induction l as [|a l IH]; simpl; [reflexivity|].
  intros Hn. destruct (Nat.eqb_spec (r_id a) rid) as [E|E]; simpl.
  - exfalso. apply Hn. now left.
  - f_equal. apply IH. intros Hin. apply Hn. now right.
Qed.

(** Removing the one row of an identifier lowers a filtered sum by the
    weight of that row when the filter keeps it. *)
Lemma sumLibras_filter_removed :
  forall (P : Reserva -> bool) (rid : nat) (l : list Reserva) (r : Reserva),
    NoDup (map r_id l) ->
    find (fun x => (r_id x =? rid)%nat) l = Some r ->
    sumLibras (filter P (filter (fun x => negb (r_id x =? rid)%nat) l))
    = sumLibras (filter P l) - (if P r then libras r else 0).
Proof.
  intros P rid l r. induction l as [|a l IH]; simpl; [discriminate|].
  intros Hnd Hf. inversion Hnd as [|x xs Hnotin Hnd']; subst.
  destruct (Nat.eqb_spec (r_id a) rid) as [E|E]; simpl.
  - injection Hf as <-. rewrite filter_absent_id by (now rewrite <- E).
    destruct (P a); [rewrite sumLibras_cons|]; lia.
  - specialize (IH Hnd' Hf).
    destruct (P a); [rewrite !sumLibras_cons|]; lia.
Qed.

Lemma librasReservadasDe_as_filter :
  forall db pid,
    librasReservadasDe db pid
    = sumLibras (filter (fun r => (periodoId r =? pid)%nat && noCancelada r)
                        (reservas db)).
Proof.
  intros db pid. unfold librasReservadasDe, reservasDePeriodo.
  now rewrite filter_andb.
Qed.

(** C10. [deleteReserva] called by an administrator or by the owner on an
    existing reservation succeeds whatever the status of the reservation,
    terminal or not, and removes its row; other rows are untouched.  When
    the removed reservation was not cancelled (identifiers being unique),
    the remaining capacity of its period grows by its weight. *)
Theorem C10_deleteReserva_any_status :
  forall db u rid r,
    findUniqueReserva db rid = Some r ->
    au_role u = ADMIN_PRINCIPAL \/ au_id u = userId r ->
    let db' :=
      set_reservas db
        (filter (fun x => negb (r_id x =? rid)%nat) (reservas db)) in
    deleteReserva (Some u) rid db = (Ok tt, db')
    /\ findUniqueReserva db' rid = None
    /\ (forall rid0, rid0 <> rid ->
          findUniqueReserva db' rid0 = findUniqueReserva db rid0)
    /\ periodos db' = periodos db
    /\ (NoDup (map r_id (reservas db)) ->
        forall p,
          p_id p = periodoId r ->
          capacidadRestante db' p
          = capacidadRestante db p
            + (if noCancelada r then libras r else 0)).
Proof.
  intros db u rid r Hf Hact db'.
  split; [|split; [|split; [|split]]].
  - unfold deleteReserva, bind, getDB. rewrite Hf.
    assert (Hperm : Role_eqb (au_role u) USUARIO
                    && negb (userId r =? au_id u)%nat = false).
    { destruct Hact as [Ha|Ha].
      - now rewrite Ha.
      - rewrite Ha, Nat.eqb_refl. apply andb_false_r. }
    rewrite Hperm. unfold prisma_reserva_delete. now rewrite Hf.
  - apply find_filter_removed.
  - intros rid0 Hne. now apply find_filter_other.
  - reflexivity.
  - intros Hnd p Hp. unfold capacidadRestante.
    rewrite !librasReservadasDe_as_filter. subst db'. simpl.
    rewrite (sumLibras_filter_removed _ rid (reservas db) r Hnd Hf).
    rewrite Hp, Nat.eqb_refl. simpl. destruct (noCancelada r); lia.
Qed.

(** The owner deletes a delivered reservation of 25 pounds: the row is
    gone and the period has 25 pounds more. *)
Lemma C10_witness_delete_delivered :
  let r := mkReserva 1 2500 10 "CDMX" None ENTREGADA 7 1
                     (Some 3) (Some 4) (Some 6) in
  let p := mkPeriodo 1 100 10 true in
  let db := mkDB [] [p] [r] [] [] 2 in
  let db' := set_reservas db [] in
  deleteReserva (Some (mkAuthUser 7 USUARIO)) 1 db = (Ok tt, db')
  /\ findUniqueReserva db' 1 = None
  /\ capacidadRestante db p = 7500
  /\ capacidadRestante db' p = 10000.
Proof.
  intros r p db db'.
  destruct (C10_deleteReserva_any_status db (mkAuthUser 7 USUARIO) 1 r)
    as (Hrun & Hgone & _ & _ & Hcap).
  - reflexivity.
  - right. reflexivity.
  - split; [exact Hrun|]. split; [exact Hgone|]. split; [reflexivity|].
    assert (Hnd : NoDup (map r_id (reservas db)))
      by (repeat constructor; simpl; tauto).
    exact (Hcap Hnd p eq_refl).
Defined.

(** ** closePeriodo *)

Lemma promiseAllCreates_sinFallos :
  forall hs index, promiseAllCreates sinFallos index hs = (hs, false).
Proof.
  induction hs as [|h hs IH]; intros index; simpl; [reflexivity|].
  now rewrite IH.
Qed.

Lemma mapOption_Forall2 :
  forall (A B : Type) (f : A -> option B) (l : list A) (bs : list B),
    mapOption f l = Some bs -> Forall2 (fun a b => f a = Some b) l bs.
Proof.
  intros A B f l. induction l as [|a l IH]; simpl; intros bs H.
  - injection H as <-. constructor.
  - destruct (f a) as [b|] eqn:Hfa; [|discriminate].
    destruct (mapOption f l) as [bs'|]; [|discriminate].
    injection H as <-. constructor; auto.
Qed.

Lemma mapOption_total :
  forall (A B : Type) (f : A -> option B) (l : list A),
    (forall a, In a l -> f a <> None) -> exists bs, mapOption f l = Some bs.
Proof.
  intros A B f l. induction l as [|a l IH]; simpl; intros H.
  - now exists [].
  - destruct (f a) as [b|] eqn:Hfa; [|exfalso; apply (H a); auto].
    destruct IH as [bs Hbs]; [intros; apply H; auto|].
    rewrite Hbs. now exists (b :: bs).
Qed.

Lemma historicoDeReserva_copia :
  forall db p r h,
    historicoDeReserva db p r = Some h -> esCopiaDe (p_fechaEnvio p) r h.
Proof.
  intros db p r h H. unfold historicoDeReserva in H.
  destruct (findUniqueUser db (userId r)); [|discriminate].
  injection H as <-. repeat split.
Qed.

Lemma findUniquePeriodo_id :
  forall db pid p, findUniquePeriodo db pid = Some p -> p_id p = pid.
Proof.
  intros db pid p H. apply find_some in H. destruct H as [_ H].
  now apply Nat.eqb_eq in H.
Qed.

Lemma find_map_update_periodo :
  forall (f : PeriodoLibras -> PeriodoLibras) (pid pid' : nat)
         (l : list PeriodoLibras),
    (forall x, p_id (f x) = p_id x) ->
    find (fun p => (p_id p =? pid')%nat)
         (map (fun x => if (p_id x =? pid)%nat then f x else x) l)
    = option_map (fun x => if (p_id x =? pid)%nat then f x else x)
                 (find (fun p => (p_id p =? pid')%nat) l).
Proof.
  intros f pid pid' l Hid.
  induction l as [|a l IH]; simpl; [reflexivity|].
  assert (Ha : p_id (if (p_id a =? pid)%nat then f a else a) = p_id a).
  { destruct (p_id a =? pid)%nat; [apply Hid | reflexivity]. }
  rewrite Ha.
  destruct (p_id a =? pid')%nat; [reflexivity | exact IH].
Qed.

(** [closePeriodo] on an existing period whose reservations all have
    their user: the writes in program order, each one either rejected,
    which ends the request with what was written so far, or applied. *)
Lemma closePeriodo_run :
  forall fallos db pid p hs,
    findUniquePeriodo db pid = Some p ->
    mapOption (historicoDeReserva db p) (reservasDePeriodo db pid) = Some hs ->
    closePeriodo fallos pid db
    = if fallos EscHistoricoPeriodo then (Err Internal, db)
      else
        let db1 :=
          set_historicoPeriodos db
            (historicoPeriodos db ++ [historicoDePeriodo db p]) in
        let db2 :=
          set_historicoReservas db1
            (historicoReservas db ++ fst (promiseAllCreates fallos 0 hs)) in
        if snd (promiseAllCreates fallos 0 hs) then (Err Internal, db2)
        else if fallos EscDeleteMany then (Err Internal, db2)
        else
          let db3 :=
            set_reservas db2
              (filter (fun r => negb (periodoId r =? pid)%nat) (reservas db)) in
          if fallos EscDesactivar then (Err Internal, db3)
          else
            (Ok (historicoDePeriodo db p),
             set_periodos db3
               (map (fun x => if (p_id x =? pid)%nat then desactivar x else x)
                    (periodos db))).
Proof.
  intros fallos db pid p hs Hp Hhs.
  pose proof (findUniquePeriodo_id _ _ _ Hp) as Hid. subst pid.
  unfold closePeriodo. unfold bind at 1. unfold getDB at 1.
  rewrite Hp, Hhs.
  unfold bind at 1. unfold prisma_historicoPeriodo_create.
  unfold historicoDePeriodo, setSize.
  destruct (fallos EscHistoricoPeriodo); [reflexivity|].
  unfold bind at 1. unfold prisma_historicoReserva_createAll.
  destruct (promiseAllCreates fallos 0 hs) as [escritas rechazo].
  cbn [fst snd set_historicoPeriodos historicoReservas].
  destruct rechazo; [reflexivity|].
  unfold bind at 1. unfold prisma_reserva_deleteMany.
  destruct (fallos EscDeleteMany); [reflexivity|].
  unfold bind at 1.
  destruct (fallos EscDesactivar); [reflexivity|].
  unfold prisma_periodo_update, findUniquePeriodo in *.
  cbn [periodos set_reservas set_historicoReservas set_historicoPeriodos].
  rewrite Hp. reflexivity.
Qed.

Lemma reservasDePeriodo_deleteMany_same :
  forall (pid : nat) (l : list Reserva),
    filter (fun r => (periodoId r =? pid)%nat)
           (filter (fun r => negb (periodoId r =? pid)%nat) l) = [].
Proof.
  intros pid l. induction l as [|a l IH]; simpl; [reflexivity|].
  destruct (periodoId a =? pid)%nat eqn:Ha; simpl; [exact IH|].
  now rewrite Ha.
Qed.

Lemma reservasDePeriodo_deleteMany_other :
  forall (pid pid0 : nat) (l : list Reserva),
    pid0 <> pid ->
    filter (fun r => (periodoId r =? pid0)%nat)
           (filter (fun r => negb (periodoId r =? pid)%nat) l)
    = filter (fun r => (periodoId r =? pid0)%nat) l.
Proof.
  intros pid pid0 l Hne. induction l as [|a l IH]; simpl; [reflexivity|].
  destruct (Nat.eqb_spec (periodoId a) pid) as [E|E]; simpl.
  - destruct (Nat.eqb_spec (periodoId a) pid0); [congruence | exact IH].
  - destruct (periodoId a =? pid0)%nat; [now rewrite IH | exact IH].
Qed.

(** C6. Closing an existing period (every write accepted, every
    reservation having its user row) writes one HistoricoPeriodo whose
    reserved weight is the sum R of the reservations that are not
    cancelled, whose available weight is the capacity minus R, whose
    reservation count is their number and whose user count is the number
    of their distinct owners; writes one HistoricoReserva per reservation
    of the period, cancelled ones included, in order; leaves the period
    without live reservations and the other periods' reservations as they
    were; and leaves the period inactive. *)
Theorem C6_closePeriodo_archives :
  forall db pid p,
    findUniquePeriodo db pid = Some p ->
    (forall r, In r (reservasDePeriodo db pid) ->
               findUniqueUser db (userId r) <> None) ->
    let activas := filter noCancelada (reservasDePeriodo db pid) in
    let R := sumLibras activas in
    exists hp hs db' owners,
      closePeriodo sinFallos pid db = (Ok hp, db')
      /\ hp_librasTotales hp = librasTotales p
      /\ hp_librasReservadas hp = R
      /\ hp_librasDisponibles hp = 100 * librasTotales p - R
      /\ hp_fechaEnvio hp = p_fechaEnvio p
      /\ totalReservas hp = List.length activas
      /\ totalUsuarios hp = List.length owners
      /\ NoDup owners
      /\ (forall uid, In uid owners
                      <-> exists r, In r activas /\ userId r = uid)
      /\ historicoPeriodos db' = (historicoPeriodos db ++ [hp])%list
      /\ historicoReservas db' = (historicoReservas db ++ hs)%list
      /\ Forall2 (esCopiaDe (p_fechaEnvio p)) (reservasDePeriodo db pid) hs
      /\ reservasDePeriodo db' pid = []
      /\ (forall pid0, pid0 <> pid ->
            reservasDePeriodo db' pid0 = reservasDePeriodo db pid0)
      /\ findUniquePeriodo db' pid = Some (desactivar p)
      /\ isActive (desactivar p) = false.
Proof.
  intros db pid p Hp Husers activas R.
  destruct (mapOption_total _ _ (historicoDeReserva db p)
              (reservasDePeriodo db pid))
    as [hs Hhs].
  { intros r Hr. unfold historicoDeReserva.
    specialize (Husers r Hr).
    destruct (findUniqueUser db (userId r)); [discriminate | congruence]. }
  pose proof (findUniquePeriodo_id _ _ _ Hp) as Hid.
  exists (historicoDePeriodo db p), hs.
  eexists. exists (nodup Nat.eq_dec (map userId activas)).
  split.
  { rewrite (closePeriodo_run sinFallos db pid p hs Hp Hhs).
    rewrite promiseAllCreates_sinFallos. cbn [sinFallos fst snd].
    reflexivity. }
  unfold historicoDePeriodo. rewrite Hid. fold activas. fold R.
  cbn [hp_librasTotales hp_librasReservadas hp_librasDisponibles hp_fechaEnvio
       totalReservas totalUsuarios].
  repeat (split; [reflexivity|]).
  split; [apply NoDup_nodup|].
  split.
  { intros uid. rewrite nodup_In, in_map_iff.
    split; intros (r & H1 & H2); exists r; split; assumption. }
  split; [reflexivity|]. split; [reflexivity|].
  split.
  { apply mapOption_Forall2 in Hhs.
    eapply Forall2_impl; [|exact Hhs].
    intros r h Hrh. now apply historicoDeReserva_copia with db. }
  split; [apply reservasDePeriodo_deleteMany_same|].
  split; [intros pid0 Hne; now apply reservasDePeriodo_deleteMany_other|].
  split; [|reflexivity].
  unfold findUniquePeriodo in *. cbn [periodos set_periodos].
  rewrite find_map_update_periodo by reflexivity.
  rewrite Hp. simpl. now rewrite Hid, Nat.eqb_refl.
Qed.

(** Closing a period of 100 pounds with reservations of 30 (confirmed),
    25 (pending, same owner) and 40 (cancelled, another owner). *)
Lemma C6_witness_close :
  let us := [mkUser 7 "Ana" "ana@x.mx"; mkUser 8 "Luis" "luis@x.mx"] in
  let p := mkPeriodo 1 100 10 true in
  let ra := mkReserva 1 3000 10 "CDMX" None CONFIRMADA 7 1 (Some 2) None None in
  let rb := mkReserva 2 2500 10 "Puebla" None PENDIENTE 7 1 None None None in
  let rc := mkReserva 3 4000 10 "CDMX" None CANCELADA 8 1 None None None in
  let db := mkDB us [p] [ra; rb; rc] [] [] 4 in
  exists hp db',
    closePeriodo sinFallos 1 db = (Ok hp, db')
    /\ hp_librasReservadas hp = 5500
    /\ hp_librasDisponibles hp = 4500
    /\ totalReservas hp = 2%nat
    /\ totalUsuarios hp = 1%nat
    /\ historicoPeriodos db' = [hp]
    /\ List.length (historicoReservas db') = 3%nat
    /\ reservasDePeriodo db' 1 = []
    /\ option_map isActive (findUniquePeriodo db' 1) = Some false.
Proof.
  intros us p ra rb rc db.
  destruct (C6_closePeriodo_archives db 1 p)
    as (hp & hs & db' & owners & Hrun & _ & HR & HD & _ & HN & HU & Hnd & Hown
        & HhP & HhR & Hcop & Hlive & _ & Hper & _).
  - reflexivity.
  - intros r Hr. vm_compute in Hr.
    destruct Hr as [<-|[<-|[<-|[]]]]; vm_compute; discriminate.
  - exists hp, db'.
    split; [exact Hrun|]. split; [exact HR|]. split; [exact HD|].
    split; [exact HN|].
    assert (Hhp : hp = historicoDePeriodo db p).
    { rewrite (closePeriodo_run sinFallos db 1 p
                 (fst (promiseAllCreates sinFallos 0
                         [mkHistoricoReserva 7 "Ana" "ana@x.mx" 3000 10 "CDMX"
                            None CONFIRMADA 10 1;
                          mkHistoricoReserva 7 "Ana" "ana@x.mx" 2500 10 "Puebla"
                            None PENDIENTE 10 2;
                          mkHistoricoReserva 8 "Luis" "luis@x.mx" 4000 10 "CDMX"
                            None CANCELADA 10 3]))
                 eq_refl eq_refl) in Hrun.
      vm_compute in Hrun. injection Hrun as <- _. reflexivity. }
    split; [rewrite Hhp; reflexivity|].
    split; [exact HhP|].
    split.
    + rewrite HhR. apply Forall2_length in Hcop. simpl. rewrite <- Hcop.
      reflexivity.
    + split; [exact Hlive|]. now rewrite Hper.
Defined.

Lemma promiseAllCreates_complete :
  forall fallos hs index,
    snd (promiseAllCreates fallos index hs) = false ->
    fst (promiseAllCreates fallos index hs) = hs.
Proof.
  intros fallos hs. induction hs as [|h hs IH]; intros index; simpl.
  - reflexivity.
  - specialize (IH (S index)).
    destruct (promiseAllCreates fallos (S index) hs) as [escritas rechazo].
    destruct (fallos (EscHistoricoReserva index)); simpl; [discriminate|].
    intros H. f_equal. now apply IH.
Qed.

Ltac resolver_cierre :=
  cbn [fst snd set_periodos set_reservas set_historicoReservas
       set_historicoPeriodos reservas periodos historicoPeriodos
       historicoReservas users nextReservaId];
  repeat split; intros;
  repeat match goal with
         | H : _ /\ _ |- _ => destruct H
         end;
  try discriminate; try congruence; auto.

(** C2 (amended). [closePeriodo] issues its writes in program order and
    undoes none of them.  If the first write, the HistoricoPeriodo row,
    is rejected, the request fails with the tables unchanged; once it is
    accepted the row stays whatever happens to the later writes.  The live
    reservations of the period are deleted only after the HistoricoPeriodo
    and every HistoricoReserva have been written, and the period is
    deactivated only after that deletion; the request succeeds exactly
    when no write is rejected.  In particular a rejected deletion leaves
    the complete history written while the reservations are still live and
    the period still active. *)
Theorem C2_closePeriodo_ordered_writes_no_rollback :
  forall fallos db pid p hs,
    findUniquePeriodo db pid = Some p ->
    mapOption (historicoDeReserva db p) (reservasDePeriodo db pid) = Some hs ->
    let res := closePeriodo fallos pid db in
    let hp := historicoDePeriodo db p in
    let vivas := filter (fun r => negb (periodoId r =? pid)%nat) (reservas db) in
    (fallos EscHistoricoPeriodo = true -> res = (Err Internal, db))
    /\ (fallos EscHistoricoPeriodo = false ->
        historicoPeriodos (snd res) = (historicoPeriodos db ++ [hp])%list)
    /\ (reservas (snd res) = reservas db
        \/ (reservas (snd res) = vivas
            /\ historicoPeriodos (snd res) = (historicoPeriodos db ++ [hp])%list
            /\ historicoReservas (snd res)
               = (historicoReservas db ++ hs)%list))
    /\ (periodos (snd res) = periodos db
        \/ (fst res = Ok hp /\ reservas (snd res) = vivas))
    /\ (fst res = Ok hp
        <-> fallos EscHistoricoPeriodo = false
            /\ snd (promiseAllCreates fallos 0 hs) = false
            /\ fallos EscDeleteMany = false
            /\ fallos EscDesactivar = false)
    /\ (fallos EscHistoricoPeriodo = false ->
        snd (promiseAllCreates fallos 0 hs) = false ->
        fallos EscDeleteMany = true ->
        res = (Err Internal,
               mkDB (users db) (periodos db) (reservas db)
                    (historicoPeriodos db ++ [hp])
                    (historicoReservas db ++ hs) (nextReservaId db))).
Proof.
  intros fallos db pid p hs Hp Hhs res hp vivas.
  subst res. rewrite (closePeriodo_run fallos db pid p hs Hp Hhs).
  fold hp. fold vivas.
  pose proof (promiseAllCreates_complete fallos hs 0) as Hall.
  destruct (fallos EscHistoricoPeriodo) eqn:F1; cbv zeta;
    [resolver_cierre|].
  destruct (snd (promiseAllCreates fallos 0 hs)) eqn:F2; [resolver_cierre|].
  rewrite (Hall eq_refl).
  destruct (fallos EscDeleteMany) eqn:F3; [resolver_cierre|].
  destruct (fallos EscDesactivar) eqn:F4; [resolver_cierre|].
  resolver_cierre.
Qed.

(** A period with one confirmed reservation, the deletion rejected: the
    request fails with both historical rows written, the reservation
    still live and the period still active. *)
Lemma C2_witness_delete_rejected :
  let us := [mkUser 7 "Ana" "ana@x.mx"] in
  let p := mkPeriodo 1 100 10 true in
  let ra := mkReserva 1 3000 10 "CDMX" None CONFIRMADA 7 1 (Some 2) None None in
  let db := mkDB us [p] [ra] [] [] 2 in
  let ha := mkHistoricoReserva 7 "Ana" "ana@x.mx" 3000 10 "CDMX" None
                               CONFIRMADA 10 1 in
  closePeriodo fallaDeleteMany 1 db
  = (Err Internal,
     mkDB us [p] [ra] [mkHistoricoPeriodo 100 3000 7000 10 1 1] [ha] 2).
Proof.
  intros us p ra db ha.
  destruct (C2_closePeriodo_ordered_writes_no_rollback fallaDeleteMany db 1 p
              [ha] eq_refl eq_refl)
    as (_ & _ & _ & _ & _ & Hdel).
  exact (Hdel eq_refl eq_refl eq_refl).
Defined.

(** The claim as first stated fails: with the deletion rejected the
    request fails, yet the tables are not as they were before it; the
    history of the period is written while its reservation is still
    live. *)
Lemma C2_counterexample_partial_state :
  let us := [mkUser 7 "Ana" "ana@x.mx"] in
  let p := mkPeriodo 1 100 10 true in
  let ra := mkReserva 1 3000 10 "CDMX" None CONFIRMADA 7 1 (Some 2) None None in
  let db := mkDB us [p] [ra] [] [] 2 in
  let res := closePeriodo fallaDeleteMany 1 db in
  fst res = Err Internal
  /\ snd res <> db
  /\ List.length (historicoPeriodos (snd res)) = 1%nat
  /\ List.length (historicoReservas (snd res)) = 1%nat
  /\ reservas (snd res) = [ra]
  /\ periodos (snd res) = [p].
Proof.
  intros us p ra db res. vm_compute.
  repeat split; try reflexivity. discriminate.
Qed.

(** ** updateReserva and the terminal states *)

(** The status endpoint refuses every request on a delivered or
    cancelled reservation and writes nothing. *)
Lemma updateReservaStatus_final_rejected :
  forall hoy user rid s db r,
    findUniqueReserva db rid = Some r ->
    esFinal (status r) = true ->
    updateReservaStatus hoy user rid s db
    = (Err (BadRequest
              "No se puede modificar una reserva entregada o cancelada"),
       db).
Proof.
  intros hoy user rid s db r Hf Hfin.
  unfold updateReservaStatus, bind, getDB. rewrite Hf.
  destruct (status r); try discriminate; reflexivity.
Qed.

(** [updateReserva] without a weight in the body: for the owner or an
    administrator it applies the body to the row whatever the current
    status, and whatever status the body asks for. *)
Lemma updateReserva_sin_libras :
  forall db u rid r body,
    findUniqueReserva db rid = Some r ->
    au_role u = ADMIN_PRINCIPAL \/ au_id u = userId r ->
    upd_libras body = None ->
    let data :=
      applyUpdateData
        (mkReservaUpdateData None (truthyString (upd_estado body))
           (upd_observaciones body) (upd_status body) None None None) in
    updateReserva (Some u) rid body db
    = (Ok (data r),
       set_reservas db
         (map (fun x => if (r_id x =? rid)%nat then data x else x)
              (reservas db))).
Proof.
  intros db u rid r body Hf Hact Hl data.
  unfold updateReserva. unfold bind at 1. unfold getDB at 1. rewrite Hf.
  assert (Hperm : Role_eqb (au_role u) USUARIO
                  && negb (userId r =? au_id u)%nat = false).
  { destruct Hact as [Ha|Ha].
    - now rewrite Ha.
    - rewrite Ha, Nat.eqb_refl. apply andb_false_r. }
  rewrite Hperm, Hl. unfold bind, ret, prisma_reserva_update.
  now rewrite Hf.
Qed.

(** C5 (the code at a failing input). The owner of a delivered
    reservation sends a new weight, new notes and the status PENDIENTE to
    [updateReserva]: the request is accepted and the row is rewritten. *)
Theorem C5_updateReserva_rewrites_delivered :
  let r := mkReserva 1 2500 10 "CDMX" None ENTREGADA 7 1
                     (Some 2) (Some 3) (Some 4) in
  let db := mkDB [] [mkPeriodo 1 100 10 true] [r] [] [] 2 in
  let body := mkUpdateReservaDTO (Some (40 # 1)) None (Some "cambio")
                                 (Some PENDIENTE) in
  let r' := mkReserva 1 4000 10 "CDMX" (Some "cambio") PENDIENTE 7 1
                      (Some 2) (Some 3) (Some 4) in
  esFinal (status r) = true
  /\ updateReserva (Some (mkAuthUser 7 USUARIO)) 1 body db
     = (Ok r', set_reservas db [r'])
  /\ r' <> r.
Proof.
  intros r db body r'. split; [reflexivity|]. split.
  - vm_compute. reflexivity.
  - discriminate.
Qed.

(** ** The capacity invariant *)

(** C1 (the code at a failing input). One period of 100 pounds.  Ana
    reserves 100 pounds; the administrator cancels that reservation; Luis
    reserves 100 pounds; Ana sends the status PENDIENTE for her cancelled
    reservation to [updateReserva].  The invariant holds up to the last
    request, which is accepted and leaves 200 pounds committed against a
    capacity of 100. *)
Theorem C1_updateReserva_uncancel_exceeds_capacity :
  let p := mkPeriodo 1 100 10 true in
  let db0 := mkDB [] [p] [] [] [] 1 in
  let ana := mkAuthUser 7 USUARIO in
  let luis := mkAuthUser 8 USUARIO in
  let admin := mkAuthUser 1 ADMIN_PRINCIPAL in
  let pedir := mkCreateReservaDTO (100 # 1) 10 "CDMX" None None in
  let db1 := snd (createReserva (Some ana) pedir db0) in
  let db2 := snd (updateReservaStatus 3 admin 1 CANCELADA db1) in
  let db3 := snd (createReserva (Some luis) pedir db2) in
  let res := updateReserva (Some ana) 1
               (mkUpdateReservaDTO None None None (Some PENDIENTE)) db3 in
  map (fun r => (r_id r, libras r, status r)) (reservas db3)
  = [(1%nat, 10000, CANCELADA); (2%nat, 10000, PENDIENTE)]
  /\ invarianteCapacidad db0 = true /\ invarianteCapacidad db1 = true
  /\ invarianteCapacidad db2 = true /\ invarianteCapacidad db3 = true
  /\ (exists r, fst res = Ok r /\ status r = PENDIENTE)
  /\ librasReservadasDe (snd res) 1 = 20000
  /\ 100 * librasTotales p = 10000
  /\ invarianteCapacidad (snd res) = false.
Proof.
  intros p db0 ana luis admin pedir db1 db2 db3 res.
  repeat split; try (vm_compute; reflexivity).
  eexists. split; vm_compute; reflexivity.
Qed.

Lemma invarianteCapacidad_spec :
  forall db, invarianteCapacidad db = true <-> capacidadRespetada db.
Proof.
  intros db. unfold invarianteCapacidad, capacidadRespetada.
  rewrite forallb_forall. split; intros H p Hp; specialize (H p Hp).
  - now apply Z.leb_le.
  - now apply Z.leb_le.
Qed.

Lemma capacidadDe_nonneg :
  forall pid cs, 0 <= capacidadDe pid cs.
Proof.
  intros pid cs. induction cs as [|pc cs IH]; simpl; [lia|].
  destruct (p_id (periodo pc) =? pid)%nat; lia.
Qed.

Lemma sumPlanDe_app :
  forall pid p1 p2,
    sumPlanDe pid (p1 ++ p2) = sumPlanDe pid p1 + sumPlanDe pid p2.
Proof.
  intros pid p1 p2. induction p1 as [|a p1 IH]; simpl; [reflexivity|].
  rewrite IH. lia.
Qed.

(** The planner books in a period no more than its candidates have
    left. *)
Lemma planificar_por_periodo :
  forall f pid ps w plan,
    sumPlanDe pid (snd (planificar f ps w plan))
    <= sumPlanDe pid plan + capacidadDe pid ps.
Proof.
  intros f pid ps. induction ps as [|pc ps IH]; intros w plan.
  - simpl. lia.
  - pose proof (capacidadDe_nonneg pid ps) as Hc.
    destruct (Z_le_gt_dec w 0) as [Hle|Hgt].
    + rewrite planificar_break by lia. simpl.
      destruct (p_id (periodo pc) =? pid)%nat; lia.
    + destruct (Z_lt_le_dec 0 (disponiblesDe pc)) as [Hd|Hd].
      * rewrite planificar_take by lia.
        eapply Z.le_trans; [apply IH|].
        rewrite sumPlanDe_app. simpl.
        destruct (p_id (periodo pc) =? pid)%nat; lia.
      * rewrite planificar_skip by lia.
        eapply Z.le_trans; [apply IH|]. simpl.
        destruct (p_id (periodo pc) =? pid)%nat; lia.
Qed.

(** The rows of a plan, all PENDIENTE, add to a period what the plan
    books in it. *)
Lemma sumLibras_filasCreadas :
  forall u e o pid plan index n,
    sumLibras
      (filter (fun r => (periodoId r =? pid)%nat && noCancelada r)
              (filasCreadas u e o index n plan))
    = sumPlanDe pid plan.
Proof.
  intros u e o pid plan. induction plan as [|item plan IH]; intros index n.
  - reflexivity.
  - simpl.
    destruct (p_id (periodo (pl_periodo item)) =? pid)%nat; simpl.
    + rewrite sumLibras_cons, IH. reflexivity.
    + rewrite IH. lia.
Qed.

Lemma Permutation_insertarPorFechaEnvio :
  forall p l, Permutation (insertarPorFechaEnvio p l) (p :: l).
Proof.
  intros p l. induction l as [|a l IH]; simpl.
  - apply Permutation_refl.
  - destruct (p_fechaEnvio p <=? p_fechaEnvio a).
    + apply Permutation_refl.
    + eapply Permutation_trans; [apply perm_skip, IH | apply perm_swap].
Qed.

Lemma Permutation_orderByFechaEnvioAsc :
  forall l, Permutation (orderByFechaEnvioAsc l) l.
Proof.
  induction l as [|a l IH]; simpl.
  - apply Permutation_refl.
  - eapply Permutation_trans; [apply Permutation_insertarPorFechaEnvio|].
    now apply perm_skip.
Qed.

Lemma NoDup_map_filter :
  forall (A B : Type) (k : A -> B) (g : A -> bool) (l : list A),
    NoDup (map k l) -> NoDup (map k (filter g l)).
Proof.
  intros A B k g l. induction l as [|a l IH]; simpl; intros H.
  - constructor.
  - inversion H as [|x xs Hn Hnd]; subst.
    destruct (g a); simpl; [|auto].
    constructor; [|auto].
    intros Hin. apply Hn. apply in_map_iff in Hin.
    destruct Hin as (b & Hb & Hin). apply filter_In in Hin.
    apply in_map_iff. exists b. tauto.
Qed.

Lemma periodo_unico :
  forall (l : list PeriodoLibras) (a b : PeriodoLibras),
    NoDup (map p_id l) -> In a l -> In b l -> p_id a = p_id b -> a = b.
Proof.
  induction l as [|x l IH]; intros a b Hnd Ha Hb Hid; [contradiction|].
  inversion Hnd as [|y ys Hn Hnd']; subst.
  destruct Ha as [<-|Ha], Hb as [<-|Hb]; auto.
  - exfalso. apply Hn. rewrite Hid. now apply in_map.
  - exfalso. apply Hn. rewrite <- Hid. now apply in_map.
Qed.

Lemma capacidadDe_absent :
  forall db pid (L : list PeriodoLibras),
    ~ In pid (map p_id L) ->
    capacidadDe pid (map (includeReservasNoCanceladas db) L) = 0.
Proof.
  intros db pid L. induction L as [|a L IH]; simpl; intros Hn; [reflexivity|].
  destruct (Nat.eqb_spec (p_id a) pid) as [E|E].
  - exfalso. apply Hn. now left.
  - rewrite IH; [lia|]. intros Hin. apply Hn. now right.
Qed.

(** Candidates drawn without repetition from a table with unique
    identifiers offer, for a period, at most what that period has left. *)
Lemma capacidadDe_candidatos :
  forall db p (L : list PeriodoLibras),
    NoDup (map p_id (periodos db)) ->
    NoDup (map p_id L) ->
    (forall x, In x L -> In x (periodos db)) ->
    In p (periodos db) ->
    capacidadDe (p_id p) (map (includeReservasNoCanceladas db) L)
    <= Z.max 0 (capacidadRestante db p).
Proof.
  intros db p L Hdb. induction L as [|a L IH]; simpl; intros Hnd Hin Hp.
  - lia.
  - inversion Hnd as [|y ys Hn Hnd']; subst.
    destruct (Nat.eqb_spec (p_id a) (p_id p)) as [E|E].
    + assert (a = p) by (apply (periodo_unico (periodos db)); auto).
      subst a. rewrite capacidadDe_absent by exact Hn.
      rewrite disponiblesDe_include. lia.
    + apply IH; auto.
Qed.

Lemma buscarPeriodosActivos_lista :
  forall pid f db candidatos,
    NoDup (map p_id (periodos db)) ->
    fst (buscarPeriodosActivos pid f db) = Ok candidatos ->
    exists L,
      candidatos = map (includeReservasNoCanceladas db) L
      /\ NoDup (map p_id L)
      /\ (forall x, In x L -> In x (periodos db)).
Proof.
  intros pid f db candidatos Hnd H.
  assert (Hmany :
    exists L,
      map (includeReservasNoCanceladas db)
          (orderByFechaEnvioAsc
             (filter (fun p => isActive p && (f <=? p_fechaEnvio p))
                     (periodos db)))
      = map (includeReservasNoCanceladas db) L
      /\ NoDup (map p_id L)
      /\ (forall x, In x L -> In x (periodos db))).
  { eexists. split; [reflexivity|]. split.
    - eapply Permutation_NoDup.
      + apply Permutation_sym, Permutation_map,
          Permutation_orderByFechaEnvioAsc.
      + now apply NoDup_map_filter.
    - intros x Hx. apply In_orderByFechaEnvioAsc, filter_In in Hx. tauto. }
  unfold buscarPeriodosActivos, bind, getDB, ret, throw in H.
  destruct pid as [[|n]|]; cbn [fst] in H.
  - injection H as <-. exact Hmany.
  - destruct (find (fun p => (p_id p =? S n)%nat && isActive p) (periodos db))
      as [p|] eqn:Hf; cbn [fst] in H; [|discriminate].
    injection H as <-. apply find_some in Hf. destruct Hf as [Hp _].
    exists [p]. split; [reflexivity|]. split.
    + simpl. constructor; [intros []|constructor].
    + intros x [<-|[]]. exact Hp.
  - injection H as <-. exact Hmany.
Qed.

(** A failed [createReserva] writes nothing. *)
Lemma createReserva_err :
  forall user body db e db',
    createReserva user body db = (Err e, db') -> db' = db.
Proof.
  intros user body db e db' H.
  destruct user as [u|]; [|now inversion H].
  destruct (fst (buscarPeriodosActivos (dto_periodoId body) (dto_fecha body) db))
    as [cs|e0] eqn:Hb.
  - rewrite (createReserva_run u body db cs Hb) in H.
    destruct cs as [|pc cs]; [now inversion H|].
    cbv zeta in H.
    destruct (0 <? fst (planificar (dto_fecha body) (pc :: cs)
                          (parseDecimal (dto_libras body)) []));
      [now inversion H | discriminate].
  - pose proof (buscarPeriodosActivos_snd (dto_periodoId body) (dto_fecha body) db)
      as Hs.
    unfold createReserva, parseDateWithoutTimezone in H. unfold bind at 1 in H.
    destruct (buscarPeriodosActivos (dto_periodoId body) (dto_fecha body) db)
      as [r0 db0]. simpl in Hb, Hs. subst. now inversion H.
Qed.

(** [createReserva] keeps the capacity invariant: with unique period
    identifiers, whatever the request and its outcome. *)
Lemma createReserva_preserva_capacidad :
  forall user body db,
    NoDup (map p_id (periodos db)) ->
    capacidadRespetada db ->
    capacidadRespetada (snd (createReserva user body db)).
Proof.
  intros user body db Hnd Hinv.
  destruct (createReserva user body db) as [[data|e] db'] eqn:Hrun; simpl.
  - destruct user as [u|]; [|discriminate].
    apply createReserva_ok in Hrun.
    destruct Hrun as (cs & plan & w' & Hcs & Hp & _ & _ & ->).
    destruct (buscarPeriodosActivos_lista _ _ _ _ Hnd Hcs)
      as (L & -> & HndL & HinL).
    intros p Hin. cbn [periodos] in Hin.
    rewrite librasReservadasDe_as_filter. cbn [reservas].
    rewrite filter_app, sumLibras_app, sumLibras_filasCreadas.
    rewrite <- librasReservadasDe_as_filter.
    pose proof (planificar_por_periodo (dto_fecha body) (p_id p)
                  (map (includeReservasNoCanceladas db) L)
                  (parseDecimal (dto_libras body)) []) as Hbound.
    rewrite Hp in Hbound. cbn [snd sumPlanDe] in Hbound.
    pose proof (capacidadDe_candidatos db p L Hnd HndL HinL Hin) as Hcap.
    specialize (Hinv p Hin). unfold capacidadRestante in Hcap. lia.
  - apply createReserva_err in Hrun. now subst db'.
Qed.

Lemma librasReservadasDe_set_periodos :
  forall db ps pid,
    librasReservadasDe (set_periodos db ps) pid = librasReservadasDe db pid.
Proof. reflexivity. Qed.

(** [updatePeriodo] keeps the capacity invariant: a smaller total is
    refused when it is below the committed weight, and is accepted when it
    equals it. *)
Lemma updatePeriodo_preserva_capacidad :
  forall pid body db,
    capacidadRespetada db ->
    capacidadRespetada (snd (updatePeriodo pid body db)).
Proof.
  intros pid body db Hinv.
  unfold updatePeriodo. unfold bind at 1. unfold getDB at 1.
  destruct (findUniquePeriodo db pid) as [p0|] eqn:Hp0; [|exact Hinv].
  pose proof (findUniquePeriodo_id _ _ _ Hp0) as Hid0.
  assert (Hin0 : In p0 (periodos db)) by (now apply find_some in Hp0).
  pose proof (Hinv p0 Hin0) as H0. rewrite Hid0 in H0.
  set (f := fun p : PeriodoLibras =>
              mkPeriodo (p_id p)
                (orElse (truthyZ (updp_librasTotales body)) (librasTotales p))
                (orElse (option_map parseDateWithoutTimezone
                           (updp_fechaEnvio body)) (p_fechaEnvio p))
                (isActive p)).
  assert (Hupd :
    (forall lt, truthyZ (updp_librasTotales body) = Some lt ->
                librasReservadasDe db pid <= 100 * lt) ->
    capacidadRespetada (snd (prisma_periodo_update pid f db))).
  { intros Hlt. unfold prisma_periodo_update. rewrite Hp0. cbn [snd].
    intros q' Hq'. cbn [periodos set_periodos] in Hq'.
    rewrite librasReservadasDe_set_periodos.
    apply in_map_iff in Hq'. destruct Hq' as (q & <- & Hq).
    destruct (Nat.eqb_spec (p_id q) pid) as [E|E]; [|now apply Hinv].
    unfold f. cbn [p_id librasTotales]. rewrite E.
    destruct (truthyZ (updp_librasTotales body)) as [lt|] eqn:Ht; cbn [orElse].
    - now apply Hlt.
    - rewrite <- E. now apply Hinv. }
  unfold bind.
  destruct (updp_librasTotales body) as [lt|] eqn:Hb.
  - destruct (Z.ltb_spec lt (librasTotales p0)) as [Hlt|Hge].
    + rewrite Hid0. fold (librasReservadasDe db pid).
      destruct (Z.ltb_spec (100 * lt) (librasReservadasDe db pid)) as [Hx|Hx].
      * exact Hinv.
      * unfold ret. apply Hupd. intros lt' Hlt'.
        destruct lt; simpl in Hlt'; try discriminate;
          injection Hlt' as <-; lia.
    + unfold ret. apply Hupd. intros lt' Hlt'.
      destruct lt; simpl in Hlt'; try discriminate;
        injection Hlt' as <-; lia.
  - unfold ret. apply Hupd. intros lt' Hlt'. discriminate.
Qed.

Lemma map_absent_id :
  forall (f : Reserva -> Reserva) (rid : nat) (l : list Reserva),
    ~ In rid (map r_id l) ->
    map (fun x => if (r_id x =? rid)%nat then f x else x) l = l.
Proof.
  intros f rid l. induction l as [|a l IH]; simpl; intros Hn; [reflexivity|].
  destruct (Nat.eqb_spec (r_id a) rid) as [E|E].
  - exfalso. apply Hn. now left.
  - f_equal. apply IH. intros Hin. apply Hn. now right.
Qed.

(** Rewriting the one row of an identifier changes a filtered sum by the
    weights of the old and the new row that the filter keeps. *)
Lemma sumLibras_filter_updated :
  forall (P : Reserva -> bool) (f : Reserva -> Reserva) (rid : nat)
         (l : list Reserva) (r : Reserva),
    NoDup (map r_id l) ->
    find (fun x => (r_id x =? rid)%nat) l = Some r ->
    sumLibras
      (filter P (map (fun x => if (r_id x =? rid)%nat then f x else x) l))
    = sumLibras (filter P l)
      - (if P r then libras r else 0)
      + (if P (f r) then libras (f r) else 0).
Proof.
  intros P f rid l r. induction l as [|a l IH]; simpl; [discriminate|].
  intros Hnd Hf. inversion Hnd as [|x xs Hnotin Hnd']; subst.
  destruct (Nat.eqb_spec (r_id a) rid) as [E|E].
  - injection Hf as <-. rewrite map_absent_id by (now rewrite <- E).
    destruct (P a), (P (f a)); rewrite ?sumLibras_cons; lia.
  - specialize (IH Hnd' Hf).
    destruct (P a); rewrite ?sumLibras_cons; lia.
Qed.

(** The weight [calcularLibrasDisponibles] leaves out of the committed
    sum when it excludes a reservation. *)
Lemma calcularLibrasDisponibles_excluye :
  forall db pid rid r,
    NoDup (map r_id (reservas db)) ->
    rid <> 0%nat ->
    findUniqueReserva db rid = Some r ->
    sumLibras
      (filter (fun x => (if (rid =? 0)%nat then true
                         else negb (r_id x =? rid)%nat)
                        && noCancelada x)
              (reservasDePeriodo db pid))
    = librasReservadasDe db pid
      - (if (periodoId r =? pid)%nat && noCancelada r then libras r else 0).
Proof.
  intros db pid rid r Hnd Hz Hf.
  destruct (Nat.eqb_spec rid 0) as [E|_]; [contradiction|].
  rewrite librasReservadasDe_as_filter.
  pose proof (sumLibras_filter_removed
                (fun x => (periodoId x =? pid)%nat && noCancelada x)
                rid (reservas db) r Hnd Hf) as Hsum.
  cbv beta in Hsum. rewrite <- Hsum.
  unfold reservasDePeriodo.
  rewrite <- !filter_andb. f_equal. apply filter_ext. intros x.
  destruct (periodoId x =? pid)%nat, (r_id x =? rid)%nat, (noCancelada x);
    reflexivity.
Qed.

Lemma calcularLibrasDisponibles_run :
  forall pid rid db p,
    findUniquePeriodo db pid = Some p ->
    calcularLibrasDisponibles pid rid db
    = (Ok (100 * librasTotales p
           - sumLibras
               (filter (fun x => (if (rid =? 0)%nat then true
                                  else negb (r_id x =? rid)%nat)
                                 && noCancelada x)
                       (reservasDePeriodo db pid))),
       db).
Proof.
  intros pid rid db p Hp.
  pose proof (findUniquePeriodo_id _ _ _ Hp) as Hid.
  unfold calcularLibrasDisponibles, bind, getDB, ret. rewrite Hp, Hid.
  reflexivity.
Qed.

(** The two outcomes of [updateReserva]: nothing written, or the row of
    the reservation rewritten with the body, a new weight having passed
    the capacity check of its period. *)
Lemma updateReserva_outcome :
  forall user rid body db,
    snd (updateReserva user rid body db) = db
    \/ exists r nuevasLibras,
         findUniqueReserva db rid = Some r
         /\ snd (updateReserva user rid body db)
            = set_reservas db
                (map (fun x =>
                        if (r_id x =? rid)%nat
                        then applyUpdateData
                               (mkReservaUpdateData nuevasLibras
                                  (truthyString (upd_estado body))
                                  (upd_observaciones body) (upd_status body)
                                  None None None) x
                        else x)
                     (reservas db))
         /\ ((upd_libras body = None /\ nuevasLibras = None)
             \/ exists l p,
                  upd_libras body = Some l
                  /\ nuevasLibras = Some (parseDecimal l)
                  /\ findUniquePeriodo db (periodoId r) = Some p
                  /\ parseDecimal l
                     <= 100 * librasTotales p
                        - sumLibras
                            (filter
                               (fun x =>
                                  (if (r_id r =? 0)%nat then true
                                   else negb (r_id x =? r_id r)%nat)
                                  && noCancelada x)
                               (reservasDePeriodo db (periodoId r)))).
Proof.
  intros user rid body db.
  remember (updateReserva user rid body db) as res eqn:Hres.
  destruct user as [u|]; [|left; now subst res].
  unfold updateReserva in Hres. unfold bind at 1 in Hres.
  unfold getDB at 1 in Hres.
  destruct (findUniqueReserva db rid) as [r|] eqn:Hf; [|left; now subst res].
  destruct (Role_eqb (au_role u) USUARIO && negb (userId r =? au_id u)%nat);
    [left; now subst res|].
  destruct (upd_libras body) as [l|] eqn:Hl.
  - unfold bind at 1 in Hres. unfold bind at 1 in Hres.
    destruct (findUniquePeriodo db (periodoId r)) as [p|] eqn:Hp.
    + rewrite (calcularLibrasDisponibles_run _ _ _ _ Hp) in Hres.
      match type of Hres with
      | context [ ?a <? parseDecimal l ] =>
          destruct (Z.ltb_spec a (parseDecimal l)) as [Hlt|Hge]
      end; [left; now subst res|].
      right. exists r, (Some (parseDecimal l)).
      split; [reflexivity|]. split.
      * unfold ret, prisma_reserva_update in Hres. rewrite Hf in Hres.
        now subst res.
      * right. exists l, p. repeat split; auto.
    + left. unfold calcularLibrasDisponibles, bind, getDB, throw in Hres.
      rewrite Hp in Hres. now subst res.
  - right. exists r, None. split; [reflexivity|]. split.
    + unfold bind, ret, prisma_reserva_update in Hres. rewrite Hf in Hres.
      now subst res.
    + now left.
Qed.

(** [updateReserva] keeps the capacity invariant on every request except
    the one kind it does not check: a cancelled reservation given another
    status without a new weight.  (Identifiers are unique and positive,
    stored and requested weights are not negative.) *)
Lemma updateReserva_preserva_capacidad :
  forall user rid body db,
    NoDup (map r_id (reservas db)) ->
    NoDup (map p_id (periodos db)) ->
    rid <> 0%nat ->
    (forall r, In r (reservas db) -> 0 <= libras r) ->
    (forall l, upd_libras body = Some l -> 0 <= parseDecimal l) ->
    (forall r, findUniqueReserva db rid = Some r ->
               status r = CANCELADA ->
               upd_libras body = None ->
               upd_status body = None \/ upd_status body = Some CANCELADA) ->
    capacidadRespetada db ->
    capacidadRespetada (snd (updateReserva user rid body db)).
Proof.
  intros user rid body db Hndr Hndp Hz Hpos Hnew Hguard Hinv.
  destruct (updateReserva_outcome user rid body db)
    as [->|(r & nl & Hf & -> & Hcase)]; [exact Hinv|].
  pose proof (find_some_id _ _ _ Hf) as Hrid.
  assert (Hinr : In r (reservas db)) by (now apply find_some in Hf).
  intros q Hq. cbn [periodos set_reservas] in Hq.
  rewrite librasReservadasDe_as_filter. cbn [reservas set_reservas].
  rewrite (sumLibras_filter_updated _ _ rid (reservas db) r Hndr Hf).
  rewrite <- librasReservadasDe_as_filter. cbv beta.
  set (d := mkReservaUpdateData nl (truthyString (upd_estado body))
              (upd_observaciones body) (upd_status body) None None None).
  change (periodoId (applyUpdateData d r)) with (periodoId r).
  change (libras (applyUpdateData d r)) with (orElse nl (libras r)).
  change (noCancelada (applyUpdateData d r))
    with (negb (StatusReserva_eqb (orElse (upd_status body) (status r))
                                  CANCELADA)).
  pose proof (Hinv q Hq) as Hq0. pose proof (Hpos r Hinr) as Hr0.
  destruct (Nat.eqb_spec (periodoId r) (p_id q)) as [E|E];
    cbn [andb]; [|lia].
  destruct Hcase as [[Hl ->]|(l & p & Hl & -> & Hp & Hcheck)]; cbn [orElse].
  - destruct (noCancelada r) eqn:Hnc.
    + destruct (negb (StatusReserva_eqb (orElse (upd_status body) (status r))
                                        CANCELADA)); lia.
    + assert (Hs : status r = CANCELADA).
      { unfold noCancelada in Hnc. destruct (status r); try discriminate.
        reflexivity. }
      destruct (Hguard r Hf Hs Hl) as [-> | ->]; cbn [orElse];
        rewrite ?Hs; cbn [StatusReserva_eqb negb]; lia.
  - assert (q = p).
    { apply (periodo_unico (periodos db)); auto.
      - now apply find_some in Hp.
      - apply findUniquePeriodo_id in Hp. congruence. }
    subst q.
    rewrite Hrid in Hcheck.
    rewrite (calcularLibrasDisponibles_excluye db (periodoId r) rid r
               Hndr Hz Hf) in Hcheck.
    rewrite Nat.eqb_refl in Hcheck. cbn [andb] in Hcheck.
    rewrite E in Hcheck. specialize (Hnew l Hl).
    destruct (noCancelada r);
      destruct (negb (StatusReserva_eqb (orElse (upd_status body) (status r))
                                        CANCELADA)); lia.
Qed.

(** ** Stamps and the unchecked status write *)

(** The rows [createReserva] inserts have coherent stamps. *)
Lemma filasCreadas_sellosCoherentes :
  forall u e o plan index n,
    Forall sellosCoherentes (filasCreadas u e o index n plan).
Proof.
  intros u e o plan. induction plan as [|item plan IH]; intros index n; simpl.
  - constructor.
  - constructor; [|apply IH]. unfold sellosCoherentes. simpl. auto.
Qed.

(** C8 (the code at a failing input). Ana reserves 25 pounds; the
    administrator confirms the reservation on day 5, which stamps the
    confirmation date; Ana sends the status PENDIENTE to [updateReserva],
    which writes it without consulting the status machine; the
    administrator confirms again on day 9.  That second transition is
    accepted and overwrites the confirmation date stamped by the first. *)
Theorem C8_restamp_after_unchecked_status_write :
  let p := mkPeriodo 1 100 10 true in
  let db0 := mkDB [] [p] [] [] [] 1 in
  let ana := mkAuthUser 7 USUARIO in
  let admin := mkAuthUser 1 ADMIN_PRINCIPAL in
  let db1 := snd (createReserva (Some ana)
                    (mkCreateReservaDTO (25 # 1) 10 "CDMX" None None) db0) in
  let db2 := snd (updateReservaStatus 5 admin 1 CONFIRMADA db1) in
  let db3 := snd (updateReserva (Some ana) 1
                    (mkUpdateReservaDTO None None None (Some PENDIENTE)) db2) in
  let res := updateReservaStatus 9 admin 1 CONFIRMADA db3 in
  option_map (fun r => (status r, fechaConfirmacion r)) (findUniqueReserva db1 1)
  = Some (PENDIENTE, None)
  /\ option_map (fun r => (status r, fechaConfirmacion r))
                (findUniqueReserva db2 1)
     = Some (CONFIRMADA, Some 5)
  /\ option_map (fun r => (status r, fechaConfirmacion r))
                (findUniqueReserva db3 1)
     = Some (PENDIENTE, Some 5)
  /\ (exists r, fst res = Ok r /\ fechaConfirmacion r = Some 9)
  /\ option_map (fun r => (status r, fechaConfirmacion r))
                (findUniqueReserva (snd res) 1)
     = Some (CONFIRMADA, Some 9).
Proof.
  intros p db0 ana admin db1 db2 db3 res.
  repeat split; try (vm_compute; reflexivity).
  eexists. split; vm_compute; reflexivity.
Qed.

(** ** Order of the candidates *)

Lemma HdRel_insertarPorFechaEnvio :
  forall a p l,
    p_fechaEnvio a <= p_fechaEnvio p ->
    HdRel (fun x y => p_fechaEnvio x <= p_fechaEnvio y) a l ->
    HdRel (fun x y => p_fechaEnvio x <= p_fechaEnvio y) a
          (insertarPorFechaEnvio p l).
Proof.
  intros a p l Hap Hl. destruct l as [|q l]; simpl.
  - now constructor.
  - destruct (p_fechaEnvio p <=? p_fechaEnvio q); constructor; auto.
    now inversion Hl.
Qed.

Lemma Sorted_insertarPorFechaEnvio :
  forall p l,
    Sorted (fun x y => p_fechaEnvio x <= p_fechaEnvio y) l ->
    Sorted (fun x y => p_fechaEnvio x <= p_fechaEnvio y)
           (insertarPorFechaEnvio p l).
Proof.
  intros p l Hs. induction Hs as [|q l Hs IH Hhd]; simpl.
  - repeat constructor.
  - destruct (Z.leb_spec (p_fechaEnvio p) (p_fechaEnvio q)).
    + constructor; [now constructor | now constructor].
    + constructor; [exact IH|].
      apply HdRel_insertarPorFechaEnvio; [lia | exact Hhd].
Qed.

(** The candidates of a dated request come earliest send date first, are
    active, and are sent on or after the requested day. *)
Lemma buscarPeriodosActivos_ordenados :
  forall f db candidatos,
    fst (buscarPeriodosActivos None f db) = Ok candidatos ->
    Sorted (fun x y => p_fechaEnvio x <= p_fechaEnvio y)
           (map periodo candidatos)
    /\ Forall (fun pc => isActive (periodo pc) = true
                         /\ f <= p_fechaEnvio (periodo pc)) candidatos.
Proof.
  intros f db candidatos H.
  unfold buscarPeriodosActivos, bind, getDB, ret in H. cbn [fst] in H.
  injection H as <-. split.
  - rewrite map_map. cbn [includeReservasNoCanceladas periodo].
    rewrite map_id. unfold orderByFechaEnvioAsc.
    induction (filter (fun p => isActive p && (f <=? p_fechaEnvio p))
                      (periodos db)) as [|a l IH]; simpl.
    + constructor.
    + now apply Sorted_insertarPorFechaEnvio.
  - apply Forall_forall. intros pc Hin.
    apply in_map_iff in Hin. destruct Hin as (p & <- & Hp).
    apply In_orderByFechaEnvioAsc, filter_In in Hp.
    destruct Hp as [_ Hp]. apply andb_prop in Hp. destruct Hp as [Ha Hd].
    simpl. split; [exact Ha | now apply Z.leb_le].
Qed.

(** * Further properties of the code

    ** parseInt and String *)






(** ** utils/validators.ts: pagination *)




(** Whatever the inputs, a page and a limit that are numbers satisfy
    [1 <= page] and [1 <= limit <= 100], and the offset is
    [(page - 1) * limit], never negative. *)
Lemma normalizePagination_bounds :
  forall (page limit : JsParam) (p l : Z),
    pg_page (normalizePagination page limit) = Some p ->
    pg_limit (normalizePagination page limit) = Some l ->
    1 <= p /\ 1 <= l <= 100
    /\ pg_skip (normalizePagination page limit) = Some ((p - 1) * l)
    /\ 0 <= (p - 1) * l.
Proof.
  intros page limit p l. unfold normalizePagination, mathMax, mathMin.
  cbn [pg_page pg_limit pg_skip].
  destruct (parseIntOr page 1) as [a|]; [|discriminate].
  destruct (parseIntOr limit 20) as [b|]; [|discriminate].
  cbn [option_map]. intros Hp Hl. injection Hp as <-. injection Hl as <-.
  repeat split; try lia. nia.
Qed.




Lemma calculateTotalPages_pos :
  forall (total : Z) (q : positive),
    calculateTotalPages total (Z.pos q) = - ((- total) / Z.pos q).
Proof.
  intros total q. unfold calculateTotalPages, Qceiling, Qfloor.
  cbn [inject_Z Qdiv Qinv Qmult Qopp Qnum Qden].
  now rewrite Z.mul_1_r, Pos.mul_1_l.
Qed.

Lemma calculateTotalPages_spec :
  forall total limit : Z,
    0 < limit ->
    (calculateTotalPages total limit - 1) * limit < total
    <= calculateTotalPages total limit * limit.
Proof.
  intros total limit Hl. destruct limit as [|q|q]; try lia.
  rewrite calculateTotalPages_pos.
  pose proof (Z.div_mod (- total) (Z.pos q) ltac:(lia)) as Hdm.
  pose proof (Z.mod_pos_bound (- total) (Z.pos q) ltac:(lia)) as Hb.
  nia.
Qed.

(** X3. [calculateTotalPages] with a positive limit counts exactly the
    pages that hold rows: page [p] (from 1) starts before the end of the
    [total] rows, that is [(p - 1) * limit < total], exactly when
    [p <= totalPages]; with no rows there is no page. *)
Theorem X3_calculateTotalPages_covers :
  forall total limit p : Z,
    0 < limit -> 0 <= total -> 1 <= p ->
    ((p - 1) * limit < total <-> p <= calculateTotalPages total limit)
    /\ (total = 0 <-> calculateTotalPages total limit = 0).
Proof.
  intros total limit p Hl Ht Hp.
  pose proof (calculateTotalPages_spec total limit Hl) as [H1 H2].
  repeat split; intros; nia.
Qed.

Lemma X3_witness_pages :
  ((3 - 1) * 20 < 41 <-> 3 <= calculateTotalPages 41 20)
  /\ (41 = 0 <-> calculateTotalPages 41 20 = 0).
Proof.
  apply (X3_calculateTotalPages_covers 41 20 3); lia.
Defined.

(** ** Reading reservations *)

Lemma matchZ_own :
  forall (uid n : nat), matchZ (Some (Some (Z.of_nat uid))) n = true -> n = uid.
Proof.
  intros uid n H. unfold matchZ in H. apply Z.eqb_eq in H. lia.
Qed.

Lemma In_firstn_skipn :
  forall (A : Type) (a b : nat) (l : list A) (x : A),
    In x (firstn a (skipn b l)) -> In x l.
Proof.
  intros A a b l x H.
  rewrite <- (firstn_skipn b l). apply in_or_app. right.
  rewrite <- (firstn_skipn a (skipn b l)). apply in_or_app. now left.
Qed.

Lemma matchesWhere_userId :
  forall (w : ReservaWhere) (r : Reserva),
    matchesWhere w r = true -> matchZ (w_userId w) (userId r) = true.
Proof.
  intros w r H. unfold matchesWhere in H.
  repeat (apply andb_prop in H; destruct H as [H ?]). exact H.
Qed.

(** X4. [listReservas] for a standard user: the request never writes; it
    fails only with an internal error, and exactly when the page, the limit
    or the period filter is not a number.  Otherwise every returned row is
    a stored reservation of the requester (whatever [userId] the query
    asks for), at most [limit <= 100] rows are returned, and the reported
    total is the number of the requester's rows that match the filters. *)
Theorem X4_listReservas_standard_user_sees_own_rows :
  forall (createdAtDesc : list Reserva -> list Reserva) (u : AuthUser)
         (q : ListReservasQuery) (db : DB),
    (forall l, Permutation (createdAtDesc l) l) ->
    au_role u = USUARIO ->
    let pag := normalizePagination (q_page q) (q_limit q) in
    match listReservas createdAtDesc (Some u) q db with
    | (Ok resp, db') =>
        db' = db
        /\ pg_page pag = Some (pm_page (lr_pagination resp))
        /\ pg_limit pag = Some (pm_limit (lr_pagination resp))
        /\ parseIntIfTruthy (q_periodoId q) <> Some None
        /\ Forall (fun ri => In (ri_reserva ri) (reservas db)
                             /\ userId (ri_reserva ri) = au_id u
                             /\ ri_user ri = findUniqueUser db (au_id u))
                  (lr_data resp)
        /\ Z.of_nat (List.length (lr_data resp))
           <= pm_limit (lr_pagination resp) <= 100
        /\ pm_total (lr_pagination resp)
           = Z.of_nat (List.length
                         (filter (fun r => (userId r =? au_id u)%nat
                                           && matchesWhere (listReservasWhere u q) r)
                                 (reservas db)))
    | (Err e, db') =>
        db' = db /\ e = Internal
        /\ (pg_page pag = None \/ pg_limit pag = None
            \/ parseIntIfTruthy (q_periodoId q) = Some None)
    end.
Proof.
  intros createdAtDesc u q db Hperm Hrole pag.
  unfold listReservas, bind, getDB, ret, throw.
  fold pag.
  assert (Hw : w_userId (listReservasWhere u q) = Some (Some (Z.of_nat (au_id u)))).
  { unfold listReservasWhere. cbn [w_userId]. rewrite Hrole. reflexivity. }
  assert (Hwp : w_periodoId (listReservasWhere u q)
                = parseIntIfTruthy (q_periodoId q)) by reflexivity.
  destruct (whereValido (listReservasWhere u q)) eqn:Hval; cbn [negb].
  2:{ split; [reflexivity|]. split; [reflexivity|]. right. right.
      unfold whereValido in Hval. rewrite Hw, Hwp in Hval.
      destruct (parseIntIfTruthy (q_periodoId q)) as [[z|]|];
        try discriminate; reflexivity. }
  destruct (pg_page pag) as [page|] eqn:Hp.
  2:{ repeat split; auto. }
  destruct (pg_limit pag) as [limit|] eqn:Hl.
  2:{ repeat split; auto. }
  destruct (normalizePagination_bounds _ _ _ _ Hp Hl)
    as (Hp1 & Hl1 & Hskip & Hs0).
  fold pag in Hskip. rewrite Hskip.
  cbn [lr_data lr_pagination pm_page pm_limit pm_total].
  split; [reflexivity|]. split; [reflexivity|]. split; [reflexivity|].
  split.
  { unfold whereValido in Hval. rewrite Hw, Hwp in Hval.
    intros E. rewrite E in Hval. discriminate. }
  split; [|split].
  - apply Forall_forall. intros ri Hin.
    apply in_map_iff in Hin. destruct Hin as (r & <- & Hin).
    apply In_firstn_skipn in Hin.
    apply (Permutation_in _ (Hperm _)) in Hin.
    apply filter_In in Hin. destruct Hin as [Hin Hm].
    apply matchesWhere_userId in Hm. rewrite Hw in Hm.
    apply matchZ_own in Hm.
    cbn [incluirRelaciones ri_reserva ri_user]. rewrite Hm. auto.
  - split; [|lia]. rewrite length_map.
    pose proof (firstn_le_length (Z.to_nat limit)
                  (skipn (Z.to_nat ((page - 1) * limit))
                         (createdAtDesc
                            (filter (matchesWhere (listReservasWhere u q))
                                    (reservas db))))) as Hle.
    lia.
  - f_equal. f_equal. apply filter_ext_in. intros r _.
    destruct (matchesWhere (listReservasWhere u q) r) eqn:Hm.
    + apply matchesWhere_userId in Hm. rewrite Hw in Hm.
      apply matchZ_own in Hm. rewrite Hm, Nat.eqb_refl. reflexivity.
    + rewrite andb_false_r. reflexivity.
Qed.

(** A standard user reading with [userId=8] still gets only the own row. *)
Lemma X4_witness_own_rows :
  let r1 := mkReserva 1 2500 10 "CDMX" None PENDIENTE 7 1 None None None in
  let r2 := mkReserva 2 1000 10 "CDMX" None PENDIENTE 8 1 None None None in
  let db := mkDB [] [mkPeriodo 1 100 10 true] [r1; r2] [] [] 3 in
  let u := mkAuthUser 7 USUARIO in
  let q := mkListReservasQuery JsUndefined JsUndefined (JsString "8")
                               None None JsUndefined in
  listReservas (@rev Reserva) (Some u) q db
  = (Ok (mkListReservasResponse [incluirRelaciones db r1]
           (mkPaginationMeta 1 20 1 1)), db)
  /\ Forall (fun ri => In (ri_reserva ri) (reservas db)
                       /\ userId (ri_reserva ri) = au_id u
                       /\ ri_user ri = findUniqueUser db (au_id u))
            [incluirRelaciones db r1].
Proof.
  intros r1 r2 db u q.
  assert (Hrun : listReservas (@rev Reserva) (Some u) q db
                 = (Ok (mkListReservasResponse [incluirRelaciones db r1]
                          (mkPaginationMeta 1 20 1 1)), db))
    by (vm_compute; reflexivity).
  split; [exact Hrun|].
  pose proof (X4_listReservas_standard_user_sees_own_rows (@rev Reserva) u q db
                (fun l => Permutation_sym (Permutation_rev l)) eq_refl) as H.
  cbv zeta in H. rewrite Hrun in H.
  exact (proj1 (proj2 (proj2 (proj2 (proj2 H))))).
Defined.

(** ** Who may read, edit and delete a reservation *)

Lemma canEditReserva_inline :
  forall (u : AuthUser) (owner : nat),
    Role_eqb (au_role u) USUARIO && negb (owner =? au_id u)%nat
    = negb (canEditReserva (Some u) owner).
Proof.
  intros u owner. unfold canEditReserva. rewrite (Nat.eqb_sym owner).
  destruct (au_role u); reflexivity.
Qed.

(** X5. The permission test written in line in [getReservaById],
    [updateReserva] and [deleteReserva] is the one of the helpers
    [canEditReserva] and [canDeleteReserva] (which agree).  On a stored
    reservation, when the helper says no each of the three answers 403 with
    its own message and writes nothing; when it says yes the read returns
    the row with its relations, the deletion succeeds and the edit is never
    answered with a 403. *)
Theorem X5_reserva_access_matches_helpers :
  forall (u : AuthUser) (rid : nat) (r : Reserva) (db : DB)
         (body : UpdateReservaDTO),
    findUniqueReserva db rid = Some r ->
    canDeleteReserva (Some u) (userId r) = canEditReserva (Some u) (userId r)
    /\ if canEditReserva (Some u) (userId r) then
         getReservaById (Some u) rid db = (Ok (incluirRelaciones db r), db)
         /\ (exists db', deleteReserva (Some u) rid db = (Ok tt, db'))
         /\ (forall m, fst (updateReserva (Some u) rid body db)
                       <> Err (Forbidden m))
       else
         getReservaById (Some u) rid db
         = (Err (Forbidden INSUFFICIENT_PERMISSIONS), db)
         /\ deleteReserva (Some u) rid db
            = (Err (Forbidden NO_PUEDE_ELIMINAR_RESERVA), db)
         /\ updateReserva (Some u) rid body db
            = (Err (Forbidden NO_PUEDE_EDITAR_RESERVA), db).
Proof.
  intros u rid r db body Hf. split; [reflexivity|].
  assert (Hg : getReservaById (Some u) rid db
               = if canEditReserva (Some u) (userId r)
                 then (Ok (incluirRelaciones db r), db)
                 else (Err (Forbidden INSUFFICIENT_PERMISSIONS), db)).
  { unfold getReservaById, bind, getDB. rewrite Hf, canEditReserva_inline.
    destruct (canEditReserva (Some u) (userId r)); reflexivity. }
  assert (Hd : deleteReserva (Some u) rid db
               = if canEditReserva (Some u) (userId r)
                 then prisma_reserva_delete rid db
                 else (Err (Forbidden NO_PUEDE_ELIMINAR_RESERVA), db)).
  { unfold deleteReserva, bind, getDB. rewrite Hf, canEditReserva_inline.
    destruct (canEditReserva (Some u) (userId r)); reflexivity. }
  rewrite Hg, Hd. clear Hg Hd.
  destruct (canEditReserva (Some u) (userId r)) eqn:Hcan;
    unfold updateReserva; unfold bind at 1; unfold getDB at 1;
    rewrite Hf, canEditReserva_inline, Hcan; cbn [negb].
  - split; [reflexivity|]. split.
    + unfold prisma_reserva_delete. rewrite Hf. eexists. reflexivity.
    + intros m. destruct (upd_libras body) as [l|].
      * unfold bind.
        destruct (calcularLibrasDisponibles (periodoId r) (r_id r) db)
          as [[a|e] db1] eqn:Hc;
          unfold calcularLibrasDisponibles, bind, getDB, ret, throw in Hc;
          destruct (findUniquePeriodo db (periodoId r));
          try discriminate Hc;
          [|cbn [fst]; congruence].
        assert (Hs : db1 = db) by congruence.
        subst db1. unfold ret, throw.
        destruct (a <? parseDecimal l); [cbn [fst]; congruence|].
        unfold prisma_reserva_update. rewrite Hf. cbn [fst]. congruence.
      * unfold bind, ret, prisma_reserva_update. rewrite Hf.
        cbn [fst]. congruence.
  - split; [reflexivity|]. split; reflexivity.
Qed.

(** User 8 may not touch the reservation of user 7. *)
Lemma X5_witness_foreign_reservation :
  let r := mkReserva 1 2500 10 "CDMX" None PENDIENTE 7 1 None None None in
  let db := mkDB [] [mkPeriodo 1 100 10 true] [r] [] [] 2 in
  let u := mkAuthUser 8 USUARIO in
  let body := mkUpdateReservaDTO None None None (Some CANCELADA) in
  canEditReserva (Some u) 7 = false
  /\ getReservaById (Some u) 1 db
     = (Err (Forbidden INSUFFICIENT_PERMISSIONS), db)
  /\ deleteReserva (Some u) 1 db
     = (Err (Forbidden NO_PUEDE_ELIMINAR_RESERVA), db)
  /\ updateReserva (Some u) 1 body db
     = (Err (Forbidden NO_PUEDE_EDITAR_RESERVA), db).
Proof.
  intros r db u body. split; [reflexivity|].
  exact (proj2 (X5_reserva_access_matches_helpers u 1 r db body eq_refl)).
Defined.

(** ** The authorization middlewares *)




Lemma requireRole_passes :
  forall (allowedRoles : list Role) (user : option AuthUser),
    requireRole allowedRoles user = None
    <-> exists u, user = Some u /\ In (au_role u) allowedRoles.
Proof.
  intros roles [u|]; cbn [requireRole].
  - destruct (existsb (Role_eqb (au_role u)) roles) eqn:E; cbn [negb].
    + split; [|reflexivity]. intros _. exists u. split; [reflexivity|].
      apply existsb_exists in E. destruct E as (x & Hin & Hx).
      destruct (au_role u), x; try discriminate; exact Hin.
    + split; [discriminate|]. intros (u' & Hu & Hin). injection Hu as <-.
      assert (existsb (Role_eqb (au_role u)) roles = true).
      { apply existsb_exists. exists (au_role u). split; [exact Hin|].
        destruct (au_role u); reflexivity. }
      congruence.
  - split; [discriminate|]. intros (u & Hu & _). discriminate.
Qed.

(** X7. [requireAdmin] is [requireRole] for the single role
    ADMIN_PRINCIPAL.  [requireRole] lets a request through exactly when it
    is authenticated with one of the allowed roles (so allowing more roles
    never rejects more), answers 401 to an unauthenticated request and 403
    otherwise.  A route guarded by [requireAdmin] changes the store only
    for an administrator, whatever its controller does. *)
Theorem X7_requireAdmin_gate :
  forall (A : Type) (allowedRoles masRoles : list Role)
         (user : option AuthUser) (controller : M A) (db : DB),
    requireAdmin user = requireRole [ADMIN_PRINCIPAL] user
    /\ (requireRole allowedRoles user = None
        <-> exists u, user = Some u /\ In (au_role u) allowedRoles)
    /\ (requireRole allowedRoles user = None ->
        requireRole (allowedRoles ++ masRoles) user = None)
    /\ (forall e, requireRole allowedRoles user = Some e ->
                  statusCode e = match user with
                                 | Some _ => 403
                                 | None => 401
                                 end)
    /\ (snd (conRequireAdmin user controller db) <> db ->
        exists u, user = Some u /\ au_role u = ADMIN_PRINCIPAL
                  /\ conRequireAdmin user controller db
                     = (Handled (fst (controller db)), snd (controller db))).
Proof.
  intros A roles mas user controller db.
  split; [|split; [|split; [|split]]].
  - destruct user as [u|]; [|reflexivity]. cbn [requireAdmin requireRole existsb].
    rewrite orb_false_r. reflexivity.
  - apply requireRole_passes.
  - intros H. apply requireRole_passes in H. apply requireRole_passes.
    destruct H as (u & Hu & Hin). exists u. split; [exact Hu|].
    apply in_or_app. now left.
  - intros e. destruct user as [u|]; cbn [requireRole].
    + destruct (negb (existsb (Role_eqb (au_role u)) roles)); [|discriminate].
      intros H. injection H as <-. reflexivity.
    + intros H. injection H as <-. reflexivity.
  - unfold conRequireAdmin. destruct user as [u|]; cbn [requireAdmin].
    + destruct (au_role u) eqn:Hr; cbn [Role_eqb negb].
      * intros _. exists u. split; [reflexivity|]. split; [exact Hr|].
        destruct (controller db). reflexivity.
      * cbn [snd]. congruence.
    + cbn [snd]. congruence.
Qed.

(** A standard user asking to close period 1 is answered 403 and nothing
    is written; the administrator's request reaches the controller. *)
Lemma X7_witness_close_route :
  let db := mkDB [] [mkPeriodo 1 100 10 true] [] [] [] 1 in
  conRequireAdmin (Some (mkAuthUser 7 USUARIO)) (closePeriodo sinFallos 1) db
  = (Rejected (createForbiddenError INSUFFICIENT_PERMISSIONS), db)
  /\ exists u,
       Some (mkAuthUser 1 ADMIN_PRINCIPAL) = Some u
       /\ au_role u = ADMIN_PRINCIPAL
       /\ conRequireAdmin (Some (mkAuthUser 1 ADMIN_PRINCIPAL))
            (closePeriodo sinFallos 1) db
          = (Handled (fst (closePeriodo sinFallos 1 db)),
             snd (closePeriodo sinFallos 1 db)).
Proof.
  intros db. split; [reflexivity|].
  apply (X7_requireAdmin_gate HistoricoPeriodo [] []
           (Some (mkAuthUser 1 ADMIN_PRINCIPAL)) (closePeriodo sinFallos 1) db).
  vm_compute. discriminate.
Defined.

(** ** Errors as the client sees them *)

(** X8. A request naming a row that does not exist writes nothing and is
    answered 404: the three period operations with the text of
    [PERIODO_NOT_FOUND] and the four reservation operations with the text
    of [RESERVA_NOT_FOUND], each followed by the suffix that
    [createNotFoundError] appends to its argument, so the client reads
    "Periodo no encontrado no encontrado".  Outside development the
    response to a controller's error does not depend on the message of an
    error that is not an [AppError]. *)
Theorem X8_missing_row_is_404_and_writes_nothing :
  forall (development : bool) (otherMessage otro : string) (fallos : Fallos)
         (hoy : Fecha) (u : AuthUser) (pid rid : nat)
         (bodyP : UpdatePeriodoDTO) (bodyR : UpdateReservaDTO)
         (s : StatusReserva) (e : AppError) (db : DB),
    findUniquePeriodo db pid = None ->
    findUniqueReserva db rid = None ->
    (closePeriodo fallos pid db = (Err (NotFound PERIODO_NOT_FOUND), db)
     /\ updatePeriodo pid bodyP db = (Err (NotFound PERIODO_NOT_FOUND), db)
     /\ getPeriodoById pid db = (Err (NotFound PERIODO_NOT_FOUND), db)
     /\ errorHandler development (thrownOf otherMessage (NotFound PERIODO_NOT_FOUND))
        = (404, "Periodo no encontrado no encontrado"))
    /\ (getReservaById (Some u) rid db = (Err (NotFound RESERVA_NOT_FOUND), db)
        /\ updateReserva (Some u) rid bodyR db
           = (Err (NotFound RESERVA_NOT_FOUND), db)
        /\ updateReservaStatus hoy u rid s db
           = (Err (NotFound RESERVA_NOT_FOUND), db)
        /\ deleteReserva (Some u) rid db = (Err (NotFound RESERVA_NOT_FOUND), db)
        /\ errorHandler development (thrownOf otherMessage (NotFound RESERVA_NOT_FOUND))
           = (404, "Reserva no encontrada no encontrado"))
    /\ errorHandler false (thrownOf otherMessage e)
       = errorHandler false (thrownOf otro e).
Proof.
  intros development otherMessage otro fallos hoy u pid rid bodyP bodyR s e db
         Hp Hr.
  split; [|split].
  - unfold closePeriodo, updatePeriodo, getPeriodoById, bind, getDB, throw.
    rewrite Hp. repeat split.
  - unfold getReservaById, updateReserva, updateReservaStatus, deleteReserva,
      bind, getDB, throw.
    rewrite Hr. repeat split.
  - destruct e; reflexivity.
Qed.

Lemma X8_witness_missing_rows :
  let db := mkDB [] [mkPeriodo 1 100 10 true] [] [] [] 1 in
  closePeriodo sinFallos 2 db = (Err (NotFound PERIODO_NOT_FOUND), db)
  /\ deleteReserva (Some (mkAuthUser 7 USUARIO)) 5 db
     = (Err (NotFound RESERVA_NOT_FOUND), db).
Proof.
  intros db.
  destruct (X8_missing_row_is_404_and_writes_nothing
              false "" "" sinFallos 0 (mkAuthUser 7 USUARIO) 2 5
              (mkUpdatePeriodoDTO None None)
              (mkUpdateReservaDTO None None None None) PENDIENTE Internal db
              eq_refl eq_refl)
    as ((Hc & _) & (_ & _ & _ & Hd & _) & _).
  split; [exact Hc | exact Hd].
Defined.

(** ** createPeriodo and getPeriodoActivo *)

Lemma filter_app_length :
  forall (A : Type) (f : A -> bool) (l1 l2 : list A),
    List.length (filter f (l1 ++ l2))
    = (List.length (filter f l1) + List.length (filter f l2))%nat.
Proof.
  intros A f l1 l2. rewrite filter_app. apply length_app.
Qed.

Lemma find_app_absent :
  forall (pid : nat) (l : list PeriodoLibras) (p : PeriodoLibras),
    ~ In pid (map p_id l) -> p_id p = pid ->
    find (fun x => (p_id x =? pid)%nat) (l ++ [p]) = Some p.
Proof.
  intros pid l p Hnot Hp. induction l as [|a l IH]; cbn [app find].
  - rewrite Hp, Nat.eqb_refl. reflexivity.
  - destruct (p_id a =? pid)%nat eqn:E.
    + apply Nat.eqb_eq in E. exfalso. apply Hnot. left. exact E.
    + apply IH. intros H. apply Hnot. right. exact H.
Qed.

(** X9. [createPeriodo]: a send date before today is rejected with a 400
    and nothing is written.  Otherwise one active period with the given
    total and date is appended to the period table and nothing else
    changes: the periods that were active stay active (no check that only
    one period is active), so the number of active periods grows by one.
    When the store assigns an identifier no period has, the new period is
    found under it; when moreover no reservation refers to that identifier
    and the total is not negative, the capacity invariant is preserved. *)
Theorem X9_createPeriodo_appends_active_period :
  forall (hoy : Fecha) (nuevoId : nat) (body : CreatePeriodoDTO) (db : DB),
    let p := mkPeriodo nuevoId (cp_librasTotales body) (cp_fechaEnvio body)
                       true in
    let db' := set_periodos db (periodos db ++ [p]) in
    (cp_fechaEnvio body < hoy ->
     createPeriodo hoy nuevoId body db
     = (Err (BadRequest "La fecha de envío debe ser hoy o en el futuro"), db))
    /\ (hoy <= cp_fechaEnvio body ->
        createPeriodo hoy nuevoId body db = (Ok p, db')
        /\ List.length (filter isActive (periodos db'))
           = S (List.length (filter isActive (periodos db)))
        /\ (~ In nuevoId (map p_id (periodos db)) ->
            findUniquePeriodo db' nuevoId = Some p)
        /\ ((forall r, In r (reservas db) -> periodoId r <> nuevoId) ->
            0 <= cp_librasTotales body ->
            capacidadRespetada db -> capacidadRespetada db')).
Proof.
  intros hoy nuevoId body db p db'. split.
  - intros H. unfold createPeriodo, parseDateWithoutTimezone.
    apply Z.ltb_lt in H. rewrite H. reflexivity.
  - intros H. split; [|split; [|split]].
    + unfold createPeriodo, parseDateWithoutTimezone.
      apply Z.ltb_ge in H. rewrite H. reflexivity.
    + unfold db'. cbn [periodos set_periodos]. rewrite filter_app_length.
      cbn [filter p isActive List.length]. lia.
    + intros Hfresh. unfold findUniquePeriodo, db'. cbn [periodos set_periodos].
      apply find_app_absent; [exact Hfresh | reflexivity].
    + intros Hrefs HT Hcap q Hq. unfold db' in *. cbn [periodos set_periodos] in Hq.
      rewrite librasReservadasDe_set_periodos.
      apply in_app_or in Hq. destruct Hq as [Hq|[<-|[]]]; [now apply Hcap|].
      cbn [p_id p librasTotales].
      assert (Hnone : reservasDePeriodo db nuevoId = []).
      { unfold reservasDePeriodo.
        induction (reservas db) as [|r l IH]; [reflexivity|].
        cbn [filter]. destruct (periodoId r =? nuevoId)%nat eqn:E.
        - apply Nat.eqb_eq in E. exfalso. apply (Hrefs r); [now left|exact E].
        - apply IH. intros r' Hr'. apply Hrefs. now right. }
      unfold librasReservadasDe. rewrite Hnone.
      change (sumLibras (filter noCancelada [])) with 0. lia.
Qed.

(** A second active period is created beside the first. *)
Lemma X9_witness_second_active_period :
  let db := mkDB [] [mkPeriodo 1 100 10 true] [] [] [] 1 in
  let p := mkPeriodo 2 50 20 true in
  createPeriodo 5 2 (mkCreatePeriodoDTO 50 20) db
  = (Ok p, set_periodos db [mkPeriodo 1 100 10 true; p])
  /\ createPeriodo 5 2 (mkCreatePeriodoDTO 50 4) db
     = (Err (BadRequest "La fecha de envío debe ser hoy o en el futuro"), db).
Proof.
  intros db p.
  destruct (X9_createPeriodo_appends_active_period 5 2
              (mkCreatePeriodoDTO 50 20) db) as [_ Hok].
  destruct (X9_createPeriodo_appends_active_period 5 2
              (mkCreatePeriodoDTO 50 4) db) as [Herr _].
  split.
  - apply Hok. cbn. lia.
  - apply Herr. cbn. lia.
Defined.





(** ** createReserva: what a successful request books *)

Lemma filasCreadas_forma :
  forall u e o plan index n,
    List.length (filasCreadas u e o index n plan) = List.length plan
    /\ map r_id (filasCreadas u e o index n plan) = seq n (List.length plan)
    /\ sumLibras (filasCreadas u e o index n plan) = sumPlan plan
    /\ Forall (fun r => estado r = e) (filasCreadas u e o index n plan).
Proof.
  intros u e o plan. induction plan as [|item plan IH]; intros index n.
  - repeat split; constructor.
  - destruct (IH (S index) (S n)) as (Hlen & Hids & Hsum & Hest).
    cbn [filasCreadas List.length map seq sumPlan fold_right].
    rewrite Hlen, Hids, sumLibras_cons, Hsum.
    repeat split. constructor; [reflexivity | exact Hest].
Qed.



(** ** createReserva with a chosen period *)




(** ** The planner fills the candidates in order *)




(** ** updatePeriodo *)



(** ** The status endpoint: who may use it and where it leads *)

Lemma updateReservaStatus_run :
  forall hoy user rid s db r,
    findUniqueReserva db rid = Some r ->
    updateReservaStatus hoy user rid s db
    = if allowed (canChangeReservaStatus (au_role user) (status r) s)
      then (Ok (trasTransicion r s hoy),
            set_reservas db
              (map (fun x => if (r_id x =? rid)%nat
                             then trasTransicion x s hoy else x)
                   (reservas db)))
      else (Err (BadRequest
                   (reasonOr (reason (canChangeReservaStatus
                                        (au_role user) (status r) s))
                             CANNOT_CHANGE_STATUS)), db).
Proof.
  intros hoy user rid s db r Hf.
  destruct (updateReservaStatus hoy user rid s db) as [[r'|e] db'] eqn:Hrun.
  - destruct (updateReservaStatus_ok _ _ _ _ _ _ _ Hrun)
      as (r0 & Hf0 & Hal & Hr & Hdb).
    rewrite Hf in Hf0. injection Hf0 as <-. rewrite Hal. congruence.
  - pose proof (updateReservaStatus_err _ _ _ _ _ _ _ Hrun) as ->.
    unfold updateReservaStatus, bind, getDB, throw in Hrun. rewrite Hf in Hrun.
    destruct (allowed (canChangeReservaStatus (au_role user) (status r) s)).
    + cbn [negb] in Hrun. unfold prisma_reserva_update in Hrun.
      rewrite Hf in Hrun. discriminate.
    + cbn [negb] in Hrun. symmetry. exact Hrun.
Qed.

(** X15. The status endpoint does not look at who owns the reservation.
    A standard user who is not the owner of a CONFIRMADA reservation
    cannot read, edit or delete it, yet the same user's request to mark it
    ENVIADA is accepted and stamps the send date; every other status asked
    by that user is answered 400 with nothing written. *)
Theorem X15_updateReservaStatus_ignores_ownership :
  forall (hoy : Fecha) (u : AuthUser) (rid : nat) (r : Reserva) (db : DB),
    findUniqueReserva db rid = Some r ->
    status r = CONFIRMADA ->
    au_role u = USUARIO ->
    userId r <> au_id u ->
    getReservaById (Some u) rid db
    = (Err (Forbidden INSUFFICIENT_PERMISSIONS), db)
    /\ deleteReserva (Some u) rid db
       = (Err (Forbidden NO_PUEDE_ELIMINAR_RESERVA), db)
    /\ (exists db',
          updateReservaStatus hoy u rid ENVIADA db
          = (Ok (trasTransicion r ENVIADA hoy), db')
          /\ findUniqueReserva db' rid = Some (trasTransicion r ENVIADA hoy)
          /\ r_fechaEnvio (trasTransicion r ENVIADA hoy) = Some hoy)
    /\ (forall s, s <> ENVIADA ->
          exists m, updateReservaStatus hoy u rid s db
                    = (Err (BadRequest m), db)).
Proof.
  intros hoy u rid r db Hf Hst Hrole Hown.
  assert (Hneq : (userId r =? au_id u)%nat = false)
    by (apply Nat.eqb_neq; exact Hown).
  split; [|split; [|split]].
  - unfold getReservaById, bind, getDB. rewrite Hf, Hrole, Hneq. reflexivity.
  - unfold deleteReserva, bind, getDB. rewrite Hf, Hrole, Hneq. reflexivity.
  - rewrite (updateReservaStatus_run hoy u rid ENVIADA db r Hf).
    rewrite Hrole, Hst. cbn [canChangeReservaStatus StatusReserva_eqb orb
                             Role_eqb andb allowed].
    eexists. split; [reflexivity|]. split; [|reflexivity].
    unfold findUniqueReserva. cbn [reservas set_reservas].
    rewrite find_map_update by (intros; apply trasTransicion_id).
    fold (findUniqueReserva db rid). rewrite Hf. cbn [option_map].
    rewrite (find_some_id _ _ _ Hf), Nat.eqb_refl. reflexivity.
  - intros s Hs. rewrite (updateReservaStatus_run hoy u rid s db r Hf).
    rewrite Hrole, Hst.
    destruct s; try contradiction; eexists; reflexivity.
Qed.

Lemma X15_witness_ship_foreign_reservation :
  let r := mkReserva 1 2500 10 "CDMX" None CONFIRMADA 7 1 (Some 3) None None in
  let db := mkDB [] [mkPeriodo 1 100 10 true] [r] [] [] 2 in
  let u := mkAuthUser 8 USUARIO in
  getReservaById (Some u) 1 db = (Err (Forbidden INSUFFICIENT_PERMISSIONS), db)
  /\ fst (updateReservaStatus 9 u 1 ENVIADA db)
     = Ok (mkReserva 1 2500 10 "CDMX" None ENVIADA 7 1 (Some 3) (Some 9) None).
Proof.
  intros r db u.
  assert (Hown : userId r <> au_id u) by discriminate.
  destruct (X15_updateReservaStatus_ignores_ownership 9 u 1 r db
              eq_refl eq_refl eq_refl Hown) as (Hread & _ & _ & _).
  split; [exact Hread | reflexivity].
Defined.

Lemma canChange_rango :
  forall rol a b,
    allowed (canChangeReservaStatus rol a b) = true ->
    (rango a < rango b)%nat /\ esFinal a = false.
Proof.
  intros rol a b H. destruct rol, a, b; try discriminate H; cbn; lia.
Qed.

Lemma peticion_progresa :
  forall hoy user rid0 s db rid r,
    findUniqueReserva db rid = Some r ->
    exists r',
      findUniqueReserva (snd (updateReservaStatus hoy user rid0 s db)) rid
      = Some r'
      /\ (rango (status r) <= rango (status r'))%nat
      /\ (esFinal (status r) = true -> r' = r)
      /\ libras r' = libras r /\ userId r' = userId r
      /\ periodoId r' = periodoId r /\ fecha r' = fecha r.
Proof.
  intros hoy user rid0 s db rid r Hf.
  destruct (updateReservaStatus hoy user rid0 s db) as [[r1|e] db1] eqn:Hrun.
  - apply updateReservaStatus_ok in Hrun.
    destruct Hrun as (r0 & Hf0 & Hal & _ & Hdb). cbn [snd]. subst db1.
    unfold findUniqueReserva in *. cbn [reservas set_reservas].
    rewrite find_map_update by (intros; apply trasTransicion_id).
    rewrite Hf. cbn [option_map].
    destruct (r_id r =? rid0)%nat eqn:Hid.
    + apply Nat.eqb_eq in Hid.
      pose proof (find_some_id _ _ _ Hf) as Hrid.
      rewrite <- Hid, Hrid, Hf in Hf0. injection Hf0 as <-.
      destruct (canChange_rango _ _ _ Hal) as [Hlt Hnf].
      exists (trasTransicion r s hoy). split; [reflexivity|].
      cbn [trasTransicion status libras userId periodoId fecha].
      split; [lia|]. split; [congruence|]. repeat split.
    + exists r. split; [reflexivity|]. split; [lia|]. repeat split.
  - apply updateReservaStatus_err in Hrun. cbn [snd]. subst db1.
    exists r. split; [exact Hf|]. split; [lia|]. repeat split.
Qed.

(** X16. Requests to the status endpoint only move a reservation forward.
    An accepted change goes to a status strictly later on the way
    PENDIENTE, CONFIRMADA, ENVIADA, ENTREGADA (CANCELADA last), and never
    leaves ENTREGADA or CANCELADA.  So after any sequence of status
    requests, by any users and about any reservations, a stored
    reservation is still stored, its status is the same or a later one,
    a delivered or cancelled reservation is unchanged, and weight, owner,
    period and date are what they were. *)
Theorem X16_status_requests_only_advance :
  forall (ps : list PeticionStatus) (db : DB) (rid : nat) (r : Reserva),
    findUniqueReserva db rid = Some r ->
    exists r',
      findUniqueReserva (ejecutarPeticiones ps db) rid = Some r'
      /\ (rango (status r) <= rango (status r'))%nat
      /\ (esFinal (status r) = true -> r' = r)
      /\ libras r' = libras r /\ userId r' = userId r
      /\ periodoId r' = periodoId r /\ fecha r' = fecha r.
Proof.
  induction ps as [|p ps IH]; intros db rid r Hf.
  - exists r. split; [exact Hf|]. split; [lia|]. repeat split.
  - cbn [ejecutarPeticiones fold_left].
    destruct (peticion_progresa (ps_hoy p) (ps_user p) (ps_reservaId p)
                (ps_status p) db rid r Hf)
      as (r1 & Hf1 & Hle1 & Hfin1 & Hl1 & Hu1 & Hp1 & Hd1).
    destruct (IH _ rid r1 Hf1) as (r2 & Hf2 & Hle2 & Hfin2 & Hl2 & Hu2 & Hp2 & Hd2).
    exists r2. split; [exact Hf2|]. split; [lia|].
    split; [|repeat split; congruence].
    intros Hfin. pose proof (Hfin1 Hfin) as E. subst r1. auto.
Qed.

(** Confirm, try to go back to PENDIENTE, ship: the reservation ends
    ENVIADA. *)
Lemma X16_witness_no_way_back :
  let r := mkReserva 1 2500 10 "CDMX" None PENDIENTE 7 1 None None None in
  let db := mkDB [] [mkPeriodo 1 100 10 true] [r] [] [] 2 in
  let admin := mkAuthUser 1 ADMIN_PRINCIPAL in
  let ps := [mkPeticionStatus 5 admin 1 CONFIRMADA;
             mkPeticionStatus 6 admin 1 PENDIENTE;
             mkPeticionStatus 7 admin 1 ENVIADA] in
  option_map status (findUniqueReserva (ejecutarPeticiones ps db) 1)
  = Some ENVIADA
  /\ exists r',
       findUniqueReserva (ejecutarPeticiones ps db) 1 = Some r'
       /\ (rango PENDIENTE <= rango (status r'))%nat
       /\ libras r' = 2500.
Proof.
  intros r db admin ps. split; [reflexivity|].
  destruct (X16_status_requests_only_advance ps db 1 r eq_refl)
    as (r' & Hf & Hle & _ & Hl & _).
  exists r'. split; [exact Hf|]. split; [exact Hle | exact Hl].
Defined.

(** ** The capacity invariant along sequences of requests *)

Lemma sumLibras_filter_le :
  forall (P g : Reserva -> bool) (l : list Reserva),
    Forall (fun r => 0 <= libras r) l ->
    sumLibras (filter P (filter g l)) <= sumLibras (filter P l).
Proof.
  intros P g l H. induction H as [|a l Ha _ IH]; [cbn; lia|].
  cbn [filter]. destruct (g a); cbn [filter]; destruct (P a);
    rewrite ?sumLibras_cons; lia.
Qed.

Lemma map_r_id_update :
  forall (g : Reserva -> Reserva) (rid : nat) (l : list Reserva),
    (forall x, r_id (g x) = r_id x) ->
    map r_id (map (fun x => if (r_id x =? rid)%nat then g x else x) l)
    = map r_id l.
Proof.
  intros g rid l Hg. rewrite map_map. apply map_ext. intros x.
  destruct (r_id x =? rid)%nat; [apply Hg | reflexivity].
Qed.

Lemma map_p_id_update :
  forall (g : PeriodoLibras -> PeriodoLibras) (pid : nat)
         (l : list PeriodoLibras),
    (forall x, p_id (g x) = p_id x) ->
    map p_id (map (fun x => if (p_id x =? pid)%nat then g x else x) l)
    = map p_id l.
Proof.
  intros g pid l Hg. rewrite map_map. apply map_ext. intros x.
  destruct (p_id x =? pid)%nat; [apply Hg | reflexivity].
Qed.

Lemma bienFormada_ext :
  forall db db',
    reservas db' = reservas db ->
    map p_id (periodos db') = map p_id (periodos db) ->
    nextReservaId db' = nextReservaId db ->
    bienFormada db -> bienFormada db'.
Proof.
  intros db db' Hr Hp Hn. unfold bienFormada. rewrite Hr, Hp, Hn. auto.
Qed.

Lemma bienFormada_filter :
  forall db db' (g : Reserva -> bool),
    reservas db' = filter g (reservas db) ->
    map p_id (periodos db') = map p_id (periodos db) ->
    nextReservaId db' = nextReservaId db ->
    bienFormada db -> bienFormada db'.
Proof.
  intros db db' g Hr Hp Hn (Hnd & Hndp & Hpos & Hall).
  unfold bienFormada. rewrite Hr, Hp, Hn.
  split; [apply NoDup_map_filter; exact Hnd|].
  split; [exact Hndp|]. split; [exact Hpos|].
  rewrite Forall_forall in *. intros r Hin. apply filter_In in Hin.
  apply Hall. tauto.
Qed.

Lemma bienFormada_map :
  forall db db' (g : Reserva -> Reserva) (rid : nat),
    reservas db'
    = map (fun x => if (r_id x =? rid)%nat then g x else x) (reservas db) ->
    map p_id (periodos db') = map p_id (periodos db) ->
    nextReservaId db' = nextReservaId db ->
    (forall x, r_id (g x) = r_id x /\ periodoId (g x) = periodoId x) ->
    (forall x, In x (reservas db) -> 0 <= libras x -> 0 <= libras (g x)) ->
    bienFormada db -> bienFormada db'.
Proof.
  intros db db' g rid Hr Hp Hn Hg Hlib (Hnd & Hndp & Hpos & Hall).
  unfold bienFormada. rewrite Hr, Hp, Hn.
  split; [rewrite map_r_id_update by (intros; apply Hg); exact Hnd|].
  split; [exact Hndp|]. split; [exact Hpos|].
  rewrite Forall_forall in *. intros r' Hin.
  apply in_map_iff in Hin. destruct Hin as (x & <- & Hx).
  destruct (Hall x Hx) as (H0 & Hid & Hper).
  destruct (r_id x =? rid)%nat; [|auto].
  destruct (Hg x) as [-> ->]. auto.
Qed.

Lemma capacidadRespetada_le :
  forall db db',
    (forall p', In p' (periodos db') ->
       exists p, In p (periodos db) /\ p_id p = p_id p'
                 /\ librasTotales p = librasTotales p') ->
    (forall pid, In pid (map p_id (periodos db)) ->
       librasReservadasDe db' pid <= librasReservadasDe db pid) ->
    capacidadRespetada db -> capacidadRespetada db'.
Proof.
  intros db db' Hper Hle Hinv p' Hp'.
  destruct (Hper p' Hp') as (p & Hin & Hid & HT).
  specialize (Hinv p Hin).
  specialize (Hle (p_id p) (in_map p_id _ _ Hin)).
  rewrite <- Hid, <- HT. lia.
Qed.

Lemma periodos_desactivados :
  forall (pid : nat) (l : list PeriodoLibras) (p' : PeriodoLibras),
    In p' (map (fun x => if (p_id x =? pid)%nat then desactivar x else x) l) ->
    exists p, In p l /\ p_id p = p_id p' /\ librasTotales p = librasTotales p'.
Proof.
  intros pid l p' Hin. apply in_map_iff in Hin. destruct Hin as (x & <- & Hx).
  exists x. split; [exact Hx|]. destruct (p_id x =? pid)%nat; auto.
Qed.

Lemma bienFormada_libras :
  forall db, bienFormada db -> Forall (fun r => 0 <= libras r) (reservas db).
Proof.
  intros db (_ & _ & _ & Hall). eapply Forall_impl; [|exact Hall].
  cbn. tauto.
Qed.

Lemma librasReservadasDe_filter_le :
  forall db db' (g : Reserva -> bool) (pid : nat),
    bienFormada db ->
    reservas db' = filter g (reservas db) ->
    librasReservadasDe db' pid <= librasReservadasDe db pid.
Proof.
  intros db db' g pid Hwf Hr.
  rewrite !librasReservadasDe_as_filter, Hr.
  apply sumLibras_filter_le. apply bienFormada_libras. exact Hwf.
Qed.

Lemma deleteReserva_tablas :
  forall user rid db,
    snd (deleteReserva user rid db) = db
    \/ snd (deleteReserva user rid db)
       = set_reservas db
           (filter (fun x => negb (r_id x =? rid)%nat) (reservas db)).
Proof.
  intros user rid db. destruct user as [u|]; [|now left].
  unfold deleteReserva, bind, getDB, throw.
  destruct (findUniqueReserva db rid) as [r|] eqn:Hf; [|now left].
  destruct (Role_eqb (au_role u) USUARIO && negb (userId r =? au_id u)%nat);
    [now left|].
  right. unfold prisma_reserva_delete. rewrite Hf. reflexivity.
Qed.

Lemma deleteReserva_estable :
  forall user rid db,
    bienFormada db -> capacidadRespetada db ->
    bienFormada (snd (deleteReserva user rid db))
    /\ capacidadRespetada (snd (deleteReserva user rid db)).
Proof.
  intros user rid db Hwf Hinv.
  destruct (deleteReserva_tablas user rid db) as [->| ->]; [auto|].
  split.
  - eapply bienFormada_filter; [reflexivity..|exact Hwf].
  - eapply capacidadRespetada_le; [| |exact Hinv].
    + intros p' Hp'. exists p'. auto.
    + intros pid _. eapply librasReservadasDe_filter_le; [exact Hwf|].
      reflexivity.
Qed.

Lemma updateReservaStatus_libras :
  forall hoy user rid s db r' db',
    NoDup (map r_id (reservas db)) ->
    updateReservaStatus hoy user rid s db = (Ok r', db') ->
    periodos db' = periodos db
    /\ nextReservaId db' = nextReservaId db
    /\ forall pid,
         librasReservadasDe db' pid
         = librasReservadasDe db pid
           - (if (periodoId r' =? pid)%nat && StatusReserva_eqb s CANCELADA
              then libras r' else 0).
Proof.
  intros hoy user rid s db r' db' Hnd Hrun.
  destruct (updateReservaStatus_ok _ _ _ _ _ _ _ Hrun)
    as (r & Hf & Hal & -> & ->).
  split; [reflexivity|]. split; [reflexivity|]. intros pid.
  rewrite !librasReservadasDe_as_filter. cbn [reservas set_reservas].
  rewrite (sumLibras_filter_updated
             (fun x => (periodoId x =? pid)%nat && noCancelada x)
             (fun x => trasTransicion x s hoy) rid (reservas db) r Hnd Hf).
  destruct (canChange_rango _ _ _ Hal) as [_ Hnf].
  assert (Hnc : noCancelada r = true).
  { unfold noCancelada. destruct (status r); try reflexivity; discriminate. }
  rewrite Hnc.
  assert (Hnc' : noCancelada (trasTransicion r s hoy)
                 = negb (StatusReserva_eqb s CANCELADA)) by reflexivity.
  rewrite Hnc'. cbn [trasTransicion periodoId libras].
  destruct (periodoId r =? pid)%nat; destruct (StatusReserva_eqb s CANCELADA);
    cbn [andb negb]; lia.
Qed.

Lemma updateReservaStatus_estable :
  forall hoy user rid s db,
    bienFormada db -> capacidadRespetada db ->
    bienFormada (snd (updateReservaStatus hoy user rid s db))
    /\ capacidadRespetada (snd (updateReservaStatus hoy user rid s db)).
Proof.
  intros hoy user rid s db Hwf Hinv.
  destruct (updateReservaStatus hoy user rid s db) as [[r'|e] db'] eqn:Hrun;
    cbn [snd].
  - pose proof Hwf as (Hnd & _).
    destruct (updateReservaStatus_libras _ _ _ _ _ _ _ Hnd Hrun)
      as (Hper & Hn & Hlib).
    destruct (updateReservaStatus_ok _ _ _ _ _ _ _ Hrun)
      as (r & Hf & _ & Hr' & Hdb).
    split.
    + eapply (bienFormada_map db db' (fun x => trasTransicion x s hoy) rid);
        [rewrite Hdb; reflexivity | now rewrite Hper | exact Hn | | | exact Hwf].
      * intros x. split; reflexivity.
      * intros x _ H. exact H.
    + eapply capacidadRespetada_le; [| |exact Hinv].
      * intros p' Hp'. rewrite Hper in Hp'. exists p'. auto.
      * intros pid _. rewrite Hlib.
        assert (H0 : 0 <= libras r').
        { subst r'. cbn [trasTransicion libras].
          pose proof (bienFormada_libras db Hwf) as Hall.
          rewrite Forall_forall in Hall. apply Hall.
          unfold findUniqueReserva in Hf. apply find_some in Hf. tauto. }
        destruct ((periodoId r' =? pid)%nat && StatusReserva_eqb s CANCELADA);
          lia.
  - apply updateReservaStatus_err in Hrun. subst db'. auto.
Qed.

(** X17. What an accepted status change does to capacity, in a table
    with unique reservation identifiers: a cancellation gives the
    reservation's weight back to its period and to no other; a
    confirmation, shipment or delivery changes no period's remaining
    capacity.  The period table is not written. *)
Theorem X17_status_change_and_capacity :
  forall (hoy : Fecha) (user : AuthUser) (rid : nat) (s : StatusReserva)
         (db : DB) (r' : Reserva) (db' : DB),
    NoDup (map r_id (reservas db)) ->
    updateReservaStatus hoy user rid s db = (Ok r', db') ->
    periodos db' = periodos db
    /\ forall p,
         capacidadRestante db' p
         = capacidadRestante db p
           + (if (periodoId r' =? p_id p)%nat then
                match s with
                | CANCELADA => libras r'
                | _ => 0
                end
              else 0).
Proof.
  intros hoy user rid s db r' db' Hnd Hrun.
  destruct (updateReservaStatus_libras _ _ _ _ _ _ _ Hnd Hrun)
    as (Hper & _ & Hlib).
  split; [exact Hper|]. intros p. unfold capacidadRestante. rewrite Hlib.
  destruct (periodoId r' =? p_id p)%nat; destruct s; cbn [andb StatusReserva_eqb];
    lia.
Qed.

(** Cancelling a 25-pound reservation of a period of 100 pounds brings
    the remaining capacity from 75 back to 100 pounds. *)
Lemma X17_witness_cancel_frees :
  let r := mkReserva 1 2500 10 "CDMX" None PENDIENTE 7 1 None None None in
  let p := mkPeriodo 1 100 10 true in
  let db := mkDB [] [p] [r] [] [] 2 in
  let admin := mkAuthUser 1 ADMIN_PRINCIPAL in
  let db' := snd (updateReservaStatus 5 admin 1 CANCELADA db) in
  capacidadRestante db p = 7500 /\ capacidadRestante db' p = 10000.
Proof.
  intros r p db admin db'. split; [reflexivity|].
  assert (Hnd : NoDup (map r_id (reservas db)))
    by (repeat constructor; simpl; tauto).
  destruct (X17_status_change_and_capacity 5 admin 1 CANCELADA db
              (trasTransicion r CANCELADA 5) db' Hnd eq_refl) as [_ Hcap].
  rewrite (Hcap p). reflexivity.
Defined.

Lemma bienFormada_sin_cero :
  forall db, bienFormada db -> findUniqueReserva db 0 = None.
Proof.
  intros db (_ & _ & _ & Hall).
  destruct (findUniqueReserva db 0) as [r|] eqn:Hf; [|reflexivity].
  unfold findUniqueReserva in Hf. pose proof (find_some_id _ _ _ Hf) as Hid.
  apply find_some in Hf. destruct Hf as [Hin _].
  rewrite Forall_forall in Hall. specialize (Hall r Hin). lia.
Qed.

Lemma updateReserva_estable :
  forall user rid body db,
    admisible db (PUpdateReserva user rid body) ->
    bienFormada db -> capacidadRespetada db ->
    bienFormada (snd (updateReserva user rid body db))
    /\ capacidadRespetada (snd (updateReserva user rid body db)).
Proof.
  intros user rid body db Hadm Hwf Hinv. cbn [admisible] in Hadm.
  split.
  - destruct (updateReserva_outcome user rid body db)
      as [->|(r & nl & Hf & -> & Hnl)]; [exact Hwf|].
    eapply (bienFormada_map db _ _ rid);
      [reflexivity | reflexivity | reflexivity | | | exact Hwf].
    + intros x. split; reflexivity.
    + intros x _ Hx. cbn [applyUpdateData libras ud_libras].
      destruct Hnl as [[_ ->]|(l & p & Hl & -> & _)]; cbn [orElse];
        [exact Hx|].
      rewrite Hl in Hadm. exact Hadm.
  - destruct (Nat.eq_dec rid 0) as [->|Hnz].
    + destruct (updateReserva_outcome user 0%nat body db)
        as [->|(r & nl & Hf & _)]; [exact Hinv|].
      rewrite (bienFormada_sin_cero db Hwf) in Hf. discriminate.
    + pose proof Hwf as (Hnd & Hndp & _).
      apply updateReserva_preserva_capacidad; auto.
      * apply Forall_forall. apply bienFormada_libras. exact Hwf.
      * intros l Hl. rewrite Hl in Hadm. exact Hadm.
      * intros r _ _ Hl. rewrite Hl in Hadm. left. exact Hadm.
Qed.

Lemma createReserva_estable :
  forall user body db,
    bienFormada db -> capacidadRespetada db ->
    bienFormada (snd (createReserva user body db))
    /\ capacidadRespetada (snd (createReserva user body db)).
Proof.
  intros user body db Hwf Hinv.
  split; [|apply createReserva_preserva_capacidad; [apply Hwf | exact Hinv]].
  destruct (createReserva user body db) as [[data|e] db'] eqn:Hrun; cbn [snd].
  2:{ apply createReserva_err in Hrun. now subst db'. }
  destruct user as [u|]; [|discriminate].
  destruct (createReserva_ok _ _ _ _ _ Hrun)
    as (cs & plan & w' & Hcs & Hp & _ & _ & ->).
  destruct Hwf as (Hnd & Hndp & Hpos & Hall).
  set (n := nextReservaId db) in *.
  set (filas := filasCreadas u (dto_estado body) (dto_observaciones body) 0 n
                             plan).
  destruct (filasCreadas_forma u (dto_estado body) (dto_observaciones body)
              plan 0 n) as (Hlen & Hids & _ & _).
  fold filas in Hlen, Hids.
  destruct (planificar_plan (dto_fecha body) cs
              (parseDecimal (dto_libras body)) [])
    as (extra & Hextra & _ & Hval & Hcand).
  rewrite Hp in Hextra. cbn [snd app] in Hextra. subst extra.
  pose proof (buscarPeriodosActivos_candidatos _ _ _ _ Hcs) as Hcs'.
  pose proof (filasCreadas_entradas u (dto_estado body)
                (dto_observaciones body) plan 0 n) as H2.
  fold filas in H2.
  assert (Hfilas : Forall (fun r => 0 <= libras r
                                    /\ In (periodoId r)
                                          (map p_id (periodos db))) filas).
  { assert (Hq : Forall (fun item => entradaValida item
                                     /\ In (pl_periodo item) cs) plan).
    { rewrite Forall_forall in *. auto. }
    eapply Forall2_Forall_left; [|exact H2|exact Hq].
    intros r item (Hl & _ & Hper & _) ((Hgt & _) & Hin).
    rewrite Forall_forall in Hcs'. destruct (Hcs' _ Hin) as (Hinp & _).
    rewrite Hl, Hper. split; [lia|]. apply in_map. exact Hinp. }
  unfold bienFormada. cbn [reservas periodos nextReservaId].
  split; [|split; [exact Hndp|split; [lia|]]].
  - rewrite map_app, Hids. apply NoDup_app; [exact Hnd | apply seq_NoDup |].
    intros i Hi Hi'. apply in_seq in Hi'. apply in_map_iff in Hi.
    destruct Hi as (r & <- & Hr). rewrite Forall_forall in Hall.
    specialize (Hall r Hr). fold n in Hall. lia.
  - apply Forall_app. split.
    + eapply Forall_impl; [|exact Hall]. cbn. intros r (H0 & Hid & Hper).
      fold n in Hid. repeat split; auto; lia.
    + rewrite Forall_forall in *. intros r Hr.
      destruct (Hfilas r Hr) as [H0 Hper].
      assert (Hin : In (r_id r) (seq n (List.length plan))).
      { rewrite <- Hids. apply in_map. exact Hr. }
      apply in_seq in Hin. repeat split; auto; lia.
Qed.

Lemma updatePeriodo_tablas :
  forall pid body db,
    reservas (snd (updatePeriodo pid body db)) = reservas db
    /\ nextReservaId (snd (updatePeriodo pid body db)) = nextReservaId db
    /\ map p_id (periodos (snd (updatePeriodo pid body db)))
       = map p_id (periodos db).
Proof.
  intros pid body db.
  remember (updatePeriodo pid body db) as res eqn:Hres.
  unfold updatePeriodo in Hres. unfold bind at 1 in Hres.
  unfold getDB at 1 in Hres.
  destruct (findUniquePeriodo db pid) as [p|] eqn:Hp; [|subst res; auto].
  assert (Hupd : forall f,
            (forall x, p_id (f x) = p_id x) ->
            res = prisma_periodo_update pid f db ->
            reservas (snd res) = reservas db
            /\ nextReservaId (snd res) = nextReservaId db
            /\ map p_id (periodos (snd res)) = map p_id (periodos db)).
  { intros f Hf0 ->. unfold prisma_periodo_update. rewrite Hp.
    cbn [snd reservas periodos nextReservaId set_periodos].
    split; [reflexivity|]. split; [reflexivity|].
    apply map_p_id_update. exact Hf0. }
  unfold bind, ret, throw in Hres.
  destruct (updp_librasTotales body) as [t|].
  - destruct (t <? librasTotales p).
    + match type of Hres with
      | context [if ?c then _ else _] => destruct c
      end; [subst res; auto|]. eapply Hupd; [|exact Hres]. reflexivity.
    + eapply Hupd; [|exact Hres]. reflexivity.
  - eapply Hupd; [|exact Hres]. reflexivity.
Qed.

Lemma updatePeriodo_estable :
  forall pid body db,
    bienFormada db -> capacidadRespetada db ->
    bienFormada (snd (updatePeriodo pid body db))
    /\ capacidadRespetada (snd (updatePeriodo pid body db)).
Proof.
  intros pid body db Hwf Hinv.
  destruct (updatePeriodo_tablas pid body db) as (Hr & Hn & Hp).
  split; [|apply updatePeriodo_preserva_capacidad; exact Hinv].
  eapply bienFormada_ext; eauto.
Qed.

Lemma closePeriodo_tablas :
  forall fallos pid db,
    nextReservaId (snd (closePeriodo fallos pid db)) = nextReservaId db
    /\ ((reservas (snd (closePeriodo fallos pid db)) = reservas db
         /\ periodos (snd (closePeriodo fallos pid db)) = periodos db)
        \/ (reservas (snd (closePeriodo fallos pid db))
            = filter (fun r => negb (periodoId r =? pid)%nat) (reservas db)
            /\ (periodos (snd (closePeriodo fallos pid db)) = periodos db
                \/ periodos (snd (closePeriodo fallos pid db))
                   = map (fun x => if (p_id x =? pid)%nat
                                   then desactivar x else x)
                         (periodos db)))).
Proof.
  intros fallos pid db.
  remember (closePeriodo fallos pid db) as res eqn:Hres.
  assert (Hsame : forall hp hr,
            res = (Err Internal,
                   mkDB (users db) (periodos db) (reservas db) hp hr
                        (nextReservaId db))
            \/ res = (Err Internal, db)
            \/ res = (Err (NotFound PERIODO_NOT_FOUND), db) ->
            nextReservaId (snd res) = nextReservaId db
            /\ ((reservas (snd res) = reservas db
                 /\ periodos (snd res) = periodos db)
                \/ (reservas (snd res)
                    = filter (fun r => negb (periodoId r =? pid)%nat)
                             (reservas db)
                    /\ (periodos (snd res) = periodos db
                        \/ periodos (snd res)
                           = map (fun x => if (p_id x =? pid)%nat
                                           then desactivar x else x)
                                 (periodos db))))).
  { intros hp hr [->|[->| ->]]; cbn [snd]; split; try reflexivity;
      left; split; reflexivity. }
  destruct (findUniquePeriodo db pid) as [p|] eqn:Hp.
  2:{ apply (Hsame [] []). right. right. subst res.
      unfold closePeriodo, bind, getDB, throw. rewrite Hp. reflexivity. }
  pose proof (findUniquePeriodo_id _ _ _ Hp) as Hid.
  destruct (mapOption (historicoDeReserva db p) (reservasDePeriodo db pid))
    as [hs|] eqn:Hhs.
  - rewrite (closePeriodo_run fallos db pid p hs Hp Hhs) in Hres.
    cbv zeta in Hres.
    destruct (fallos EscHistoricoPeriodo);
      [apply (Hsame [] []); auto|].
    destruct (snd (promiseAllCreates fallos 0 hs));
      [eapply Hsame; left; exact Hres|].
    destruct (fallos EscDeleteMany); [eapply Hsame; left; exact Hres|].
    destruct (fallos EscDesactivar); subst res; cbn [snd];
      (split; [reflexivity|]); right; (split; [reflexivity|]);
      [left | right]; reflexivity.
  - unfold closePeriodo in Hres. unfold bind at 1 in Hres.
    unfold getDB at 1 in Hres. rewrite Hp, Hid, Hhs in Hres.
    unfold bind, prisma_historicoPeriodo_create, throw in Hres.
    destruct (fallos EscHistoricoPeriodo);
      [apply (Hsame [] []); auto|].
    eapply Hsame. left. exact Hres.
Qed.

Lemma closePeriodo_estable :
  forall fallos pid db,
    bienFormada db -> capacidadRespetada db ->
    bienFormada (snd (closePeriodo fallos pid db))
    /\ capacidadRespetada (snd (closePeriodo fallos pid db)).
Proof.
  intros fallos pid db Hwf Hinv.
  destruct (closePeriodo_tablas fallos pid db) as (Hn & [[Hr Hp]|[Hr Hp]]).
  - split.
    + eapply bienFormada_ext; eauto. now rewrite Hp.
    + eapply capacidadRespetada_le; [| |exact Hinv].
      * intros p' Hp'. rewrite Hp in Hp'. exists p'. auto.
      * intros q _. rewrite !librasReservadasDe_as_filter, Hr. lia.
  - assert (Hids : map p_id (periodos (snd (closePeriodo fallos pid db)))
                   = map p_id (periodos db)).
    { destruct Hp as [->| ->]; [reflexivity|].
      apply map_p_id_update. reflexivity. }
    split.
    + eapply bienFormada_filter; eauto.
    + eapply capacidadRespetada_le; [| |exact Hinv].
      * intros p' Hp'. destruct Hp as [Hp|Hp]; rewrite Hp in Hp'.
        -- exists p'. auto.
        -- eapply periodos_desactivados. exact Hp'.
      * intros q _. eapply librasReservadasDe_filter_le; eauto.
Qed.

Lemma createPeriodo_estable :
  forall hoy nuevoId body db,
    ~ In nuevoId (map p_id (periodos db)) ->
    0 <= cp_librasTotales body ->
    bienFormada db -> capacidadRespetada db ->
    bienFormada (snd (createPeriodo hoy nuevoId body db))
    /\ capacidadRespetada (snd (createPeriodo hoy nuevoId body db)).
Proof.
  intros hoy nuevoId body db Hfresh HT Hwf Hinv.
  unfold createPeriodo, parseDateWithoutTimezone, prisma_periodo_create, throw.
  destruct (cp_fechaEnvio body <? hoy); cbn [snd]; [auto|].
  set (p := mkPeriodo nuevoId (cp_librasTotales body) (cp_fechaEnvio body) true).
  pose proof Hwf as (Hnd & Hndp & Hpos & Hall).
  split.
  - unfold bienFormada. cbn [reservas periodos nextReservaId set_periodos].
    rewrite map_app. cbn [map p_id p].
    split; [exact Hnd|]. split; [|split; [exact Hpos|]].
    + apply NoDup_app; [exact Hndp | repeat constructor; simpl; tauto |].
      intros i Hi [<-|[]]. contradiction.
    + eapply Forall_impl; [|exact Hall]. cbn. intros r (H0 & Hid & Hper).
      split; [exact H0|]. split; [exact Hid|]. apply in_or_app. now left.
  - intros q Hq. cbn [periodos set_periodos] in Hq.
    rewrite librasReservadasDe_set_periodos.
    apply in_app_or in Hq. destruct Hq as [Hq|[<-|[]]]; [now apply Hinv|].
    cbn [p_id p librasTotales].
    rewrite librasReservadasDe_as_filter.
    assert (Hnone : filter (fun r => (periodoId r =? nuevoId)%nat
                                     && noCancelada r) (reservas db) = []).
    { rewrite Forall_forall in Hall.
      induction (reservas db) as [|r l IH]; [reflexivity|].
      cbn [filter]. destruct (periodoId r =? nuevoId)%nat eqn:E.
      - apply Nat.eqb_eq in E. exfalso. apply Hfresh. rewrite <- E.
        apply (Hall r). now left.
      - cbn [andb]. apply IH.
        + inversion Hnd; assumption.
        + intros x Hx. apply Hall. now right. }
    rewrite Hnone. change (sumLibras []) with 0. lia.
Qed.

Lemma conRequireAdmin_snd :
  forall (A : Type) (user : option AuthUser) (c : M A) (db : DB),
    snd (conRequireAdmin user c db) = db
    \/ snd (conRequireAdmin user c db) = snd (c db).
Proof.
  intros A user c db. unfold conRequireAdmin.
  destruct (requireAdmin user); [now left|].
  right. destruct (c db). reflexivity.
Qed.

Lemma ejecutar_estable :
  forall (p : Peticion) (db : DB),
    admisible db p ->
    bienFormada db -> capacidadRespetada db ->
    bienFormada (ejecutar db p) /\ capacidadRespetada (ejecutar db p).
Proof.
  intros p db Hadm Hwf Hinv. destruct p; cbn [ejecutar].
  - apply createReserva_estable; assumption.
  - apply updateReserva_estable; assumption.
  - apply updateReservaStatus_estable; assumption.
  - apply deleteReserva_estable; assumption.
  - destruct (conRequireAdmin_snd _ user (createPeriodo hoy nuevoId body) db)
      as [->| ->]; [auto|].
    destruct Hadm as [Hfresh HT]. apply createPeriodo_estable; assumption.
  - destruct (conRequireAdmin_snd _ user (updatePeriodo periodoId_ body) db)
      as [->| ->]; [auto|].
    apply updatePeriodo_estable; assumption.
  - destruct (conRequireAdmin_snd _ user (closePeriodo fallos periodoId_) db)
      as [->| ->]; [auto|].
    apply closePeriodo_estable; assumption.
Qed.

(** X18. The capacity invariant along any sequence of requests.  Start
    from a well-formed store (unique identifiers, the reservation counter
    above the identifiers in use, reservations referring to stored
    periods, weights not negative) in which no period is over capacity.
    Run any sequence of reservation creations, edits, status changes and
    deletions and of period creations, edits and closings (the period
    requests behind the administrator gate, the closings with any of
    their writes rejected by the store), by any users, failing or not,
    provided that a new period gets an unused identifier and a total that
    is not negative, an edited weight is not negative, and an edit of a
    reservation that changes its status also gives its weight.  Then the
    store stays well formed and no period is ever over capacity. *)
Theorem X18_capacity_invariant_along_requests :
  forall (ps : list Peticion) (db : DB),
    bienFormada db ->
    invarianteCapacidad db = true ->
    admisibles db ps ->
    bienFormada (fold_left ejecutar ps db)
    /\ invarianteCapacidad (fold_left ejecutar ps db) = true.
Proof.
  induction ps as [|p ps IH]; intros db Hwf Hinv Hadm.
  - split; assumption.
  - cbn [fold_left]. destruct Hadm as [Hp Hps].
    apply invarianteCapacidad_spec in Hinv.
    destruct (ejecutar_estable p db Hp Hwf Hinv) as [Hwf' Hinv'].
    apply IH; [exact Hwf' | | exact Hps].
    apply invarianteCapacidad_spec. exact Hinv'.
Qed.

(** Ana books the whole period, the administrator cancels her booking,
    Luis books the whole period, Ana asks to revive hers giving its
    weight: the last request is rejected and the period holds 100 of its
    100 pounds. *)
Lemma X18_witness_revive_with_weight :
  let p := mkPeriodo 1 100 10 true in
  let db0 := mkDB [] [p] [] [] [] 1 in
  let ana := mkAuthUser 7 USUARIO in
  let luis := mkAuthUser 8 USUARIO in
  let admin := mkAuthUser 1 ADMIN_PRINCIPAL in
  let pedir := mkCreateReservaDTO (100 # 1) 10 "CDMX" None None in
  let ps := [PCreateReserva (Some ana) pedir;
             PUpdateReservaStatus 3 admin 1 CANCELADA;
             PCreateReserva (Some luis) pedir;
             PUpdateReserva (Some ana) 1
               (mkUpdateReservaDTO (Some (100 # 1)) None None
                                   (Some PENDIENTE))] in
  librasReservadasDe (fold_left ejecutar ps db0) 1 = 10000
  /\ invarianteCapacidad (fold_left ejecutar ps db0) = true.
Proof.
  intros p db0 ana luis admin pedir ps. split; [vm_compute; reflexivity|].
  apply (X18_capacity_invariant_along_requests ps db0).
  - unfold bienFormada. cbn [reservas periodos nextReservaId db0 map].
    repeat split; try constructor; try lia.
    + simpl. tauto.
    + constructor.
  - reflexivity.
  - cbn [admisibles ps admisible upd_libras]. repeat split.
    vm_compute. discriminate.
Defined.

(** ** Closing a period again *)

Lemma filter_idem :
  forall (A : Type) (g : A -> bool) (l : list A),
    filter g (filter g l) = filter g l.
Proof.
  intros A g l. induction l as [|a l IH]; [reflexivity|].
  cbn [filter]. destruct (g a) eqn:E; cbn [filter]; rewrite ?E, IH;
    reflexivity.
Qed.

Lemma closePeriodo_ok_run :
  forall pid db hp db1,
    closePeriodo sinFallos pid db = (Ok hp, db1) ->
    exists p hs,
      findUniquePeriodo db pid = Some p
      /\ mapOption (historicoDeReserva db p) (reservasDePeriodo db pid)
         = Some hs
      /\ hp = historicoDePeriodo db p
      /\ db1 = mkDB (users db)
                 (map (fun x => if (p_id x =? pid)%nat then desactivar x else x)
                      (periodos db))
                 (filter (fun r => negb (periodoId r =? pid)%nat) (reservas db))
                 (historicoPeriodos db ++ [hp])
                 (historicoReservas db ++ hs)
                 (nextReservaId db).
Proof.
  intros pid db hp db1 Hrun.
  destruct (findUniquePeriodo db pid) as [p|] eqn:Hp.
  2:{ unfold closePeriodo, bind, getDB, throw in Hrun. rewrite Hp in Hrun.
      discriminate. }
  pose proof (findUniquePeriodo_id _ _ _ Hp) as Hid.
  destruct (mapOption (historicoDeReserva db p) (reservasDePeriodo db pid))
    as [hs|] eqn:Hhs.
  - rewrite (closePeriodo_run sinFallos db pid p hs Hp Hhs) in Hrun.
    cbv zeta in Hrun. rewrite promiseAllCreates_sinFallos in Hrun.
    cbn [sinFallos fst snd] in Hrun. injection Hrun as <- <-.
    exists p, hs. repeat split. exact Hhs.
  - unfold closePeriodo in Hrun. unfold bind at 1 in Hrun.
    unfold getDB at 1 in Hrun. rewrite Hp, Hid, Hhs in Hrun.
    unfold bind, prisma_historicoPeriodo_create, throw in Hrun.
    cbn [sinFallos] in Hrun. discriminate.
Qed.

(** X19. [closePeriodo] does not ask whether the period is still active.
    After a period has been closed, a second request to close it succeeds
    as well: it appends a second aggregate row for the same period, with
    the period's total, nothing reserved, no reservation and no user, and
    changes nothing else (no reservation is left to copy or delete, and
    the period stays inactive). *)
Theorem X19_closePeriodo_can_be_repeated :
  forall (pid : nat) (db : DB) (hp : HistoricoPeriodo) (db1 : DB),
    closePeriodo sinFallos pid db = (Ok hp, db1) ->
    exists p hp2,
      findUniquePeriodo db pid = Some p
      /\ hp2 = mkHistoricoPeriodo (librasTotales p) 0 (100 * librasTotales p)
                                  (p_fechaEnvio p) 0 0
      /\ closePeriodo sinFallos pid db1
         = (Ok hp2, set_historicoPeriodos db1
                      (historicoPeriodos db ++ [hp; hp2])).
Proof.
  intros pid db hp db1 Hrun.
  destruct (closePeriodo_ok_run pid db hp db1 Hrun)
    as (p & hs & Hp & Hhs & Hhp & Hdb1).
  pose proof (findUniquePeriodo_id _ _ _ Hp) as Hid.
  exists p. eexists. split; [exact Hp|]. split; [reflexivity|].
  assert (Hp1 : findUniquePeriodo db1 pid = Some (desactivar p)).
  { rewrite Hdb1. unfold findUniquePeriodo. cbn [periodos].
    rewrite find_map_update_periodo by reflexivity.
    fold (findUniquePeriodo db pid). rewrite Hp. cbn [option_map].
    rewrite Hid, Nat.eqb_refl. reflexivity. }
  assert (Hres1 : reservasDePeriodo db1 pid = []).
  { rewrite Hdb1. unfold reservasDePeriodo. cbn [reservas].
    apply reservasDePeriodo_deleteMany_same. }
  assert (Hhs1 : mapOption (historicoDeReserva db1 (desactivar p))
                           (reservasDePeriodo db1 pid) = Some []).
  { rewrite Hres1. reflexivity. }
  rewrite (closePeriodo_run sinFallos db1 pid (desactivar p) [] Hp1 Hhs1).
  cbv zeta. cbn [sinFallos promiseAllCreates fst snd].
  assert (Hhp2 : historicoDePeriodo db1 (desactivar p)
                 = mkHistoricoPeriodo (librasTotales p) 0
                     (100 * librasTotales p) (p_fechaEnvio p) 0 0).
  { unfold historicoDePeriodo. cbn [desactivar p_id librasTotales p_fechaEnvio].
    rewrite Hid, Hres1. cbn [filter map nodup List.length].
    change (sumLibras []) with 0. rewrite Z.sub_0_r. reflexivity. }
  rewrite Hhp2. f_equal.
  assert (Hmap : map (fun x => if (p_id x =? pid)%nat then desactivar x else x)
                     (periodos db1) = periodos db1).
  { rewrite Hdb1. cbn [periodos]. rewrite map_map. apply map_ext. intros x.
    destruct (p_id x =? pid)%nat eqn:E; cbn [desactivar p_id]; rewrite E;
      reflexivity. }
  assert (Hfil : filter (fun r => negb (periodoId r =? pid)%nat) (reservas db1)
                 = reservas db1).
  { rewrite Hdb1. cbn [reservas]. apply filter_idem. }
  unfold set_historicoPeriodos, set_periodos, set_reservas,
    set_historicoReservas.
  cbn [users periodos reservas historicoPeriodos historicoReservas
       nextReservaId].
  rewrite Hmap, Hfil, app_nil_r.
  assert (HhP : historicoPeriodos db1 = (historicoPeriodos db ++ [hp])%list)
    by (rewrite Hdb1; reflexivity).
  rewrite HhP, <- app_assoc. reflexivity.
Qed.

(** Closing an empty period of 100 pounds twice leaves two aggregate rows
    for it. *)
Lemma X19_witness_closed_twice :
  let p := mkPeriodo 1 100 10 true in
  let db := mkDB [] [p] [] [] [] 1 in
  let hp := mkHistoricoPeriodo 100 0 10000 10 0 0 in
  let db1 := mkDB [] [mkPeriodo 1 100 10 false] [] [hp] [] 1 in
  closePeriodo sinFallos 1 db = (Ok hp, db1)
  /\ closePeriodo sinFallos 1 db1
     = (Ok hp, set_historicoPeriodos db1 [hp; hp]).
Proof.
  intros p db hp db1.
  assert (Hrun : closePeriodo sinFallos 1 db = (Ok hp, db1)) by reflexivity.
  split; [exact Hrun|].
  destruct (X19_closePeriodo_can_be_repeated 1 db hp db1 Hrun)
    as (p0 & hp2 & Hp0 & Hhp2 & Hrun2).
  vm_compute in Hp0. injection Hp0 as <-. subst hp2. exact Hrun2.
Defined.

(** ** Editing the weight of a reservation *)



(** ** Rounding a weight *)



(** ** The periods offered and the candidates of a request *)

Lemma insertarPorFechaEnvio_primero :
  forall p l,
    Forall (fun x => p_fechaEnvio p <= p_fechaEnvio x) l ->
    insertarPorFechaEnvio p l = p :: l.
Proof.
  intros p l H. destruct H as [|q l Hq _]; [reflexivity|].
  cbn [insertarPorFechaEnvio].
  apply Z.leb_le in Hq. rewrite Hq. reflexivity.
Qed.

Lemma Sorted_desde :
  forall q l,
    Sorted (fun x y => p_fechaEnvio x <= p_fechaEnvio y) (q :: l) ->
    Forall (fun x => p_fechaEnvio q <= p_fechaEnvio x) l.
Proof.
  intros q l H. apply Sorted_StronglySorted in H.
  - inversion H; assumption.
  - intros x y z Hxy Hyz. lia.
Qed.

Lemma filter_insertarPorFechaEnvio :
  forall (g : PeriodoLibras -> bool) p l,
    Sorted (fun x y => p_fechaEnvio x <= p_fechaEnvio y) l ->
    filter g (insertarPorFechaEnvio p l)
    = if g p then insertarPorFechaEnvio p (filter g l) else filter g l.
Proof.
  intros g p l Hs. induction l as [|q l IH]; cbn [insertarPorFechaEnvio filter].
  - destruct (g p); reflexivity.
  - pose proof (Sorted_desde q l Hs) as Hq.
    assert (Hs' : Sorted (fun x y => p_fechaEnvio x <= p_fechaEnvio y) l)
      by (inversion Hs; assumption).
    specialize (IH Hs').
    destruct (Z.leb_spec (p_fechaEnvio p) (p_fechaEnvio q)) as [Hle|Hgt].
    + cbn [filter]. destruct (g p) eqn:Hgp; [|reflexivity].
      destruct (g q) eqn:Hgq.
      * cbn [insertarPorFechaEnvio]. apply Z.leb_le in Hle. rewrite Hle.
        reflexivity.
      * symmetry. apply insertarPorFechaEnvio_primero.
        rewrite Forall_forall in *. intros x Hx. apply filter_In in Hx.
        specialize (Hq x (proj1 Hx)). lia.
    + cbn [filter]. rewrite IH. destruct (g q) eqn:Hgq.
      * destruct (g p); [|reflexivity].
        cbn [insertarPorFechaEnvio].
        apply Z.leb_gt in Hgt. rewrite Hgt. reflexivity.
      * reflexivity.
Qed.

Lemma Sorted_orderByFechaEnvioAsc :
  forall l,
    Sorted (fun x y => p_fechaEnvio x <= p_fechaEnvio y)
           (orderByFechaEnvioAsc l).
Proof.
  induction l as [|a l IH]; cbn [orderByFechaEnvioAsc fold_right].
  - constructor.
  - apply Sorted_insertarPorFechaEnvio. exact IH.
Qed.

Lemma filter_orderByFechaEnvioAsc :
  forall (g : PeriodoLibras -> bool) l,
    filter g (orderByFechaEnvioAsc l) = orderByFechaEnvioAsc (filter g l).
Proof.
  intros g l. induction l as [|a l IH]; [reflexivity|].
  cbn [orderByFechaEnvioAsc fold_right filter].
  fold (orderByFechaEnvioAsc l).
  rewrite filter_insertarPorFechaEnvio by apply Sorted_orderByFechaEnvioAsc.
  rewrite IH. destruct (g a); reflexivity.
Qed.

(** X22. The periods [getPeriodosDisponibles] offers and the candidates
    [createReserva] allocates from.  The offer never writes and lists
    exactly the active periods, earliest send date first.  The candidates
    of a request without a chosen period are the offered periods whose
    send date is on or after the requested day, in the same order.  The
    offer attaches to a period all its reservations, the cancelled ones
    too, whereas a candidate carries only those that are not cancelled:
    summing the weights of the former over-counts what the allocation
    considers reserved by the weight of the cancelled ones. *)
Theorem X22_offered_periods_and_candidates :
  forall (f : Fecha) (db : DB),
    exists ofrecidos candidatos,
      getPeriodosDisponibles db = (Ok ofrecidos, db)
      /\ buscarPeriodosActivos None f db = (Ok candidatos, db)
      /\ Sorted (fun x y => p_fechaEnvio x <= p_fechaEnvio y)
                (map periodo ofrecidos)
      /\ Permutation (map periodo ofrecidos) (filter isActive (periodos db))
      /\ map periodo candidatos
         = filter (fun p => f <=? p_fechaEnvio p) (map periodo ofrecidos)
      /\ Forall (fun pc =>
                   sumLibras (pr_reservas pc)
                   = librasReservadasDe db (p_id (periodo pc))
                     + sumLibras
                         (filter (fun r => negb (noCancelada r))
                                 (pr_reservas pc)))
                ofrecidos
      /\ Forall (fun pc =>
                   sumLibras (pr_reservas pc)
                   = librasReservadasDe db (p_id (periodo pc)))
                candidatos.
Proof.
  intros f db. eexists. eexists.
  split; [reflexivity|]. split; [reflexivity|].
  rewrite !map_map. cbn [periodo includeReservasNoCanceladas]. rewrite !map_id.
  split; [apply Sorted_orderByFechaEnvioAsc|].
  split; [apply Permutation_orderByFechaEnvioAsc|].
  split; [|split].
  - rewrite filter_orderByFechaEnvioAsc, <- filter_andb. reflexivity.
  - apply Forall_forall. intros pc Hin. apply in_map_iff in Hin.
    destruct Hin as (p & <- & _). cbn [pr_reservas periodo].
    unfold librasReservadasDe.
    induction (reservasDePeriodo db (p_id p)) as [|r l IH]; [reflexivity|].
    cbn [filter]. destruct (noCancelada r); cbn [negb];
      rewrite !sumLibras_cons; lia.
  - apply Forall_forall. intros pc Hin. apply in_map_iff in Hin.
    destruct Hin as (p & <- & _). reflexivity.
Qed.

(** ** The dashboard *)

Lemma sumLibras_por_estado :
  forall rs : list Reserva,
    Forall (fun r => noCancelada r = true) rs ->
    sumLibras (filter (fun r => StatusReserva_eqb (status r) ENTREGADA) rs)
    + sumLibras (filter (fun r => StatusReserva_eqb (status r) CONFIRMADA
                                  || StatusReserva_eqb (status r) ENVIADA) rs)
    + sumLibras (filter (fun r => StatusReserva_eqb (status r) PENDIENTE) rs)
    = sumLibras rs.
Proof.
  intros rs H. induction H as [|r rs Hr _ IH]; [reflexivity|].
  rewrite sumLibras_cons. cbn [filter]. unfold noCancelada in Hr.
  destruct (status r); cbn [StatusReserva_eqb orb negb] in *;
    try discriminate; rewrite ?sumLibras_cons; lia.
Qed.

Lemma contarStatus_fst :
  forall l s, map fst (contarStatus l s) = map fst l.
Proof.
  induction l as [|[s' c] l IH]; intros s; [reflexivity|].
  cbn [contarStatus]. destruct (StatusReserva_eqb s' s); cbn [map fst];
    [reflexivity|]. now rewrite IH.
Qed.

Lemma StatusReserva_eqb_eq :
  forall a b, StatusReserva_eqb a b = true <-> a = b.
Proof.
  intros a b. destruct a, b; cbn; split; intros H; try reflexivity;
    discriminate.
Qed.

Lemma list_sum_cons :
  forall (a : nat) (l : list nat), list_sum (a :: l) = (a + list_sum l)%nat.
Proof. reflexivity. Qed.

Lemma contarStatus_sum :
  forall l s,
    In s (map fst l) ->
    list_sum (map snd (contarStatus l s)) = S (list_sum (map snd l)).
Proof.
  induction l as [|[s' c] l IH]; intros s Hin; [destruct Hin|].
  cbn [contarStatus]. destruct (StatusReserva_eqb s' s) eqn:E.
  - cbn [map snd]. rewrite !list_sum_cons. lia.
  - cbn [map snd]. rewrite !list_sum_cons. rewrite IH; [lia|].
    destruct Hin as [Hin|Hin]; [|exact Hin].
    cbn [fst] in Hin. apply StatusReserva_eqb_eq in Hin. congruence.
Qed.

Lemma contarStatus_otro :
  forall l s s0 c,
    s0 <> s -> In (s0, c) (contarStatus l s) -> In (s0, c) l.
Proof.
  induction l as [|[s' c'] l IH]; intros s s0 c Hne Hin; [destruct Hin|].
  cbn [contarStatus] in Hin. destruct (StatusReserva_eqb s' s) eqn:E.
  - apply StatusReserva_eqb_eq in E. subst s'.
    destruct Hin as [Hin|Hin]; [congruence | now right].
  - destruct Hin as [Hin|Hin]; [now left | right; eapply IH; eauto].
Qed.

Lemma reservasPorStatus_fold :
  forall (rs : list Reserva) (l : list (StatusReserva * nat)),
    (forall r, In r rs -> In (status r) (map fst l)) ->
    map fst (fold_left (fun l r => contarStatus l (status r)) rs l)
    = map fst l
    /\ list_sum (map snd (fold_left (fun l r => contarStatus l (status r))
                                    rs l))
       = (list_sum (map snd l) + List.length rs)%nat
    /\ forall s0 c,
         (forall r, In r rs -> status r <> s0) ->
         In (s0, c) (fold_left (fun l r => contarStatus l (status r)) rs l) ->
         In (s0, c) l.
Proof.
  induction rs as [|r rs IH]; intros l Hin.
  - cbn. repeat split; auto.
  - cbn [fold_left List.length].
    destruct (IH (contarStatus l (status r))) as (Hf & Hs & Ho).
    { intros r' Hr'. rewrite contarStatus_fst. apply Hin. now right. }
    rewrite contarStatus_fst in Hf.
    rewrite contarStatus_sum in Hs by (apply Hin; now left).
    split; [exact Hf|]. split; [lia|].
    intros s0 c Hno Hc. apply Ho in Hc; [|intros r' Hr'; apply Hno; now right].
    eapply contarStatus_otro; [|exact Hc].
    intros E. apply (Hno r); [now left | now symmetry].
Qed.

Lemma list_sum_filter_pos :
  forall l : list (StatusReserva * nat),
    list_sum (map snd (filter (fun sc => (0 <? snd sc)%nat) l))
    = list_sum (map snd l).
Proof.
  induction l as [|[s c] l IH]; [reflexivity|].
  cbn [filter snd]. destruct (0 <? c)%nat eqn:E; cbn [map snd];
    rewrite ?list_sum_cons.
  - now rewrite IH.
  - apply Nat.ltb_ge in E. rewrite IH. lia.
Qed.

Lemma existsb_userId :
  forall (m : list UserReservaSummary) (uid : nat),
    existsb (fun e => (us_userId e =? uid)%nat) m = true
    <-> In uid (map us_userId m).
Proof.
  intros m uid. rewrite existsb_exists, in_map_iff. split.
  - intros (e & Hin & He). apply Nat.eqb_eq in He. eauto.
  - intros (e & He & Hin). exists e. split; [exact Hin|].
    apply Nat.eqb_eq. exact He.
Qed.

Lemma usuarioSumar_props :
  forall (m : list UserReservaSummary) (uid : nat) (l : Libras),
    map us_userId (usuarioSumar m uid l) = map us_userId m
    /\ (In uid (map us_userId m) ->
        sumTotalLibras (usuarioSumar m uid l) = sumTotalLibras m + l
        /\ sumTotalReservas (usuarioSumar m uid l) = S (sumTotalReservas m)).
Proof.
  intros m uid l. induction m as [|e m [IHk IHs]]; [split; [reflexivity|]|].
  - intros [].
  - cbn [usuarioSumar]. destruct (us_userId e =? uid)%nat eqn:E.
    + split; [reflexivity|]. intros _.
      unfold sumTotalLibras, sumTotalReservas.
      cbn [fold_right map us_totalLibras us_totalReservas].
      rewrite !list_sum_cons. split; lia.
    + split; [cbn [map]; now rewrite IHk|].
      intros [Hin|Hin]; [apply Nat.eqb_neq in E; contradiction|].
      destruct (IHs Hin) as [H1 H2].
      unfold sumTotalLibras, sumTotalReservas in *.
      cbn [fold_right map]. rewrite !list_sum_cons. split; lia.
Qed.

Lemma sumTotal_app :
  forall l1 l2,
    sumTotalLibras (l1 ++ l2) = sumTotalLibras l1 + sumTotalLibras l2
    /\ sumTotalReservas (l1 ++ l2)
       = (sumTotalReservas l1 + sumTotalReservas l2)%nat.
Proof.
  intros l1 l2. unfold sumTotalLibras, sumTotalReservas.
  induction l1 as [|a l1 [IH1 IH2]]; [split; reflexivity|].
  cbn [app fold_right map]. rewrite !list_sum_cons. split; lia.
Qed.

Lemma registrarReserva_props :
  forall (m : list UserReservaSummary) (r : Reserva) (u : User),
    NoDup (map us_userId m) ->
    NoDup (map us_userId (registrarReserva m r u))
    /\ sumTotalLibras (registrarReserva m r u) = sumTotalLibras m + libras r
    /\ sumTotalReservas (registrarReserva m r u) = S (sumTotalReservas m)
    /\ (forall uid, In uid (map us_userId (registrarReserva m r u))
                    <-> In uid (map us_userId m) \/ uid = userId r).
Proof.
  intros m r u Hnd. unfold registrarReserva.
  destruct (existsb (fun e => (us_userId e =? userId r)%nat) m) eqn:E;
    cbn [negb].
  - apply existsb_userId in E.
    destruct (usuarioSumar_props m (userId r) (libras r)) as [Hk Hs].
    destruct (Hs E) as [H1 H2]. rewrite Hk.
    split; [exact Hnd|]. split; [exact H1|]. split; [exact H2|].
    intros uid. split; [auto|]. intros [H | ->]; auto.
  - set (m1 := (m ++ [mkUserReservaSummary (userId r) (u_name u) (u_email u)
                                           0 0])%list).
    assert (Hk1 : map us_userId m1 = (map us_userId m ++ [userId r])%list).
    { unfold m1. rewrite map_app. reflexivity. }
    assert (Hnot : ~ In (userId r) (map us_userId m)).
    { intros H. apply existsb_userId in H. congruence. }
    destruct (usuarioSumar_props m1 (userId r) (libras r)) as [Hk Hs].
    destruct Hs as [H1 H2].
    { rewrite Hk1. apply in_or_app. right. now left. }
    destruct (sumTotal_app m [mkUserReservaSummary (userId r) (u_name u)
                                                   (u_email u) 0 0])
      as [Ha Hb].
    fold m1 in Ha, Hb. rewrite Hk, Hk1.
    split; [|split; [|split]].
    + apply NoDup_app; [exact Hnd | repeat constructor; simpl; tauto |].
      intros i Hi [<-|[]]. contradiction.
    + rewrite H1, Ha. unfold sumTotalLibras. cbn. lia.
    + rewrite H2, Hb. unfold sumTotalReservas. cbn. lia.
    + intros uid. rewrite in_app_iff. cbn [In]. intuition.
Qed.

Lemma registrarReservas_props :
  forall (db : DB) (rs : list Reserva) (m m' : list UserReservaSummary),
    registrarReservas db m rs = Some m' ->
    NoDup (map us_userId m) ->
    NoDup (map us_userId m')
    /\ sumTotalLibras m' = sumTotalLibras m + sumLibras rs
    /\ sumTotalReservas m' = (sumTotalReservas m + List.length rs)%nat
    /\ (forall uid, In uid (map us_userId m')
                    <-> In uid (map us_userId m) \/ In uid (map userId rs)).
Proof.
  intros db rs. induction rs as [|r rs IH]; intros m m' Hrun Hnd.
  - cbn in Hrun. injection Hrun as <-.
    split; [exact Hnd|]. change (sumLibras []) with 0.
    split; [lia|]. split; [cbn; lia|]. intros uid. cbn. tauto.
  - cbn [registrarReservas] in Hrun.
    destruct (findUniqueUser db (userId r)) as [u|]; [|discriminate].
    destruct (registrarReserva_props m r u Hnd) as (Hnd1 & H1 & H2 & Hk).
    destruct (IH _ _ Hrun Hnd1) as (Hnd' & H1' & H2' & Hk').
    split; [exact Hnd'|]. rewrite sumLibras_cons.
    split; [lia|]. split; [cbn [List.length]; lia|].
    intros uid. rewrite Hk', Hk. cbn [map In]. intuition.
Qed.

Lemma Permutation_sortPorTotalDesc :
  forall l, Permutation (sortPorTotalDesc l) l.
Proof.
  assert (Hins : forall e l, Permutation (insertarPorTotalDesc e l) (e :: l)).
  { intros e l. induction l as [|a l IH]; cbn [insertarPorTotalDesc].
    - apply Permutation_refl.
    - destruct (us_totalLibras a <=? us_totalLibras e).
      + apply Permutation_refl.
      + eapply Permutation_trans; [apply perm_skip, IH | apply perm_swap]. }
  induction l as [|a l IH]; cbn [sortPorTotalDesc fold_right].
  - apply Permutation_refl.
  - eapply Permutation_trans; [apply Hins|]. apply perm_skip. exact IH.
Qed.

Lemma sumTotal_Permutation :
  forall l l',
    Permutation l l' ->
    sumTotalLibras l = sumTotalLibras l'
    /\ sumTotalReservas l = sumTotalReservas l'.
Proof.
  intros l l' H. unfold sumTotalLibras, sumTotalReservas.
  induction H as [|x l l' _ [IH1 IH2]|x y l|l l' l'' _ [IH1 IH2] _ [IH3 IH4]];
    cbn [fold_right map]; rewrite ?list_sum_cons; split; lia.
Qed.

Lemma Sorted_sortPorTotalDesc :
  forall l,
    Sorted (fun a b => us_totalLibras b <= us_totalLibras a)
           (sortPorTotalDesc l).
Proof.
  assert (Hhd : forall a e l,
            us_totalLibras e <= us_totalLibras a ->
            HdRel (fun a b => us_totalLibras b <= us_totalLibras a) a l ->
            HdRel (fun a b => us_totalLibras b <= us_totalLibras a) a
                  (insertarPorTotalDesc e l)).
  { intros a e l Hle Hh. destruct l as [|x l]; cbn [insertarPorTotalDesc].
    - constructor. exact Hle.
    - destruct (us_totalLibras x <=? us_totalLibras e); constructor;
        [exact Hle | now inversion Hh]. }
  assert (Hins : forall e l,
            Sorted (fun a b => us_totalLibras b <= us_totalLibras a) l ->
            Sorted (fun a b => us_totalLibras b <= us_totalLibras a)
                   (insertarPorTotalDesc e l)).
  { intros e l Hs. induction Hs as [|x l Hs IH Hh]; cbn [insertarPorTotalDesc].
    - repeat constructor.
    - destruct (Z.leb_spec (us_totalLibras x) (us_totalLibras e)).
      + constructor; [now constructor | now constructor].
      + constructor; [exact IH|]. apply Hhd; [lia | exact Hh]. }
  induction l as [|a l IH]; cbn [sortPorTotalDesc fold_right].
  - constructor.
  - apply Hins. exact IH.
Qed.

Lemma periodoConStats_props :
  forall (db : DB) (p : PeriodoLibras) (st : PeriodoStats),
    periodoConStats db (includeReservasNoCanceladas db p) = Some st ->
    let activas := filter noCancelada (reservasDePeriodo db (p_id p)) in
    st_periodo st = p
    /\ st_librasReservadas st = sumLibras activas
    /\ st_librasDisponibles st = capacidadRestante db p
    /\ st_totalReservas st = List.length activas
    /\ st_librasEnCentral st + st_librasEnTransito st + st_librasPendientes st
       = st_librasReservadas st
    /\ list_sum (map snd (st_reservasPorStatus st)) = st_totalReservas st
    /\ Forall (fun sc => fst sc <> CANCELADA /\ (0 < snd sc)%nat)
              (st_reservasPorStatus st)
    /\ sumTotalLibras (st_usuariosConReservas st) = st_librasReservadas st
    /\ sumTotalReservas (st_usuariosConReservas st) = st_totalReservas st
    /\ NoDup (map us_userId (st_usuariosConReservas st))
    /\ List.length (st_usuariosConReservas st) = st_totalUsuariosConReservas st
    /\ Sorted (fun a b => us_totalLibras b <= us_totalLibras a)
              (st_usuariosConReservas st)
    /\ st_totalUsuariosConReservas st
       = List.length (nodup Nat.eq_dec (map userId activas)).
Proof.
  intros db p st Hrun activas.
  unfold periodoConStats in Hrun.
  cbn [includeReservasNoCanceladas pr_reservas periodo] in Hrun.
  fold activas in Hrun.
  destruct (registrarReservas db [] activas) as [m|] eqn:Hm; [|discriminate].
  injection Hrun as <-.
  cbn [st_periodo st_librasReservadas st_librasDisponibles st_totalReservas
       st_librasEnCentral st_librasEnTransito st_librasPendientes
       st_reservasPorStatus st_usuariosConReservas
       st_totalUsuariosConReservas].
  assert (Hnc : Forall (fun r => noCancelada r = true) activas).
  { apply Forall_forall. intros r Hr. apply filter_In in Hr. tauto. }
  destruct (registrarReservas_props db activas [] m Hm (NoDup_nil _))
    as (Hnd & Hs1 & Hs2 & Hk).
  pose proof (Permutation_sortPorTotalDesc m) as Hperm.
  destruct (sumTotal_Permutation _ _ Hperm) as [Hp1 Hp2].
  destruct (reservasPorStatus_fold activas reservasPorStatusInicial)
    as (Hf & Hsum & Hotro).
  { intros r _. destruct (status r); cbn; tauto. }
  split; [reflexivity|]. split; [reflexivity|]. split; [reflexivity|].
  split; [reflexivity|]. split; [apply sumLibras_por_estado; exact Hnc|].
  split; [rewrite list_sum_filter_pos, Hsum; reflexivity|].
  split.
  { apply Forall_forall. intros [s c] Hin. apply filter_In in Hin.
    destruct Hin as [Hin Hpos]. cbn [fst snd] in *.
    apply Nat.ltb_lt in Hpos. split; [|exact Hpos].
    intros ->. apply Hotro in Hin.
    - cbn in Hin.
      repeat (destruct Hin as [Hin|Hin];
              [injection Hin as Hc; try discriminate; lia|]).
      destruct Hin.
    - intros r Hr E. rewrite Forall_forall in Hnc. specialize (Hnc r Hr).
      unfold noCancelada in Hnc. rewrite E in Hnc. discriminate. }
  split; [rewrite Hp1, Hs1; unfold sumTotalLibras; cbn; lia|].
  split; [rewrite Hp2, Hs2; reflexivity|].
  split; [eapply Permutation_NoDup;
          [apply Permutation_sym, Permutation_map, Hperm | exact Hnd]|].
  split; [apply Permutation_length; exact Hperm|].
  split; [apply Sorted_sortPorTotalDesc|].
  rewrite <- (length_map us_userId m).
  apply Permutation_length. apply NoDup_Permutation.
  - exact Hnd.
  - apply NoDup_nodup.
  - intros uid. rewrite Hk, nodup_In. cbn [map In]. tauto.
Qed.

Lemma fold_left_sumZ :
  forall (A : Type) (f : A -> Z) (l : list A) (acc : Z),
    fold_left (fun sum p => sum + f p) l acc
    = acc + fold_right (fun p a => f p + a) 0 l.
Proof.
  intros A f l. induction l as [|a l IH]; intros acc; cbn [fold_left fold_right].
  - lia.
  - rewrite IH. lia.
Qed.

Lemma fold_left_sumNat :
  forall (A : Type) (f : A -> nat) (l : list A) (acc : nat),
    fold_left (fun sum p => (sum + f p)%nat) l acc
    = (acc + list_sum (map f l))%nat.
Proof.
  intros A f l. induction l as [|a l IH]; intros acc;
    cbn [fold_left map]; rewrite ?list_sum_cons.
  - cbn. lia.
  - rewrite IH. lia.
Qed.

Lemma periodosConStats_totales :
  forall (db : DB) (L : list PeriodoLibras) (sts : list PeriodoStats),
    mapOption (periodoConStats db) (map (includeReservasNoCanceladas db) L)
    = Some sts ->
    map st_periodo sts = L
    /\ fold_right (fun st a => st_librasReservadas st + a) 0 sts
       = sumLibras (flat_map pr_reservas
                             (map (includeReservasNoCanceladas db) L))
    /\ list_sum (map st_totalReservas sts)
       = List.length (flat_map pr_reservas
                               (map (includeReservasNoCanceladas db) L))
    /\ fold_right (fun st a => st_librasDisponibles st + a) 0 sts
       = fold_right (fun st a => 100 * librasTotales (st_periodo st) + a) 0 sts
         - fold_right (fun st a => st_librasReservadas st + a) 0 sts.
Proof.
  intros db L. induction L as [|p L IH]; intros sts Hrun.
  - cbn in Hrun. injection Hrun as <-. repeat split.
  - cbn [map mapOption] in Hrun.
    destruct (periodoConStats db (includeReservasNoCanceladas db p))
      as [st|] eqn:Hst; [|discriminate].
    destruct (mapOption (periodoConStats db)
                        (map (includeReservasNoCanceladas db) L))
      as [sts'|] eqn:Hsts; [|discriminate].
    injection Hrun as <-.
    destruct (IH sts' eq_refl) as (Hp & Hr & Hn & Hd).
    destruct (periodoConStats_props db p st Hst)
      as (Hp0 & Hr0 & Hd0 & Hn0 & _).
    cbn [map flat_map fold_right includeReservasNoCanceladas pr_reservas].
    rewrite sumLibras_app, length_app, list_sum_cons, Hp, Hr, Hn, Hp0, Hr0, Hn0.
    split; [reflexivity|]. split; [reflexivity|]. split; [reflexivity|].
    rewrite Hd, Hd0. unfold capacidadRestante, librasReservadasDe.
    rewrite ?Hr, ?Hr0. lia.
Qed.

Lemma periodosConStats_cada_uno :
  forall (db : DB) (L : list PeriodoLibras) (sts : list PeriodoStats),
    mapOption (periodoConStats db) (map (includeReservasNoCanceladas db) L)
    = Some sts ->
    Forall (fun st =>
                 let p := st_periodo st in
                 st_librasReservadas st = librasReservadasDe db (p_id p)
                 /\ st_librasDisponibles st = capacidadRestante db p
                 /\ st_librasEnCentral st + st_librasEnTransito st
                    + st_librasPendientes st = st_librasReservadas st
                 /\ list_sum (map snd (st_reservasPorStatus st))
                    = st_totalReservas st
                 /\ Forall (fun sc => fst sc <> CANCELADA /\ (0 < snd sc)%nat)
                           (st_reservasPorStatus st)
                 /\ sumTotalLibras (st_usuariosConReservas st)
                    = st_librasReservadas st
                 /\ sumTotalReservas (st_usuariosConReservas st)
                    = st_totalReservas st
                 /\ NoDup (map us_userId (st_usuariosConReservas st))
                 /\ List.length (st_usuariosConReservas st)
                    = st_totalUsuariosConReservas st
                 /\ Sorted (fun a b => us_totalLibras b <= us_totalLibras a)
                           (st_usuariosConReservas st)
                 /\ hp_librasReservadas (historicoDePeriodo db p)
                    = st_librasReservadas st
                 /\ totalReservas (historicoDePeriodo db p)
                    = st_totalReservas st
                 /\ totalUsuarios (historicoDePeriodo db p)
                    = st_totalUsuariosConReservas st)
              sts.
Proof.
  intros db L. induction L as [|p L IH]; intros sts Hrun.
  - cbn in Hrun. injection Hrun as <-. constructor.
  - cbn [map mapOption] in Hrun.
    destruct (periodoConStats db (includeReservasNoCanceladas db p))
      as [st|] eqn:Hst; [|discriminate].
    destruct (mapOption (periodoConStats db)
                        (map (includeReservasNoCanceladas db) L))
      as [sts'|] eqn:Hsts; [|discriminate].
    injection Hrun as <-. constructor; [|apply IH; reflexivity].
    destruct (periodoConStats_props db p st Hst)
      as (Hp0 & Hr0 & Hd0 & Hn0 & Hest & Hcnt & Hnoc & Hu1 & Hu2 & Hund
          & Hulen & Hsort & Hnod).
    cbv zeta. rewrite Hp0. unfold historicoDePeriodo.
    cbn [hp_librasReservadas totalReservas totalUsuarios].
    unfold librasReservadasDe.
    repeat split; auto; congruence.
Qed.

Lemma getDashboardStats_ok_props :
  forall (db : DB) (d : DashboardStats) (db' : DB),
    getDashboardStats db = (Ok d, db') ->
    db' = db
    /\ map st_periodo (ds_periodos d)
       = orderByFechaEnvioAsc (filter isActive (periodos db))
    /\ Forall (fun st =>
                 let p := st_periodo st in
                 st_librasReservadas st = librasReservadasDe db (p_id p)
                 /\ st_librasDisponibles st = capacidadRestante db p
                 /\ st_librasEnCentral st + st_librasEnTransito st
                    + st_librasPendientes st = st_librasReservadas st
                 /\ list_sum (map snd (st_reservasPorStatus st))
                    = st_totalReservas st
                 /\ Forall (fun sc => fst sc <> CANCELADA /\ (0 < snd sc)%nat)
                           (st_reservasPorStatus st)
                 /\ sumTotalLibras (st_usuariosConReservas st)
                    = st_librasReservadas st
                 /\ sumTotalReservas (st_usuariosConReservas st)
                    = st_totalReservas st
                 /\ NoDup (map us_userId (st_usuariosConReservas st))
                 /\ List.length (st_usuariosConReservas st)
                    = st_totalUsuariosConReservas st
                 /\ Sorted (fun a b => us_totalLibras b <= us_totalLibras a)
                           (st_usuariosConReservas st)
                 /\ hp_librasReservadas (historicoDePeriodo db p)
                    = st_librasReservadas st
                 /\ totalReservas (historicoDePeriodo db p)
                    = st_totalReservas st
                 /\ totalUsuarios (historicoDePeriodo db p)
                    = st_totalUsuariosConReservas st)
              (ds_periodos d)
    /\ ds_totalLibrasReservadas d = sumTotalLibras (ds_usuariosConReservas d)
    /\ ds_totalReservas d = sumTotalReservas (ds_usuariosConReservas d)
    /\ ds_totalReservas d = list_sum (map st_totalReservas (ds_periodos d))
    /\ NoDup (map us_userId (ds_usuariosConReservas d))
    /\ List.length (ds_usuariosConReservas d) = ds_totalUsuariosConReservas d
    /\ ds_totalLibrasReservadas d + ds_totalLibrasDisponibles d
       = fold_right (fun st a => 100 * librasTotales (st_periodo st) + a) 0
                    (ds_periodos d).
Proof.
  intros db d db' Hrun.
  unfold getDashboardStats, bind, getDB, ret, throw in Hrun.
  set (L := orderByFechaEnvioAsc (filter isActive (periodos db))) in *.
  destruct (List.length (map (includeReservasNoCanceladas db) L) =? 0)%nat
    eqn:Hlen.
  - injection Hrun as <- <-. rewrite length_map in Hlen.
    apply Nat.eqb_eq in Hlen. apply length_zero_iff_nil in Hlen.
    rewrite Hlen. cbn. repeat split; constructor.
  - destruct (mapOption (periodoConStats db)
                        (map (includeReservasNoCanceladas db) L))
      as [sts|] eqn:Hsts; [|discriminate].
    destruct (registrarReservas db []
                (flat_map pr_reservas (map (includeReservasNoCanceladas db) L)))
      as [m|] eqn:Hm; [|discriminate].
    injection Hrun as <- <-.
    cbn [ds_periodos ds_totalLibrasReservadas ds_totalLibrasDisponibles
         ds_totalReservas ds_totalUsuariosConReservas ds_usuariosConReservas].
    destruct (periodosConStats_totales db L sts Hsts) as (Hp & Hr & Hn & Hd).
    destruct (registrarReservas_props db _ [] m Hm (NoDup_nil _))
      as (Hnd & Hs1 & Hs2 & _).
    pose proof (Permutation_sortPorTotalDesc m) as Hperm.
    destruct (sumTotal_Permutation _ _ Hperm) as [Hp1 Hp2].
    rewrite !fold_left_sumZ, fold_left_sumNat.
    split; [reflexivity|]. split; [exact Hp|]. split.
    { exact (periodosConStats_cada_uno db L sts Hsts). }
    split; [rewrite Hp1, Hs1, Hr; unfold sumTotalLibras; cbn; lia|].
    split; [rewrite Hp2, Hs2, Hn; cbn; lia|].
    split; [cbn; lia|].
    split; [eapply Permutation_NoDup;
            [apply Permutation_sym, Permutation_map, Hperm | exact Hnd]|].
    split; [apply Permutation_length; exact Hperm|].
    rewrite Hd. lia.
Qed.

(** X23. The figures of [getDashboardStats] are consistent.  When every reservation has a stored user the request succeeds; it
    never writes and describes the active periods, earliest send date
    first.  For each of them: the reserved weight is the sum over its
    reservations that are not cancelled, and what the dashboard calls
    available is the period's remaining capacity; the weights in central,
    in transit and pending add up to the reserved weight; the counts by
    status add up to the number of reservations, list no status with a
    zero count and never CANCELADA; the users listed are distinct, come
    heaviest first, and their weights and reservation counts add up to the
    period's; and reserved weight, number of reservations and number of
    users are the figures [closePeriodo] would archive for the period.
    Over all periods: the total reserved is what the listed users hold
    together, the total of reservations is the sum of their counts, and
    reserved plus available is the capacity of the active periods. *)
Theorem X23_dashboard_figures_consistent :
  forall db : DB,
    (forall r, In r (reservas db) -> findUniqueUser db (userId r) <> None) ->
    exists d,
      getDashboardStats db = (Ok d, db)
      /\ map st_periodo (ds_periodos d)
         = orderByFechaEnvioAsc (filter isActive (periodos db))
      /\ Forall (fun st =>
                   let p := st_periodo st in
                   st_librasReservadas st = librasReservadasDe db (p_id p)
                   /\ st_librasDisponibles st = capacidadRestante db p
                   /\ st_librasEnCentral st + st_librasEnTransito st
                      + st_librasPendientes st = st_librasReservadas st
                   /\ list_sum (map snd (st_reservasPorStatus st))
                      = st_totalReservas st
                   /\ Forall (fun sc => fst sc <> CANCELADA /\ (0 < snd sc)%nat)
                             (st_reservasPorStatus st)
                   /\ sumTotalLibras (st_usuariosConReservas st)
                      = st_librasReservadas st
                   /\ sumTotalReservas (st_usuariosConReservas st)
                      = st_totalReservas st
                   /\ NoDup (map us_userId (st_usuariosConReservas st))
                   /\ List.length (st_usuariosConReservas st)
                      = st_totalUsuariosConReservas st
                   /\ Sorted (fun a b => us_totalLibras b <= us_totalLibras a)
                             (st_usuariosConReservas st)
                   /\ hp_librasReservadas (historicoDePeriodo db p)
                      = st_librasReservadas st
                   /\ totalReservas (historicoDePeriodo db p)
                      = st_totalReservas st
                   /\ totalUsuarios (historicoDePeriodo db p)
                      = st_totalUsuariosConReservas st)
                (ds_periodos d)
      /\ ds_totalLibrasReservadas d = sumTotalLibras (ds_usuariosConReservas d)
      /\ ds_totalReservas d = sumTotalReservas (ds_usuariosConReservas d)
      /\ ds_totalReservas d = list_sum (map st_totalReservas (ds_periodos d))
      /\ NoDup (map us_userId (ds_usuariosConReservas d))
      /\ List.length (ds_usuariosConReservas d) = ds_totalUsuariosConReservas d
      /\ ds_totalLibrasReservadas d + ds_totalLibrasDisponibles d
         = fold_right (fun st a => 100 * librasTotales (st_periodo st) + a) 0
                      (ds_periodos d).
Proof.
  intros db Husers.
  assert (Hreg : forall rs m,
            (forall r, In r rs -> In r (reservas db)) ->
            exists m', registrarReservas db m rs = Some m').
  { induction rs as [|r rs IH]; intros m Hin; [eexists; reflexivity|].
    cbn [registrarReservas].
    destruct (findUniqueUser db (userId r)) as [u|] eqn:Hu.
    - apply IH. intros r' Hr'. apply Hin. now right.
    - exfalso. apply (Husers r); [apply Hin; now left | exact Hu]. }
  assert (Hact : forall p r,
            In r (pr_reservas (includeReservasNoCanceladas db p)) ->
            In r (reservas db)).
  { intros p r Hr. cbn [includeReservasNoCanceladas pr_reservas] in Hr.
    apply filter_In in Hr. destruct Hr as [Hr _].
    unfold reservasDePeriodo in Hr. apply filter_In in Hr. tauto. }
  set (L := orderByFechaEnvioAsc (filter isActive (periodos db))).
  assert (Hrun : exists d, getDashboardStats db = (Ok d, db)).
  { unfold getDashboardStats, bind, getDB, ret, throw. fold L.
    destruct (List.length (map (includeReservasNoCanceladas db) L) =? 0)%nat;
      [eexists; reflexivity|].
    destruct (mapOption_total _ _ (periodoConStats db)
                (map (includeReservasNoCanceladas db) L)) as [sts Hsts].
    { intros pc Hpc. apply in_map_iff in Hpc. destruct Hpc as (p & <- & _).
      unfold periodoConStats.
      destruct (Hreg (pr_reservas (includeReservasNoCanceladas db p)) []
                     (Hact p)) as [m Hm].
      rewrite Hm. discriminate. }
    rewrite Hsts.
    destruct (Hreg (flat_map pr_reservas
                             (map (includeReservasNoCanceladas db) L)) [])
      as [m Hm].
    { intros r Hr. apply in_flat_map in Hr. destruct Hr as (pc & Hpc & Hr).
      apply in_map_iff in Hpc. destruct Hpc as (p & <- & _).
      exact (Hact p r Hr). }
    rewrite Hm. eexists. reflexivity. }
  destruct Hrun as [d Hrun]. exists d. split; [exact Hrun|].
  exact (proj2 (getDashboardStats_ok_props db d db Hrun)).
Qed.

(** One active period of 100 pounds with 30 pounds delivered and 25
    pending for Ana, 20 confirmed for Luis and a cancelled reservation:
    75 pounds reserved, 25 available, three reservations, two users. *)
Lemma X23_witness_one_period :
  let us := [mkUser 7 "Ana" "ana@x.mx"; mkUser 8 "Luis" "luis@x.mx"] in
  let p := mkPeriodo 1 100 10 true in
  let ra := mkReserva 1 3000 10 "CDMX" None ENTREGADA 7 1 None None None in
  let rb := mkReserva 2 2000 10 "CDMX" None CONFIRMADA 8 1 None None None in
  let rc := mkReserva 3 2500 10 "CDMX" None PENDIENTE 7 1 None None None in
  let rd := mkReserva 4 4000 10 "CDMX" None CANCELADA 8 1 None None None in
  let db := mkDB us [p; mkPeriodo 2 50 5 false] [ra; rb; rc; rd] [] [] 5 in
  exists d,
    getDashboardStats db = (Ok d, db)
    /\ ds_totalLibrasReservadas d = 7500
    /\ ds_totalLibrasDisponibles d = 2500
    /\ ds_totalReservas d = 3%nat
    /\ map (fun u => (us_userId u, us_totalLibras u)) (ds_usuariosConReservas d)
       = [(7%nat, 5500); (8%nat, 2000)]
    /\ ds_totalLibrasReservadas d = sumTotalLibras (ds_usuariosConReservas d).
Proof.
  intros us p ra rb rc rd db.
  destruct (X23_dashboard_figures_consistent db) as (d & Hrun & _ & _ & Hsum & _).
  - intros r Hr. vm_compute in Hr.
    destruct Hr as [<-|[<-|[<-|[<-|[]]]]]; vm_compute; discriminate.
  - exists d. split; [exact Hrun|].
    assert (Hd : fst (getDashboardStats db) = Ok d) by (rewrite Hrun; reflexivity).
    vm_compute in Hd. injection Hd as <-.
    repeat split.
Defined.
